(** * StylistGuild: the official/addon theme catalogue tools

    A shallow embedding of the reconciliation, persistence, entry-building,
    batch-session and URL-validation code of the repository, followed by the
    properties proved about it.

    Conventions of the embedding.
    - Python [str] values are [string]s of 8-bit characters (UTF-8 bytes);
      [strip], [lower] and [split] act on the ASCII range as Python does.
    - Values decoded from JSON are the inductive [json]; a Python [dict] is an
      association list in insertion order with distinct keys.
    - A function that may raise returns a [result]; code that reads the
      terminal, the clock or the disk runs in the state-and-exception monad
      [M] over a [world].
    - [print] calls are not modelled. *)

From Stdlib Require Import ZArith QArith String Ascii List Bool Lia.
From Stdlib Require Import DecimalFacts DecimalPos DecimalString.
From stdpp Require Import base option list gmap sets strings sorting.

Local Open Scope string_scope.
Local Open Scope list_scope.

Set Warnings "-clear-no-such-hyp".

(** ** Python strings *)

Module PyStr.

(** [str.isspace] on the ASCII range: TAB, LF, VT, FF, CR, FS, GS, RS, US
    and the space. *)
Definition is_space (c : ascii) : bool :=
  let n := nat_of_ascii c in
  ((9 <=? n)%nat && (n <=? 13)%nat) || ((28 <=? n)%nat && (n <=? 32)%nat).

Fixpoint lstrip (s : string) : string :=
  match s with
  | EmptyString => EmptyString
  | String c s' => if is_space c then lstrip s' else s
  end.

Fixpoint rstrip (s : string) : string :=
  match s with
  | EmptyString => EmptyString
  | String c s' =>
      match rstrip s' with
      | EmptyString => if is_space c then EmptyString else String c EmptyString
      | r => String c r
      end
  end.

(** [s.strip()] *)
Definition strip (s : string) : string := rstrip (lstrip s).

Definition lower_ascii (c : ascii) : ascii :=
  let n := nat_of_ascii c in
  if ((65 <=? n)%nat && (n <=? 90)%nat) then ascii_of_nat (n + 32) else c.

(** [s.lower()] *)
Fixpoint lower (s : string) : string :=
  match s with
  | EmptyString => EmptyString
  | String c s' => String (lower_ascii c) (lower s')
  end.

(** [s.split(sep)] for a one-character separator: never the empty list. *)
Fixpoint split (sep : ascii) (s : string) : list string :=
  match s with
  | EmptyString => [EmptyString]
  | String c s' =>
      if Ascii.eqb c sep then EmptyString :: split sep s'
      else match split sep s' with
           | h :: t => String c h :: t
           | [] => [String c EmptyString]
           end
  end.

(** [sub in s] on two strings: substring test. *)
Fixpoint contains (sub s : string) : bool :=
  String.prefix sub s ||
  match s with
  | EmptyString => false
  | String _ s' => contains sub s'
  end.

(** [x in l] on a list of strings. *)
Definition mem (x : string) (l : list string) : bool :=
  existsb (String.eqb x) l.

(** [l.remove(x)]: drops the first occurrence; [None] stands for the
    [ValueError] raised when there is none. *)
Fixpoint remove_first (x : string) (l : list string) : option (list string) :=
  match l with
  | [] => None
  | y :: l' =>
      if String.eqb y x then Some l'
      else option_map (cons y) (remove_first x l')
  end.

(** Insertion of [x] into an ascending list without duplicates. *)
Fixpoint insert_uniq (x : string) (l : list string) : list string :=
  match l with
  | [] => [x]
  | y :: l' =>
      match String.compare x y with
      | Lt => x :: l
      | Eq => l
      | Gt => y :: insert_uniq x l'
      end
  end.

(** [sorted(set(l))]: the distinct elements of [l] in ascending code-point
    order. *)
Definition sorted_set (l : list string) : list string :=
  fold_right insert_uniq [] l.

(** Stable insertion, for [sorted(l)] on a list. *)
Fixpoint insert_sorted (x : string) (l : list string) : list string :=
  match l with
  | [] => [x]
  | y :: l' =>
      match String.compare x y with
      | Gt => y :: insert_sorted x l'
      | _ => x :: l
      end
  end.

(** [sorted(l)] *)
Definition sorted (l : list string) : list string :=
  fold_right insert_sorted [] l.

(** Decimal text of an integer, as [str(n)] prints it. *)
Definition of_Z (n : Z) : string := NilZero.string_of_int (Z.to_int n).

(** A number zero-padded on the left to [width] digits, as [strftime]
    prints its fields. *)
Definition pad_left (width : nat) (s : string) : string :=
  String.concat "" (repeat "0" (width - String.length s)) ++ s.

Definition digits (width n : nat) : string :=
  pad_left width (NilZero.string_of_uint (Nat.to_uint n)).

End PyStr.

(** ** Python values decoded from JSON, and exceptions *)

Inductive exn_class : Set :=
| TypeError | AttributeError | ValueError | EOFError
| JSONDecodeError | OSError | SameFileError.

(** An instance of a subclass of [Exception], with the text of [str(e)]
    (CPython 3.12 wording). [KeyboardInterrupt] is not an [Exception]; the
    menu loop handles it and it is not modelled. *)
Record exn : Set := Exn { exn_cls : exn_class; exn_msg : string }.

Inductive result (A : Type) : Type :=
| Ok (a : A)
| Raise (e : exn).
Arguments Ok {A} a.
Arguments Raise {A} e.

Definition result_bind {A B} (r : result A) (k : A -> result B) : result B :=
  match r with
  | Ok a => k a
  | Raise e => Raise e
  end.

#[warnings="-register-all"] Inductive json : Type :=
| JNull
| JBool (b : bool)
| JNum (n : Z)
| JStr (s : string)
| JArr (l : list json)
| JObj (m : list (string * json)).

(** A theme record: a [dict] decoded from a JSON object. *)
Definition record : Type := list (string * json).

Module Py.

(** Lookup by key: [Some v] when [k in d], with [v = d[k]]. *)
Fixpoint dict_get (k : string) (d : record) : option json :=
  match d with
  | [] => None
  | (k', v) :: d' => if String.eqb k' k then Some v else dict_get k d'
  end.

(** [k in d] *)
Definition dict_has (k : string) (d : record) : bool :=
  match dict_get k d with Some _ => true | None => false end.

(** [d.get(k, dflt)] *)
Definition get_or (k : string) (dflt : json) (d : record) : json :=
  match dict_get k d with Some v => v | None => dflt end.

(** [d.get(k)]: [None] when the key is absent. *)
Definition get (k : string) (d : record) : json := get_or k JNull d.

(** Truth value of a decoded value in a condition. *)
Definition truthy (v : json) : bool :=
  match v with
  | JNull => false
  | JBool b => b
  | JNum n => negb (n =? 0)%Z
  | JStr s => negb (String.eqb s "")
  | JArr l => match l with [] => false | _ => true end
  | JObj m => match m with [] => false | _ => true end
  end.

Definition is_str (x : string) (v : json) : bool :=
  match v with JStr s => String.eqb s x | _ => false end.

Definition type_name (v : json) : string :=
  match v with
  | JNull => "NoneType" | JBool _ => "bool" | JNum _ => "int"
  | JStr _ => "str" | JArr _ => "list" | JObj _ => "dict"
  end.

(** [x in c] for a string [x]: membership in a list, substring of a string,
    key of a dict; [TypeError] on the other values. *)
Definition contains (x : string) (c : json) : result bool :=
  match c with
  | JArr l => Ok (existsb (is_str x) l)
  | JStr s => Ok (PyStr.contains x s)
  | JObj m => Ok (dict_has x m)
  | _ => Raise (Exn TypeError
                  ("argument of type '" ++ type_name c ++ "' is not iterable"))
  end.

(** Hashable values as set elements. [True == 1] and [False == 0] hash and
    compare alike, so booleans are the numbers 1 and 0. *)
Inductive key : Set :=
| KNone
| KNum (n : Z)
| KStr (s : string).

(** [hash(v)], as [set.add] and [in] on a set need it. *)
Definition hash (v : json) : result key :=
  match v with
  | JNull => Ok KNone
  | JBool b => Ok (KNum (if b then 1 else 0))
  | JNum n => Ok (KNum n)
  | JStr s => Ok (KStr s)
  | JArr _ | JObj _ =>
      Raise (Exn TypeError ("unhashable type: '" ++ type_name v ++ "'"))
  end.

Definition hex_digit (n : nat) : ascii :=
  ascii_of_nat (if (n <? 10)%nat then 48 + n else 87 + n).

Definition repr_char (quote : ascii) (c : ascii) : string :=
  let n := nat_of_ascii c in
  if Ascii.eqb c "\"%char then "\\"
  else if Ascii.eqb c quote then String "\"%char (String c EmptyString)
  else if (n =? 10)%nat then "\n"
  else if (n =? 13)%nat then "\r"
  else if (n =? 9)%nat then "\t"
  else if ((n <? 32)%nat || (n =? 127)%nat) then
    "\x" ++ String (hex_digit (n / 16)) (String (hex_digit (n mod 16)) EmptyString)
  else String c EmptyString.

Fixpoint repr_chars (quote : ascii) (s : string) : string :=
  match s with
  | EmptyString => EmptyString
  | String c s' => repr_char quote c ++ repr_chars quote s'
  end.

(** [repr(s)]: single quotes, unless [s] has a single quote and no double
    quote. *)
Definition repr_str (s : string) : string :=
  let squote := "'"%char in
  let dquote := ascii_of_nat 34 in
  let q := if PyStr.contains (String squote EmptyString) s
              && negb (PyStr.contains (String dquote EmptyString) s)
           then dquote else squote in
  String q (repr_chars q s) ++ String q EmptyString.

(** [repr(v)] *)
Fixpoint repr (v : json) : string :=
  match v with
  | JNull => "None"
  | JBool b => if b then "True" else "False"
  | JNum n => PyStr.of_Z n
  | JStr s => repr_str s
  | JArr l => "[" ++ String.concat ", " (List.map repr l) ++ "]"
  | JObj m =>
      "{" ++ String.concat ", "
               (List.map (fun kv => (repr_str (fst kv) ++ ": " ++ repr (snd kv))%string) m)
          ++ "}"
  end.

(** [str(v)], as an f-string formats a value. *)
Definition str (v : json) : string :=
  match v with
  | JStr s => s
  | _ => repr v
  end.

(** [for x in v]: the items of a list, the keys of a dict, the characters of
    a string; the other values are not iterable. *)
Definition iter (v : json) : result (list json) :=
  match v with
  | JArr l => Ok l
  | JObj m => Ok (List.map (fun kv => JStr (fst kv)) m)
  | JStr s => Ok (List.map (fun c => JStr (String c EmptyString)) (list_ascii_of_string s))
  | _ => Raise (Exn TypeError ("'" ++ type_name v ++ "' object is not iterable"))
  end.

(** [len(v)] *)
Definition len (v : json) : result nat :=
  match v with
  | JArr l => Ok (length l)
  | JObj m => Ok (length m)
  | JStr s => Ok (String.length s)
  | _ => Raise (Exn TypeError ("object of type '" ++ type_name v ++ "' has no len()"))
  end.

End Py.

#[global] Instance key_eq_dec : EqDecision Py.key.
Proof. solve_decision. Defined.

#[global] Instance key_countable : Countable Py.key.
Proof.
  refine (inj_countable'
            (fun k => match k with
                      | Py.KNone => inl tt
                      | Py.KNum n => inr (inl n)
                      | Py.KStr s => inr (inr s)
                      end)
            (fun x => match x with
                      | inl _ => Py.KNone
                      | inr (inl n) => Py.KNum n
                      | inr (inr s) => Py.KStr s
                      end) _).
  intros k. destruct k; reflexivity.
Defined.

(** ** Reconciler: [pythonThemeTools/data_synchronizer.py] *)

Module DataSynchronizer.

(** The synchronizer with both files loaded: [_official_data] and
    [_addon_data] hold the decoded lists of records. *)
Record t : Type := Build {
  _official_data : list record;
  _addon_data : list record
}.

(** The loop shared by [get_official_repos] and [get_addon_repos]:
    [if 'repo' in theme: repos.add(theme['repo'])]. *)
Fixpoint add_repos (data : list record) (repos : gset Py.key)
  : result (gset Py.key) :=
  match data with
  | [] => Ok repos
  | theme :: rest =>
      match Py.dict_get "repo" theme with
      | Some v => result_bind (Py.hash v) (fun k => add_repos rest ({[ k ]} ∪ repos))
      | None => add_repos rest repos
      end
  end.

Definition get_official_repos (self : t) : result (gset Py.key) :=
  add_repos (_official_data self) ∅.

Definition get_addon_repos (self : t) : result (gset Py.key) :=
  add_repos (_addon_data self) ∅.

(** [for theme in data: if theme.get('repo') in repos: entries.append(theme)] *)
Fixpoint entries_in (data : list record) (repos : gset Py.key)
  : result (list record) :=
  match data with
  | [] => Ok []
  | theme :: rest =>
      result_bind (Py.hash (Py.get "repo" theme)) (fun k =>
      result_bind (entries_in rest repos) (fun entries =>
      Ok (if bool_decide (k ∈ repos) then theme :: entries else entries)))
  end.

Definition find_missing_addon_entries (self : t) : result (list record) :=
  result_bind (get_official_repos self) (fun official_repos =>
  result_bind (get_addon_repos self) (fun addon_repos =>
  let missing_repos := official_repos ∖ addon_repos in
  entries_in (_official_data self) missing_repos)).

Definition find_orphaned_addon_entries (self : t) : result (list record) :=
  result_bind (get_official_repos self) (fun official_repos =>
  result_bind (get_addon_repos self) (fun addon_repos =>
  let orphaned_repos := addon_repos ∖ official_repos in
  entries_in (_addon_data self) orphaned_repos)).

(** The dict returned by [compare_json_files]; the percentage is the exact
    quotient, where Python computes it in floating point. *)
Record comparison : Type := Comparison {
  official_count : nat;
  addon_count : nat;
  official_repos_count : nat;
  addon_repos_count : nat;
  missing_addon_entries : list record;
  orphaned_addon_entries : list record;
  missing_count : nat;
  orphaned_count : nat;
  sync_percentage : Q
}.

Definition percent (part whole : nat) : Q :=
  Qmult (Qdiv (inject_Z (Z.of_nat part)) (inject_Z (Z.of_nat whole)))
        (inject_Z 100).

(** [compare_json_files], once [load_json_files] has succeeded. *)
Definition compare_json_files (self : t) : result comparison :=
  result_bind (get_official_repos self) (fun official_repos =>
  result_bind (get_addon_repos self) (fun addon_repos =>
  result_bind (find_missing_addon_entries self) (fun missing_entries =>
  result_bind (find_orphaned_addon_entries self) (fun orphaned_entries =>
  Ok {| official_count := length (_official_data self);
        addon_count := length (_addon_data self);
        official_repos_count := size official_repos;
        addon_repos_count := size addon_repos;
        missing_addon_entries := missing_entries;
        orphaned_addon_entries := orphaned_entries;
        missing_count := length missing_entries;
        orphaned_count := length orphaned_entries;
        sync_percentage :=
          if bool_decide (official_repos = ∅) then inject_Z 0
          else percent (size (addon_repos ∩ official_repos)) (size official_repos)
     |})))).

(** [get_theme_by_repo(repo, source)]: the first theme of the chosen list
    whose [repo] equals the string [repo]; every [source] other than
    ["official"] selects the addon list. *)
Definition get_theme_by_repo (self : t) (repo source : string) : option record :=
  let data := if String.eqb source "official" then _official_data self
              else _addon_data self in
  List.find (fun theme => Py.is_str repo (Py.get "repo" theme)) data.

(** [create_addon_template(official_entry)] *)
Definition create_addon_template (official_entry : record) : record :=
  [("repo", Py.get "repo" official_entry);
   ("screenshot-main", Py.get_or "screenshot" (JStr "") official_entry);
   ("screenshots-side", JArr []);
   ("tags", JArr [])].

End DataSynchronizer.

(** ** The outside world: disk, terminal, clock *)

(** [json.dump(v, f, indent=2, ensure_ascii=False)] and [json.load(f)] of the
    Python library: the text written for a value, and the value read back from
    a text, [None] when [json.load] raises [JSONDecodeError]. *)
Class JsonCodec : Type := {
  content : Type;
  json_dump : json -> content;
  json_load : content -> option json
}.

Record datetime : Set := {
  year : nat; month : nat; day : nat;
  hour : nat; minute : nat; second : nat
}.

(** [d.strftime("%Y%m%d_%H%M%S")] *)
Definition strftime_compact (d : datetime) : string :=
  (PyStr.digits 4 (year d) ++ PyStr.digits 2 (month d) ++ PyStr.digits 2 (day d)
   ++ "_" ++
   PyStr.digits 2 (hour d) ++ PyStr.digits 2 (minute d) ++ PyStr.digits 2 (second d))%string.

(** What the operating system answers to the n-th call made to it: the time
    of the call, and whether the call fails with an [OSError]. *)
Record io_event : Set := { now : datetime; fails : bool }.

Section World.
Context {codec : JsonCodec}.

(** Files are named by their normalised path; the terminal holds the lines the
    operator will type, and [input()] raises [EOFError] after the last one. *)
Record world : Type := World {
  fs : gmap string content;
  stdin : list string;
  tick : nat;
  env : nat -> io_event
}.

Definition M (A : Type) : Type := world -> result A * world.

Definition ret {A} (a : A) : M A := fun w => (Ok a, w).

Definition raise {A} (e : exn) : M A := fun w => (Raise e, w).

Definition bind {A B} (m : M A) (k : A -> M B) : M B :=
  fun w =>
    match m w with
    | (Ok a, w') => k a w'
    | (Raise e, w') => (Raise e, w')
    end.

(** [try: body except Exception as e: handler(e)] *)
Definition try_except {A} (body : M A) (handler : exn -> M A) : M A :=
  fun w =>
    match body w with
    | (Ok a, w') => (Ok a, w')
    | (Raise e, w') => handler e w'
    end.

Definition lift {A} (r : result A) : M A := fun w => (r, w).

(** One call to the operating system. *)
Definition syscall : M io_event :=
  fun w => (Ok (env w (tick w)),
            {| fs := fs w; stdin := stdin w; tick := S (tick w); env := env w |}).

(** [input(prompt)] *)
Definition input : M string :=
  fun w =>
    match stdin w with
    | [] => (Raise (Exn EOFError "EOF when reading a line"), w)
    | line :: rest =>
        (Ok line, {| fs := fs w; stdin := rest; tick := tick w; env := env w |})
    end.

(** [datetime.now()] *)
Definition datetime_now : M datetime :=
  bind syscall (fun ev => ret (now ev)).

(** [Path(p).exists()] *)
Definition path_exists (p : string) : M bool :=
  fun w => (Ok (bool_decide (is_Some (fs w !! p))), w).

Definition put_file (p : string) (c : content) : M unit :=
  fun w => (Ok tt, {| fs := <[ p := c ]> (fs w); stdin := stdin w;
                      tick := tick w; env := env w |}).

(** [with open(p, 'r') as f: json.load(f)] *)
Definition read_json (p : string) : M json :=
  bind syscall (fun ev =>
  if fails ev then raise (Exn OSError "cannot open file")
  else fun w =>
    match fs w !! p with
    | None => (Raise (Exn OSError "No such file or directory"), w)
    | Some c =>
        match json_load c with
        | Some v => (Ok v, w)
        | None => (Raise (Exn JSONDecodeError "Expecting value"), w)
        end
    end).

(** [path.parent.mkdir(parents=True, exist_ok=True)] followed by
    [with open(p, 'w') as f: json.dump(v, f, indent=2, ensure_ascii=False)];
    a failure is one of [mkdir] or [open] and leaves the file as it was. *)
Definition write_json (p : string) (v : json) : M unit :=
  bind syscall (fun ev =>
  if fails ev then raise (Exn OSError "cannot open file for writing")
  else put_file p (json_dump v)).

(** [shutil.copy2(src, dst)] *)
Definition copy2 (src dst : string) : M unit :=
  bind syscall (fun ev =>
  if fails ev then raise (Exn OSError "cannot copy file")
  else if String.eqb src dst then
    raise (Exn SameFileError "source and destination are the same file")
  else fun w =>
    match fs w !! src with
    | None => (Raise (Exn OSError "No such file or directory"), w)
    | Some c => put_file dst c w
    end).

End World.

Notation "x <- c1 ;; c2" := (bind c1 (fun x => c2))
  (at level 62, c1 at next level, right associativity).
Notation "c1 ;;; c2" := (bind c1 (fun _ => c2))
  (at level 62, right associativity).

(** ** Paths: the parts of [pathlib.Path] the code uses *)

Module PyPath.

(** [s.rfind(c)] *)
Fixpoint rfind (c : ascii) (s : string) : option nat :=
  match s with
  | EmptyString => None
  | String a s' =>
      match rfind c s' with
      | Some i => Some (S i)
      | None => if Ascii.eqb a c then Some 0%nat else None
      end
  end.

(** [Path(p).name]: the last component. *)
Definition name (p : string) : string :=
  match rfind "/"%char p with
  | Some i => String.substring (S i) (String.length p - S i) p
  | None => p
  end.

(** The index of the dot that starts the suffix: neither the first nor the
    last character of the name. *)
Definition suffix_start (n : string) : option nat :=
  match rfind "."%char n with
  | Some i => if (0 <? i)%nat && (i <? String.length n - 1)%nat then Some i else None
  | None => None
  end.

(** [Path(p).suffix] *)
Definition suffix (p : string) : string :=
  let n := name p in
  match suffix_start n with
  | Some i => String.substring i (String.length n - i) n
  | None => EmptyString
  end.

(** [Path(p).stem] *)
Definition stem (p : string) : string :=
  let n := name p in
  match suffix_start n with
  | Some i => String.substring 0 i n
  | None => n
  end.

(** [str(Path(dir) / file)] *)
Definition join (dir file : string) : string :=
  if String.eqb dir "." || String.eqb dir "" then file
  else (dir ++ "/" ++ file)%string.

End PyPath.

(** ** Record Store: [pythonThemeTools/file_manager.py] *)

Module FileManager.

Record t : Set := Build { backup_dir : string }.

(** The dict returned by [validate_json_structure]; the key [valid_entries]
    is absent when no data was loaded. *)
Record structure_report : Set := StructureReport {
  valid : bool;
  entries : nat;
  valid_entries : option nat;
  errors : list string
}.

(** The dict [merge_official_updates] returns when nothing raises. The lists
    [added_repos], [removed_repos] and [orphaned_addon_entries] are a
    [list(set)], whose order the language leaves open: they are given as the
    sets. *)
Record merge_report : Type := MergeReport {
  new_themes_count : nat;
  current_themes_count : nat;
  addon_entries_count : nat;
  themes_added : nat;
  themes_removed : nat;
  added_repos : gset Py.key;
  removed_repos : gset Py.key;
  orphaned_addon_entries : gset Py.key;
  backup_created : bool
}.

(** What [merge_official_updates] returns: the report, or [{"error": str(e)}]. *)
Inductive merge_outcome : Type :=
| Merged (report : merge_report)
| MergeError (error : string).

(** [{theme.get("repo") for theme in data}] over the items of [data]: only a
    dict has [get], and the value must be hashable. *)
Fixpoint repos_of (data : list json) (repos : gset Py.key) : result (gset Py.key) :=
  match data with
  | [] => Ok repos
  | JObj theme :: rest =>
      result_bind (Py.hash (Py.get "repo" theme)) (fun k =>
      repos_of rest ({[ k ]} ∪ repos))
  | v :: _ =>
      Raise (Exn AttributeError
               ("'" ++ Py.type_name v ++ "' object has no attribute 'get'"))
  end.

(** The same for whatever [json.load] returned. *)
Definition repo_set (data : json) : result (gset Py.key) :=
  result_bind (Py.iter data) (fun items => repos_of items ∅).

Section WithCodec.
Context {codec : JsonCodec}.

(** [load_json_data(file_path, description)]; [description] only feeds the
    printed messages. Both [except] clauses return the empty list. *)
Definition load_json_data (self : t) (file_path : string) : M (list json) :=
  try_except
    (present <- path_exists file_path ;;
     if negb present then ret []
     else
       data <- read_json file_path ;;
       match data with
       | JArr l => ret l
       | _ => ret []
       end)
    (fun _ => ret []).

(** The name of the backup of [file_path] taken at [timestamp]. *)
Definition backup_path (self : t) (timestamp file_path : string) : string :=
  PyPath.join (backup_dir self)
    (PyPath.stem file_path ++ "_" ++ timestamp ++ PyPath.suffix file_path)%string.

(** The body of the [for file_path in file_paths] loop of
    [backup_json_files]. *)
Fixpoint backup_each (self : t) (timestamp : string) (file_paths : list string)
    (results : gmap string bool) : M (gmap string bool) :=
  match file_paths with
  | [] => ret results
  | file_path :: rest =>
      present <- path_exists file_path ;;
      if negb present then
        backup_each self timestamp rest (<[ file_path := false ]> results)
      else
        copied <- try_except
                    (copy2 file_path (backup_path self timestamp file_path) ;;;
                     ret true)
                    (fun _ => ret false) ;;
        backup_each self timestamp rest (<[ file_path := copied ]> results)
  end.

(** [backup_json_files(file_paths, backup_suffix)] *)
Definition backup_json_files (self : t) (file_paths : list string)
    (backup_suffix : option string) : M (gmap string bool) :=
  d <- datetime_now ;;
  let timestamp := strftime_compact d in
  let timestamp :=
    match backup_suffix with
    | Some sfx => if String.eqb sfx "" then timestamp
                  else (timestamp ++ "_" ++ sfx)%string
    | None => timestamp
    end in
  backup_each self timestamp file_paths ∅.

(** [save_json_data(file_path, data, description, create_backup)] *)
Definition save_json_data (self : t) (file_path : string) (data : list json)
    (create_backup : bool) : M bool :=
  try_except
    (present <- path_exists file_path ;;
     (if create_backup && present then
        backup_json_files self [file_path] (Some "pre_save") ;;; ret tt
      else ret tt) ;;;
     write_json file_path (JArr data) ;;;
     ret true)
    (fun _ => ret false).

(** [load_json_dict(file_path, description)]: as [load_json_data], for a file
    that holds a JSON object. *)
Definition load_json_dict (self : t) (file_path : string) : M record :=
  try_except
    (present <- path_exists file_path ;;
     if negb present then ret []
     else
       data <- read_json file_path ;;
       match data with
       | JObj m => ret m
       | _ => ret []
       end)
    (fun _ => ret []).

(** The loop of [validate_json_structure] over [enumerate(data)], from the
    entry of index [i] on. *)
Fixpoint check_entries (expected_keys : list string) (i : nat) (data : list json)
    (results : structure_report) : structure_report :=
  match data with
  | [] => results
  | entry :: rest =>
      let position := PyStr.of_Z (Z.of_nat (i + 1)) in
      check_entries expected_keys (S i) rest
        match entry with
        | JObj entry =>
            let missing_keys :=
              List.filter (fun key => negb (Py.dict_has key entry)) expected_keys in
            match missing_keys with
            | [] =>
                {| valid := valid results;
                   entries := entries results;
                   valid_entries := option_map S (valid_entries results);
                   errors := errors results |}
            | _ =>
                let repo := Py.get_or "repo" (JStr ("entry " ++ position)%string) entry in
                {| valid := false;
                   entries := entries results;
                   valid_entries := valid_entries results;
                   errors := (errors results
                              ++ [(Py.str repo ++ ": Missing keys: "
                                   ++ Py.repr (JArr (List.map JStr missing_keys)))%string])%list |}
            end
        | _ =>
            {| valid := false;
               entries := entries results;
               valid_entries := valid_entries results;
               errors := (errors results
                          ++ [("Entry " ++ position ++ ": Not a dictionary")%string])%list |}
        end
  end.

(** [validate_json_structure(file_path, expected_keys, description)] *)
Definition validate_json_structure (self : t) (file_path : string)
    (expected_keys : list string) (description : string) : M structure_report :=
  data <- load_json_data self file_path ;;
  match data with
  | [] =>
      ret {| valid := false; entries := 0; valid_entries := None;
             errors := [("No data loaded from " ++ description)%string] |}
  | _ =>
      ret (check_entries expected_keys 0 data
             {| valid := true; entries := length data; valid_entries := Some 0%nat;
                errors := [] |})
  end.

Section Restore.
(** [max(self.backup_dir.glob(pattern), key=lambda p: p.stat().st_mtime)]: the
    newest file of the backup directory whose name matches the pattern, [None]
    when no file matches. The listing of the directory and the modification
    times are the operating system's. *)
Variable latest_backup : t -> string -> M (option string).

(** [restore_from_backup(original_path, backup_filename)]: [found] is the
    backup to copy, [None] where the code returns [False] before the copy. *)
Definition restore_from_backup (self : t) (original_path : string)
    (backup_filename : option string) : M bool :=
  try_except
    (found <-
       match backup_filename with
       | Some filename =>
           if String.eqb filename "" then
             latest_backup self
               (PyPath.stem original_path ++ "_*" ++ PyPath.suffix original_path)%string
           else
             let backup_path := PyPath.join (backup_dir self) filename in
             present <- path_exists backup_path ;;
             ret (if present then Some backup_path else None)
       | None =>
           latest_backup self
             (PyPath.stem original_path ++ "_*" ++ PyPath.suffix original_path)%string
       end ;;
     match found with
     | None => ret false
     | Some backup_path => copy2 backup_path original_path ;;; ret true
     end)
    (fun _ => ret false).

End Restore.

(** [merge_official_updates(new_official_path, current_official_path,
    addon_path)]: the three files are read with [json.load] as they are, the
    two stores are backed up, and the new official file is copied over the
    current one. *)
Definition merge_official_updates (self : t)
    (new_official_path current_official_path addon_path : string)
  : M merge_outcome :=
  try_except
    (new_official <- read_json new_official_path ;;
     present <- path_exists current_official_path ;;
     current_official <- (if present then read_json current_official_path
                          else ret (JArr [])) ;;
     present <- path_exists addon_path ;;
     addon_data <- (if present then read_json addon_path else ret (JArr [])) ;;
     current_repos <- lift (repo_set current_official) ;;
     new_repos <- lift (repo_set new_official) ;;
     addon_repos <- lift (repo_set addon_data) ;;
     let added := new_repos ∖ current_repos in
     let removed := current_repos ∖ new_repos in
     new_len <- lift (Py.len new_official) ;;
     current_len <- lift (Py.len current_official) ;;
     addon_len <- lift (Py.len addon_data) ;;
     backup_results <- backup_json_files self [current_official_path; addon_path]
                         (Some "pre_merge") ;;
     copy2 new_official_path current_official_path ;;;
     ret (Merged
            {| new_themes_count := new_len;
               current_themes_count := current_len;
               addon_entries_count := addon_len;
               themes_added := size added;
               themes_removed := size removed;
               added_repos := added;
               removed_repos := removed;
               orphaned_addon_entries := addon_repos ∖ new_repos;
               backup_created :=
                 forallb (fun kv => snd kv) (map_to_list backup_results) |}))
    (fun e => ret (MergeError (exn_msg e))).

End WithCodec.

End FileManager.

(** ** Entry Builder and Batch Session: [batch_processor.py] *)

(** [open_github_repo(repo)] of [pythonThemeTools/github_utils.py]: it opens a
    browser and its answer is ignored by the callers; only a truthy value that
    is not a string makes it raise, at [repo.strip()]. *)
Definition open_github_repo (repo : json) : result unit :=
  if negb (Py.truthy repo) then Ok tt
  else match repo with
       | JStr _ => Ok tt
       | _ => Raise (Exn AttributeError
                       ("'" ++ Py.type_name repo ++ "' object has no attribute 'strip'"))
       end.

(** The tally a session returns. *)
Record results : Type := Results {
  processed : nat;
  skipped : nat;
  errors : nat;
  created_entries : list record;
  error_details : list string
}.

Module BatchProcessor.

Record t : Type := Build {
  file_manager : FileManager.t;
  official_path : string;
  addon_path : string;
  synchronizer : DataSynchronizer.t;
  tag_macros : gmap string string
}.

(** The default table of [_load_tag_macros]. *)
Definition default_macros : gmap string string :=
  list_to_map
    [("m", "minimalistic"); ("d", "dark"); ("l", "light");
     ("p", "productivity"); ("g", "gaming"); ("c", "colorful");
     ("s", "simple"); ("md", "modern"); ("ret", "retro")].

(** Tags derived from [modes]: [dark], [light] and, with both,
    [dark_and_light]. *)
Definition mode_tags (modes : json) : result (list string) :=
  result_bind (Py.contains "dark" modes) (fun has_dark =>
  result_bind (Py.contains "light" modes) (fun has_light =>
  Ok ((if has_dark then ["dark"] else []) ++
      (if has_light then ["light"] else []) ++
      (if has_dark && has_light then ["dark_and_light"] else []))%list)).

(** The loop over [tags_input.split(",")]: strip each part, drop the empty
    ones, expand the others through the macro table. *)
Definition expand_tags (macros : gmap string string) (tags_input : string)
  : list string :=
  if String.eqb tags_input "" then []
  else
    flat_map
      (fun part =>
         let stripped := PyStr.strip part in
         if String.eqb stripped "" then []
         else [default stripped (macros !! stripped)])
      (PyStr.split ","%char tags_input).

(** From the operator's tags and the mode tags to the stored tags:
    [minimalistic] joins the defaults unless [notm] was typed, one [notm] is
    removed, and the union is sorted. *)
Definition final_tags (tags default_tags : list string) : result (list string) :=
  let default_tags :=
    if negb (PyStr.mem "notm" tags) then (default_tags ++ ["minimalistic"])%list
    else default_tags in
  result_bind
    (if PyStr.mem "notm" tags then
       match PyStr.remove_first "notm" tags with
       | Some tags' => Ok tags'
       | None => Raise (Exn ValueError "list.remove(x): x not in list")
       end
     else Ok tags)
    (fun tags => Ok (PyStr.sorted_set (tags ++ default_tags)%list)).

(** The [while True] loop that reads the side screenshots from the lines the
    operator types: [None] on [exit], the list at the first empty line. *)
Fixpoint read_side_screenshots (lines : list string) (acc : list string)
  : result (option (list string)) * list string :=
  match lines with
  | [] => (Raise (Exn EOFError "EOF when reading a line"), [])
  | line :: rest =>
      let url := PyStr.strip line in
      if String.eqb (PyStr.lower url) "exit" then (Ok None, rest)
      else if String.eqb url "" then (Ok (Some acc), rest)
      else read_side_screenshots rest (acc ++ [url])%list
  end.

Definition addon_entry_of (repo screenshot_main : json)
    (screenshots_side tags : list string) : record :=
  [("repo", repo);
   ("screenshot-main", screenshot_main);
   ("screenshots-side", JArr (List.map JStr screenshots_side));
   ("tags", JArr (List.map JStr tags))].

(** [s.split(sep, 1)] on a string that holds [sep]: the text before the first
    [sep] and the text after it. *)
Fixpoint split_first (sep : ascii) (s : string) : string * string :=
  match s with
  | EmptyString => (EmptyString, EmptyString)
  | String c s' =>
      if Ascii.eqb c sep then (EmptyString, s')
      else let '(before, after) := split_first sep s' in (String c before, after)
  end.

(** [l[i]]: negative indices count from the end; [None] stands for
    [IndexError]. *)
Definition list_index {A} (l : list A) (i : Z) : option A :=
  if (0 <=? i)%Z then l !! Z.to_nat i
  else if (- Z.of_nat (length l) <=? i)%Z then l !! Z.to_nat (Z.of_nat (length l) + i)
  else None.

(** [[l[i] for i in indices]] *)
Fixpoint index_all {A} (l : list A) (indices : list Z) : option (list A) :=
  match indices with
  | [] => Some []
  | i :: rest =>
      match list_index l i, index_all l rest with
      | Some x, Some xs => Some (x :: xs)
      | _, _ => None
      end
  end.

Section RangeSelection.
(** [int(s)] of Python on a string: the integer the text denotes, [None]
    where it raises [ValueError]. *)
Variable int : string -> option Z.

(** The body of the loop of [_parse_range_selection] over the parts of the
    input, [n] being [len(all_entries)]; [None] stands for [ValueError]. *)
Definition select_part (n : Z) (part : string) (selected_indices : gset Z)
  : option (gset Z) :=
  let part := PyStr.strip part in
  if PyStr.contains "-" part then
    let '(start_str, end_str) := split_first "-" part in
    match int (PyStr.strip start_str), int (PyStr.strip end_str) with
    | Some start, Some end_ =>
        let start := (start - 1)%Z in
        let end_ := (end_ - 1)%Z in
        let start := if (start <? 0)%Z then 0%Z else start in
        let end_ := if (end_ >=? n)%Z then (n - 1)%Z else end_ in
        Some (selected_indices ∪ list_to_set (seqZ start (end_ + 1 - start)))
    | _, _ => None
    end
  else
    match int part with
    | Some index =>
        let index := (index - 1)%Z in
        Some (if (0 <=? index)%Z && (index <? n)%Z
              then {[ index ]} ∪ selected_indices else selected_indices)
    | None => None
    end.

Fixpoint select_parts (n : Z) (parts : list string) (selected_indices : gset Z)
  : option (gset Z) :=
  match parts with
  | [] => Some selected_indices
  | part :: rest =>
      match select_part n part selected_indices with
      | Some selected_indices => select_parts n rest selected_indices
      | None => None
      end
  end.

(** [_parse_range_selection(range_input, all_entries)]; both [ValueError] and
    [IndexError] give the empty list. *)
Definition _parse_range_selection (range_input : string) (all_entries : list record)
  : list record :=
  if String.eqb range_input "" || String.eqb (PyStr.lower range_input) "all" then
    all_entries
  else
    match select_parts (Z.of_nat (length all_entries))
                       (PyStr.split "," range_input) ∅ with
    | Some selected_indices =>
        match index_all all_entries (merge_sort Z.le (elements selected_indices)) with
        | Some selected => selected
        | None => []
        end
    | None => []
    end.

End RangeSelection.

(** The macro table a decoded JSON object gives, the annotation
    [Dict[str, str]] taken at its word: its string-valued members. *)
Definition macros_of (m : record) : gmap string string :=
  list_to_map
    (omap (fun kv => match snd kv with
                     | JStr expansion => Some (fst kv, expansion)
                     | _ => None
                     end) m).

Section WithCodec.
Context {codec : JsonCodec}.

(** [_load_tag_macros(macros_path)], called by [__init__] once the file
    manager is set. The macros are read with [load_json_data], and
    [isinstance(macros_data, dict)] is asked of what it returns. *)
Definition _load_tag_macros (file_manager : FileManager.t)
    (macros_path : option string) : M (gmap string string) :=
  match macros_path with
  | None => ret default_macros
  | Some macros_path =>
      if String.eqb macros_path "" then ret default_macros
      else
        present <- path_exists macros_path ;;
        if negb present then ret default_macros
        else
          try_except
            (macros_data <- FileManager.load_json_data file_manager macros_path ;;
             match JArr macros_data with
             | JObj m => ret (macros_of m)
             | _ => ret default_macros
             end)
            (fun _ => ret default_macros)
  end.

Definition load_addon_data (self : t) : M (list json) :=
  FileManager.load_json_data (file_manager self) (addon_path self).

Definition load_official_data (self : t) : M (list json) :=
  FileManager.load_json_data (file_manager self) (official_path self).

Definition save_addon_data (self : t) (data : list json) : M bool :=
  FileManager.save_json_data (file_manager self) (addon_path self) data true.

Definition input_side_screenshots : M (option (list string)) :=
  fun w =>
    let '(r, rest) := read_side_screenshots (stdin w) [] in
    (r, {| fs := fs w; stdin := rest; tick := tick w; env := env w |}).

(** The prompts of [interactive_entry_builder] up to the preview. The copy in
    [batch_processor.py] also takes [skip] at the tags prompt
    ([accept_skip]); the copy in [debloated_batch_processor.py] does not. *)
Definition prompt_entry (accept_skip : bool) (self : t) (official_entry : record)
  : M (option record) :=
  let repo := Py.get "repo" official_entry in
  let official_screenshot := Py.get_or "screenshot" (JStr "") official_entry in
  let modes := Py.get_or "modes" (JArr []) official_entry in
  default_tags <- lift (mode_tags modes) ;;
  lift (open_github_repo repo) ;;;
  line <- input ;;
  let tags_input := PyStr.strip line in
  if String.eqb (PyStr.lower tags_input) "exit" then ret None
  else if accept_skip && String.eqb (PyStr.lower tags_input) "skip" then ret None
  else
    let tags := expand_tags (tag_macros self) tags_input in
    tags <- lift (final_tags tags default_tags) ;;
    line <- input ;;
    let main_screenshot := PyStr.strip line in
    if String.eqb (PyStr.lower main_screenshot) "exit" then ret None
    else
      let screenshot_main :=
        if String.eqb main_screenshot "" then official_screenshot
        else JStr main_screenshot in
      side <- input_side_screenshots ;;
      match side with
      | None => ret None
      | Some screenshots_side =>
          ret (Some (addon_entry_of repo screenshot_main screenshots_side tags))
      end.

(** [interactive_entry_builder(official_entry)]: the entry is returned when
    the operator confirms with [y]. *)
Definition interactive_entry_builder (self : t) (official_entry : record)
  : M (option record) :=
  entry <- prompt_entry true self official_entry ;;
  match entry with
  | None => ret None
  | Some addon_entry =>
      line <- input ;;
      let confirm := PyStr.lower (PyStr.strip line) in
      if String.eqb confirm "y" then ret (Some addon_entry) else ret None
  end.

Definition error_message (official_entry : record) (e : exn) : string :=
  ("Error processing " ++ Py.str (Py.get_or "repo" (JStr "unknown") official_entry)
   ++ ": " ++ exn_msg e)%string.

(** One turn of the [for] loop of a session, around a given builder: the
    [try] block and its [except Exception] clause. *)
Definition process_entry (builder : record -> M (option record))
    (official_entry : record) (st : results * list json)
  : M (results * list json) :=
  let '(res, addon_data) := st in
  try_except
    (addon_entry <- builder official_entry ;;
     match addon_entry with
     | Some entry =>
         if Py.truthy (JObj entry) then
           ret ({| processed := S (processed res);
                   skipped := skipped res;
                   errors := errors res;
                   created_entries := (created_entries res ++ [entry])%list;
                   error_details := error_details res |},
                (addon_data ++ [JObj entry])%list)
         else
           ret ({| processed := processed res;
                   skipped := S (skipped res);
                   errors := errors res;
                   created_entries := created_entries res;
                   error_details := error_details res |}, addon_data)
     | None =>
         ret ({| processed := processed res;
                 skipped := S (skipped res);
                 errors := errors res;
                 created_entries := created_entries res;
                 error_details := error_details res |}, addon_data)
     end)
    (fun e =>
       ret ({| processed := processed res;
               skipped := skipped res;
               errors := S (errors res);
               created_entries := created_entries res;
               error_details :=
                 (error_details res ++ [error_message official_entry e])%list |},
            addon_data)).

Fixpoint process_entries (builder : record -> M (option record))
    (missing_entries : list record) (st : results * list json)
  : M (results * list json) :=
  match missing_entries with
  | [] => ret st
  | official_entry :: rest =>
      st' <- process_entry builder official_entry st ;;
      process_entries builder rest st'
  end.

Definition no_results : results :=
  {| processed := 0; skipped := 0; errors := 0;
     created_entries := []; error_details := [] |}.

(** The session around a given builder: find the missing entries, run the
    loop, then save once if anything was processed. *)
Definition run_session (builder : record -> M (option record)) (self : t)
  : M results :=
  match DataSynchronizer.find_missing_addon_entries (synchronizer self) with
  | Raise e =>
      ret {| processed := 0; skipped := 0; errors := 1;
             created_entries := []; error_details := [exn_msg e] |}
  | Ok [] => ret no_results
  | Ok missing_entries =>
      addon_data <- load_addon_data self ;;
      st <- process_entries builder missing_entries (no_results, addon_data) ;;
      let '(res, addon_data) := st in
      if (0 <? processed res)%nat then
        saved <- save_addon_data self addon_data ;;
        if saved then ret res
        else ret {| processed := processed res;
                    skipped := skipped res;
                    errors := S (errors res);
                    created_entries := created_entries res;
                    error_details := error_details res |}
      else ret res
  end.

(** [process_missing_entries_interactive()] *)
Definition process_missing_entries_interactive (self : t) : M results :=
  run_session (interactive_entry_builder self) self.

End WithCodec.

End BatchProcessor.

(** ** The streamlined processor: [debloated_batch_processor.py] *)

(** What [_menu_synchronization_status] prints, up to the percentage line. *)
Inductive sync_status : Type :=
| NoOfficialData
| SyncSummary (official_themes addon_entries missing_in_addon extra_in_addon : nat)
              (sync_percentage : option Q)
| SyncError (msg : string).

Module Debloated.

(** [{entry.get("repo") for entry in data if entry.get("repo")}] *)
Fixpoint truthy_repos (data : list json) : result (gset Py.key) :=
  match data with
  | [] => Ok ∅
  | JObj entry :: rest =>
      let repo := Py.get "repo" entry in
      if Py.truthy repo then
        result_bind (Py.hash repo) (fun k =>
        result_bind (truthy_repos rest) (fun repos => Ok ({[ k ]} ∪ repos)))
      else truthy_repos rest
  | entry :: _ =>
      Raise (Exn AttributeError
               ("'" ++ Py.type_name entry ++ "' object has no attribute 'get'"))
  end.

(** The summary computed from the two loaded lists. *)
Definition sync_summary (official_data addon_data : list json) : result sync_status :=
  match official_data with
  | [] => Ok NoOfficialData
  | _ =>
      result_bind (truthy_repos official_data) (fun official_repos =>
      result_bind (truthy_repos addon_data) (fun addon_repos =>
      let missing_in_addon := official_repos ∖ addon_repos in
      let extra_in_addon := addon_repos ∖ official_repos in
      Ok (SyncSummary (size official_repos) (size addon_repos)
            (size missing_in_addon) (size extra_in_addon)
            (if (0 <? size official_repos)%nat
             then Some (DataSynchronizer.percent (size addon_repos) (size official_repos))
             else None))))
  end.

Section WithCodec.
Context {codec : JsonCodec}.

(** [_menu_synchronization_status()] *)
Definition _menu_synchronization_status (self : BatchProcessor.t) : M sync_status :=
  try_except
    (official_data <- BatchProcessor.load_official_data self ;;
     addon_data <- BatchProcessor.load_addon_data self ;;
     lift (sync_summary official_data addon_data))
    (fun e => ret (SyncError (exn_msg e))).

(** [interactive_entry_builder(official_entry)]: no confirmation; the entry is
    appended to the store read from disk and the store is saved at once. *)
Definition interactive_entry_builder (self : BatchProcessor.t)
    (official_entry : record) : M (option record) :=
  entry <- BatchProcessor.prompt_entry false self official_entry ;;
  match entry with
  | None => ret None
  | Some addon_entry =>
      addon_data <- BatchProcessor.load_addon_data self ;;
      saved <- BatchProcessor.save_addon_data self
                 (addon_data ++ [JObj addon_entry])%list ;;
      if saved then ret (Some addon_entry) else ret None
  end.

(** [process_missing_entries_interactive()] *)
Definition process_missing_entries_interactive (self : BatchProcessor.t) : M results :=
  BatchProcessor.run_session (interactive_entry_builder self) self.

End WithCodec.

End Debloated.

(** ** Automatic Entry Builder: the two [_create_minimal_addon_entry] *)

(** [Old/integrated_batch_processor_complete.py] *)
Module IntegratedComplete.

Definition _create_minimal_addon_entry (official_entry : record) : result record :=
  let modes := Py.get_or "modes" (JArr []) official_entry in
  let modes := if Py.truthy modes then modes else JArr [] in
  result_bind (Py.contains "dark" modes) (fun has_dark =>
  result_bind (Py.contains "light" modes) (fun has_light =>
  let auto_tags :=
    (["minimalistic"] ++
     (if has_dark then ["dark"] else []) ++
     (if has_light then ["light"] else []) ++
     (if has_dark && has_light then ["dark_and_light"] else []))%list in
  Ok [("repo", Py.get "repo" official_entry);
      ("screenshot-main", Py.get_or "screenshot" (JStr "") official_entry);
      ("screenshots-side", JArr []);
      ("tags", JArr (List.map JStr (PyStr.sorted auto_tags)))])).

End IntegratedComplete.

(** [Old/batch_processor (2).py] *)
Module OldBatchProcessor2.

Definition _create_minimal_addon_entry (official_entry : record) : result record :=
  let modes := Py.get_or "modes" (JArr []) official_entry in
  let modes := if Py.truthy modes then modes else JArr [] in
  result_bind (Py.contains "dark" modes) (fun has_dark =>
  result_bind (Py.contains "light" modes) (fun has_light =>
  let auto_tags :=
    ((if has_dark then ["dark"] else []) ++
     (if has_light then ["light"] else []) ++
     (if has_dark && has_light then ["dark_and_light"] else []))%list in
  Ok [("repo", Py.get "repo" official_entry);
      ("screenshot-main", Py.get_or "screenshot" (JStr "") official_entry);
      ("screenshots-side", JArr []);
      ("tags", JArr (List.map JStr auto_tags))])).

End OldBatchProcessor2.

(** ** Regular expressions of the form [^[class]+$] *)

Module PyRe.

Definition LF : ascii := ascii_of_nat 10.

(** [s] without its last character when that is a newline. *)
Fixpoint chop_newline (s : string) : string :=
  match s with
  | EmptyString => EmptyString
  | String c EmptyString => if Ascii.eqb c LF then EmptyString else s
  | String c s' => String c (chop_newline s')
  end.

Fixpoint all_in (class : ascii -> bool) (s : string) : bool :=
  match s with
  | EmptyString => true
  | String c s' => class c && all_in class s'
  end.

(** [bool(re.match(r'^[class]+$', s))]: one character of the class or more,
    up to the end of [s], where [$] also matches just before a newline that
    ends the string. *)
Definition match_plus (class : ascii -> bool) (s : string) : bool :=
  let body := chop_newline s in
  negb (String.eqb body "") && all_in class body.

(** What is left of a match of [[class]*sep[class]+$], for a class that does
    not hold [sep]. *)
Fixpoint match_star_sep_plus (class : ascii -> bool) (sep : ascii) (s : string)
  : bool :=
  match s with
  | EmptyString => false
  | String c s' =>
      if Ascii.eqb c sep then match_plus class s'
      else class c && match_star_sep_plus class sep s'
  end.

(** [bool(re.match(r'^[class]+sep[class]+$', s))], for a class that does not
    hold [sep]. *)
Definition match_plus_sep_plus (class : ascii -> bool) (sep : ascii) (s : string)
  : bool :=
  match s with
  | EmptyString => false
  | String c s' => class c && match_star_sep_plus class sep s'
  end.

Definition in_range (lo hi : nat) (c : ascii) : bool :=
  let n := nat_of_ascii c in (lo <=? n)%nat && (n <=? hi)%nat.


(** [[a-zA-Z0-9._-]] *)
Definition repo_char (c : ascii) : bool :=
  in_range 97 122 c || in_range 65 90 c || in_range 48 57 c
  || Ascii.eqb c "." || Ascii.eqb c "_" || Ascii.eqb c "-".

End PyRe.

(** ** GitHub helpers: [pythonThemeTools/github_utils.py] *)

Module GithubUtils.

(** [validate_repo_format(repo)] *)
Definition validate_repo_format (repo : json) : bool :=
  match repo with
  | JStr repo =>
      if String.eqb repo "" then false
      else
        match PyStr.split "/" (PyStr.strip repo) with
        | [owner; repo_name] =>
            if String.eqb owner "" || String.eqb repo_name "" then false
            else PyRe.match_plus PyRe.repo_char owner
                 && PyRe.match_plus PyRe.repo_char repo_name
        | _ => false
        end
  | _ => false
  end.

(** The stand-in that [batch_processor.py] defines when the module cannot be
    imported: [return "/" in repo]. *)
Definition validate_repo_format_fallback (repo : string) : bool :=
  PyStr.contains "/" repo.

End GithubUtils.

(** ** Validator: [Old/batch_processor/core/validator.py] *)

Module Validator.

Inductive severity : Set := error | warning | info.

(** [ValidationResult(field, is_valid, message, severity="error")] *)
Record ValidationResult : Set := Build {
  field : string;
  is_valid : bool;
  message : string;
  severity_of : severity
}.

(** What [session.head(url, timeout=..., allow_redirects=True)] does: it
    answers with a status code, or raises [requests.exceptions.Timeout],
    [requests.exceptions.ConnectionError] or another exception. *)
Inductive probe : Set :=
| Response (status_code : Z)
| Timeout
| ConnectionError
| OtherException (msg : string).

(** The second [try] block of [validate_url] and its [except] clauses. *)
Definition check_accessible (p : probe) : ValidationResult :=
  match p with
  | Response status_code =>
      if (status_code =? 200)%Z then Build "url" true "URL is accessible" error
      else if (status_code =? 404)%Z then Build "url" false "URL not found (404)" error
      else if (status_code =? 403)%Z then
        Build "url" false "Access forbidden (403)" warning
      else Build "url" false ("HTTP " ++ PyStr.of_Z status_code) warning
  | Timeout => Build "url" false "URL request timed out" warning
  | ConnectionError => Build "url" false "Connection error" warning
  | OtherException msg => Build "url" false ("Network error: " ++ msg) warning
  end.

Section Network.
(** [urllib.parse.urlparse]: the scheme and the network location of a URL, or
    the exception it raises; and the network, which answers each probe. *)
Variable urlparse : string -> result (string * string).
Variable head : string -> probe.

(** [validate_url(url, timeout)] *)
Definition validate_url (url : string) : ValidationResult :=
  if String.eqb url "" || String.eqb (PyStr.strip url) "" then
    Build "url" false "URL is empty" error
  else
    let url := PyStr.strip url in
    match urlparse url with
    | Raise _ => Build "url" false "Invalid URL format" error
    | Ok (scheme, netloc) =>
        if String.eqb scheme "" || String.eqb netloc "" then
          Build "url" false "Invalid URL format" error
        else check_accessible (head url)
    end.

End Network.

(** The configuration dict of the validator. *)
Record config : Set := Config {
  url_timeout : Z;
  github_timeout : Z;
  max_concurrent_validations : Z;
  required_fields : list string;
  optional_fields : list string;
  max_side_screenshots : Z;
  min_tag_count : Z;
  max_tag_count : Z
}.

Definition _get_default_config : config :=
  {| url_timeout := 10;
     github_timeout := 15;
     max_concurrent_validations := 5;
     required_fields := ["repo"; "tags"; "screenshot-main"];
     optional_fields := ["screenshots-side"; "notes"];
     max_side_screenshots := 10;
     min_tag_count := 1;
     max_tag_count := 10 |}.

(** [not s.strip()] *)
Definition blank (s : string) : bool := String.eqb (PyStr.strip s) "".

Section GitHub.
(** The GitHub API: what [session.get(api_url, timeout=...)] does, and what
    [response.json()] makes of the body of its answer. *)
Variable get : string -> Z -> probe.
Variable response_json : string -> result json.

(** [validate_github_repo(repo)] *)
Definition validate_github_repo (self : config) (repo : string) : ValidationResult :=
  if String.eqb repo "" || blank repo then
    Build "github_repo" false "Repository field is empty" error
  else
    let repo := PyStr.strip repo in
    if negb (PyRe.match_plus_sep_plus PyRe.repo_char "/" repo) then
      Build "github_repo" false "Invalid repository format (should be 'user/repo')" error
    else
      let api_url := ("https://api.github.com/repos/" ++ repo)%string in
      match get api_url (github_timeout self) with
      | Response status_code =>
          if (status_code =? 200)%Z then
            match response_json api_url with
            | Ok (JObj repo_data) =>
                if Py.truthy (Py.get_or "archived" (JBool false) repo_data) then
                  Build "github_repo" true "Repository exists but is archived" warning
                else Build "github_repo" true "Repository exists and is accessible" error
            | Ok repo_data =>
                Build "github_repo" false
                  ("GitHub validation error: '" ++ Py.type_name repo_data
                   ++ "' object has no attribute 'get'") warning
            | Raise e =>
                Build "github_repo" false ("GitHub validation error: " ++ exn_msg e) warning
            end
          else if (status_code =? 404)%Z then
            Build "github_repo" false "Repository not found" error
          else if (status_code =? 403)%Z then
            Build "github_repo" false "GitHub API access limited" warning
          else
            Build "github_repo" false ("GitHub API error: " ++ PyStr.of_Z status_code) warning
      | Timeout => Build "github_repo" false "GitHub API request timed out" warning
      | ConnectionError => Build "github_repo" false "Connection to GitHub failed" warning
      | OtherException msg =>
          Build "github_repo" false ("GitHub validation error: " ++ msg) warning
      end.

End GitHub.









Section Tags.
(** The elements of [set(tags)] in the order in which Python iterates the
    set, which the language does not fix. *)
Variable set_iteration : list json -> list json.


End Tags.

(** The dict returned by [get_validation_summary]; [common_issues] in the
    order in which its keys were first set. *)
Record summary : Set := Summary {
  total_themes : nat;
  error_count : nat;
  warning_count : nat;
  themes_with_errors : list string;
  themes_with_warnings : list string;
  common_issues : list (string * nat)
}.

(** [d[key] = d.get(key, 0) + 1] *)
Fixpoint bump (key : string) (d : list (string * nat)) : list (string * nat) :=
  match d with
  | [] => [(key, 1%nat)]
  | (k, n) :: d' =>
      if String.eqb k key then (k, S n) :: d' else (k, n) :: bump key d'
  end.

(** The loop of [get_validation_summary] over the results of one theme: the
    summary and the flags [has_errors] and [has_warnings]. *)
Fixpoint tally_results (results : list ValidationResult)
    (acc : summary * bool * bool) : summary * bool * bool :=
  match results with
  | [] => acc
  | result :: rest =>
      let '(s, has_errors, has_warnings) := acc in
      tally_results rest
        (if is_valid result then acc
         else
           let issue_key := (field result ++ ":" ++ message result)%string in
           match severity_of result with
           | error =>
               ({| total_themes := total_themes s;
                   error_count := S (error_count s);
                   warning_count := warning_count s;
                   themes_with_errors := themes_with_errors s;
                   themes_with_warnings := themes_with_warnings s;
                   common_issues := bump issue_key (common_issues s) |},
                true, has_warnings)
           | warning =>
               ({| total_themes := total_themes s;
                   error_count := error_count s;
                   warning_count := S (warning_count s);
                   themes_with_errors := themes_with_errors s;
                   themes_with_warnings := themes_with_warnings s;
                   common_issues := bump issue_key (common_issues s) |},
                has_errors, true)
           | info =>
               ({| total_themes := total_themes s;
                   error_count := error_count s;
                   warning_count := warning_count s;
                   themes_with_errors := themes_with_errors s;
                   themes_with_warnings := themes_with_warnings s;
                   common_issues := bump issue_key (common_issues s) |},
                has_errors, has_warnings)
           end)
  end.

(** The loop over [validation_results.items()]. *)
Fixpoint tally_themes (validation_results : list (string * list ValidationResult))
    (s : summary) : summary :=
  match validation_results with
  | [] => s
  | (repo, results) :: rest =>
      let '(s, has_errors, has_warnings) := tally_results results (s, false, false) in
      tally_themes rest
        {| total_themes := total_themes s;
           error_count := error_count s;
           warning_count := warning_count s;
           themes_with_errors :=
             if has_errors then (themes_with_errors s ++ [repo])%list
             else themes_with_errors s;
           themes_with_warnings :=
             if has_warnings then (themes_with_warnings s ++ [repo])%list
             else themes_with_warnings s;
           common_issues := common_issues s |}
  end.

(** [get_validation_summary(validation_results)], the dict given as the list
    of its items. *)
Definition get_validation_summary
    (validation_results : list (string * list ValidationResult)) : summary :=
  tally_themes validation_results
    {| total_themes := length validation_results;
       error_count := 0; warning_count := 0;
       themes_with_errors := []; themes_with_warnings := [];
       common_issues := [] |}.

End Validator.

(** ** The JSON text of the Python library

    [JsonText.dumps] prints a value as [json.dump(..., indent=2,
    ensure_ascii=False)] lays it out, and [JsonText.loads] reads a text as
    [json.load] does, for the values of [json]: numbers are integers, so a
    text with a fraction, an exponent, [NaN] or [Infinity] is not read. *)

Module JsonText.

Definition dquote : ascii := ascii_of_nat 34.
Definition backslash : ascii := ascii_of_nat 92.
Definition LF : ascii := ascii_of_nat 10.

(** A newline and the indentation of nesting level [lvl]. *)
Definition newline_indent (lvl : nat) : string :=
  String LF (String.concat "" (repeat "  " lvl)).

(** The escape of one character: the two-character escapes of the library,
    [\u00XX] for the other control characters, itself otherwise. *)
Definition escape_char (c : ascii) : string :=
  let n := nat_of_ascii c in
  if (n =? 34)%nat then String backslash (String dquote EmptyString)
  else if (n =? 92)%nat then String backslash (String backslash EmptyString)
  else if (n =? 10)%nat then String backslash "n"
  else if (n =? 13)%nat then String backslash "r"
  else if (n =? 9)%nat then String backslash "t"
  else if (n =? 8)%nat then String backslash "b"
  else if (n =? 12)%nat then String backslash "f"
  else if (n <? 32)%nat then
    String backslash
      (String "u" (String "0" (String "0"
         (String (Py.hex_digit (n / 16)) (String (Py.hex_digit (n mod 16)) EmptyString)))))
  else String c EmptyString.

Fixpoint escape (s : string) : string :=
  match s with
  | EmptyString => EmptyString
  | String c s' => (escape_char c ++ escape s')%string
  end.

Definition dump_str (s : string) : string :=
  String dquote (escape s ++ String dquote EmptyString).

(** The text of [v] at nesting level [lvl]. *)
Fixpoint dump (lvl : nat) (v : json) : string :=
  match v with
  | JNull => "null"
  | JBool b => if b then "true" else "false"
  | JNum n => PyStr.of_Z n
  | JStr s => dump_str s
  | JArr [] => "[]"
  | JArr (x :: l) =>
      ("[" ++ newline_indent (S lvl) ++ dump (S lvl) x ++
       (fix items (l : list json) : string :=
          match l with
          | [] => EmptyString
          | y :: l' => "," ++ newline_indent (S lvl) ++ dump (S lvl) y ++ items l'
          end) l ++
       newline_indent lvl ++ "]")%string
  | JObj [] => "{}"
  | JObj ((k, x) :: m) =>
      ("{" ++ newline_indent (S lvl) ++ dump_str k ++ ": " ++ dump (S lvl) x ++
       (fix members (m : list (string * json)) : string :=
          match m with
          | [] => EmptyString
          | (k', y) :: m' =>
              "," ++ newline_indent (S lvl) ++ dump_str k' ++ ": " ++ dump (S lvl) y
              ++ members m'
          end) m ++
       newline_indent lvl ++ "}")%string
  end.

Definition dumps (v : json) : string := dump 0 v.

(** The items of an array after the first, and the members of an object after
    the first, as [dump] lays them out at level [lvl]. *)
Fixpoint dump_items (lvl : nat) (l : list json) : string :=
  match l with
  | [] => EmptyString
  | y :: l' => ("," ++ newline_indent lvl ++ dump lvl y ++ dump_items lvl l')%string
  end.

Fixpoint dump_members (lvl : nat) (m : list (string * json)) : string :=
  match m with
  | [] => EmptyString
  | (k, y) :: m' =>
      ("," ++ newline_indent lvl ++ dump_str k ++ ": " ++ dump lvl y
       ++ dump_members lvl m')%string
  end.

(** The number of [load_value] calls that read a value back. *)
Fixpoint nodes (v : json) : nat :=
  match v with
  | JArr l => S (list_sum (List.map (fun x => S (nodes x)) l))
  | JObj m => S (list_sum (List.map (fun kv => S (nodes (snd kv))) m))
  | _ => 1
  end.

(** Whitespace between tokens: space, TAB, LF, CR. *)
Definition is_ws (c : ascii) : bool :=
  let n := nat_of_ascii c in
  (n =? 32)%nat || (n =? 9)%nat || (n =? 10)%nat || (n =? 13)%nat.

Fixpoint skip_ws (s : string) : string :=
  match s with
  | EmptyString => EmptyString
  | String c s' => if is_ws c then skip_ws s' else s
  end.

Definition is_digit (c : ascii) : bool :=
  let n := nat_of_ascii c in (48 <=? n)%nat && (n <=? 57)%nat.

Fixpoint take_digits (s : string) : string * string :=
  match s with
  | EmptyString => (EmptyString, EmptyString)
  | String c s' =>
      if is_digit c then
        let '(ds, rest) := take_digits s' in (String c ds, rest)
      else (EmptyString, s)
  end.

(** The characters a value can start with. *)
Definition starts_value (c : ascii) : bool :=
  is_digit c || Ascii.eqb c "-" || Ascii.eqb c dquote || Ascii.eqb c "["
  || Ascii.eqb c "{" || Ascii.eqb c "n" || Ascii.eqb c "t" || Ascii.eqb c "f".

Fixpoint all_digits (s : string) : bool :=
  match s with
  | EmptyString => true
  | String c s' => is_digit c && all_digits s'
  end.

(** The text that may follow a value in a dumped text: nothing, a comma or a
    newline. *)
Definition ends_value (s : string) : bool :=
  match s with
  | EmptyString => true
  | String c _ => Ascii.eqb c "," || Ascii.eqb c LF
  end.

(** The text after an integer part starts a fraction or an exponent. *)
Definition starts_float (s : string) : bool :=
  match s with
  | EmptyString => false
  | String c _ => Ascii.eqb c "." || Ascii.eqb c "e" || Ascii.eqb c "E"
  end.

Definition finish_int (negative : bool) (ds rest : string) : option (json * string) :=
  if starts_float rest then None
  else match NilZero.uint_of_string ds with
       | Some d =>
           let n := Z.of_uint d in
           Some (JNum (if negative then (- n)%Z else n), rest)
       | None => None
       end.

(** The integer part: an optional minus sign, then a single zero or a
    nonzero digit followed by digits. *)
Definition load_int (s : string) : option (json * string) :=
  let '(negative, s1) :=
    match s with
    | String c s' => if Ascii.eqb c "-" then (true, s') else (false, s)
    | EmptyString => (false, s)
    end in
  match s1 with
  | EmptyString => None
  | String c s2 =>
      if Ascii.eqb c "0" then finish_int negative "0" s2
      else if is_digit c then
        let '(ds, rest) := take_digits s1 in finish_int negative ds rest
      else None
  end.

Definition hex_val (c : ascii) : option N :=
  let n := N_of_ascii c in
  if (48 <=? n)%N && (n <=? 57)%N then Some (n - 48)%N
  else if (97 <=? n)%N && (n <=? 102)%N then Some (n - 87)%N
  else if (65 <=? n)%N && (n <=? 70)%N then Some (n - 55)%N
  else None.

(** Four hexadecimal digits at the head of [s]. *)
Definition hex4 (s : string) : option (N * string) :=
  match s with
  | String a (String b (String c (String d rest))) =>
      match hex_val a, hex_val b, hex_val c, hex_val d with
      | Some x, Some y, Some z, Some t =>
          Some ((((x * 16 + y) * 16 + z) * 16 + t)%N, rest)
      | _, _, _, _ => None
      end
  | _ => None
  end.

(** The UTF-8 bytes of a code point. *)
Definition utf8 (cp : N) : string :=
  let byte n := ascii_of_N n in
  (if cp <? 128 then String (byte cp) EmptyString
   else if cp <? 2048 then
     String (byte (192 + cp / 64)) (String (byte (128 + cp mod 64)) EmptyString)
   else if cp <? 65536 then
     String (byte (224 + cp / 4096))
       (String (byte (128 + (cp / 64) mod 64))
          (String (byte (128 + cp mod 64)) EmptyString))
   else
     String (byte (240 + cp / 262144))
       (String (byte (128 + (cp / 4096) mod 64))
          (String (byte (128 + (cp / 64) mod 64))
             (String (byte (128 + cp mod 64)) EmptyString))))%N.

(** The code point of a [\uXXXX] escape whose digits start [s], joined with a
    following low surrogate when it is a high one. *)
Definition load_unicode (s : string) : option (string * string) :=
  match hex4 s with
  | None => None
  | Some (cp, rest) =>
      if ((55296 <=? cp) && (cp <? 56320))%N then
        match rest with
        | String b (String u rest') =>
            if Ascii.eqb b backslash && Ascii.eqb u "u" then
              match hex4 rest' with
              | Some (lo, rest'') =>
                  if ((56320 <=? lo) && (lo <? 57344))%N then
                    Some (utf8 (65536 + (cp - 55296) * 1024 + (lo - 56320))%N, rest'')
                  else Some (utf8 cp, rest)
              | None => Some (utf8 cp, rest)
              end
            else Some (utf8 cp, rest)
        | _ => Some (utf8 cp, rest)
        end
      else Some (utf8 cp, rest)
  end.

(** The characters of a string up to its closing quote. *)
Fixpoint load_chars (fuel : nat) (s : string) : option (string * string) :=
  match fuel with
  | O => None
  | S fuel =>
      match s with
      | EmptyString => None
      | String c s' =>
          if Ascii.eqb c dquote then Some (EmptyString, s')
          else if Ascii.eqb c backslash then
            match s' with
            | EmptyString => None
            | String e s'' =>
                let continue (decoded : string) (rest : string) :=
                  match load_chars fuel rest with
                  | Some (r, rest') => Some ((decoded ++ r)%string, rest')
                  | None => None
                  end in
                let one (n : nat) := continue (String (ascii_of_nat n) EmptyString) s'' in
                if Ascii.eqb e dquote then one 34%nat
                else if Ascii.eqb e backslash then one 92%nat
                else if Ascii.eqb e "/" then one 47%nat
                else if Ascii.eqb e "b" then one 8%nat
                else if Ascii.eqb e "f" then one 12%nat
                else if Ascii.eqb e "n" then one 10%nat
                else if Ascii.eqb e "r" then one 13%nat
                else if Ascii.eqb e "t" then one 9%nat
                else if Ascii.eqb e "u" then
                  match load_unicode s'' with
                  | Some (decoded, rest) => continue decoded rest
                  | None => None
                  end
                else None
            end
          else if (nat_of_ascii c <? 32)%nat then None
          else
            match load_chars fuel s' with
            | Some (r, rest) => Some (String c r, rest)
            | None => None
            end
      end
  end.

(** [d[k] = v] while a dict is being built: a key met again keeps its place
    and takes the new value. *)
Fixpoint dict_set (k : string) (v : json) (d : record) : record :=
  match d with
  | [] => [(k, v)]
  | (k', v') :: d' =>
      if String.eqb k' k then (k', v) :: d' else (k', v') :: dict_set k v d'
  end.

Definition dict_of (pairs : list (string * json)) : record :=
  fold_left (fun d kv => dict_set (fst kv) (snd kv) d) pairs [].

(** [s] without its prefix [p], when it has it. *)
Fixpoint strip_prefix (p s : string) : option string :=
  match p with
  | EmptyString => Some s
  | String a p' =>
      match s with
      | String b s' => if Ascii.eqb a b then strip_prefix p' s' else None
      | EmptyString => None
      end
  end.

Definition expect (c : ascii) (s : string) : option string :=
  match s with
  | String c' s' => if Ascii.eqb c' c then Some s' else None
  | EmptyString => None
  end.

(** A value at the head of [s], and the text after it. *)
Fixpoint load_value (fuel : nat) (s : string) : option (json * string) :=
  match fuel with
  | O => None
  | S fuel =>
      match s with
      | EmptyString => None
      | String c s' =>
          if Ascii.eqb c dquote then
            match load_chars (String.length s) s' with
            | Some (str, rest) => Some (JStr str, rest)
            | None => None
            end
          else if Ascii.eqb c "[" then
            let s1 := skip_ws s' in
            match expect "]" s1 with
            | Some rest => Some (JArr [], rest)
            | None =>
                match load_items fuel s1 with
                | Some (l, rest) => Some (JArr l, rest)
                | None => None
                end
            end
          else if Ascii.eqb c "{" then
            let s1 := skip_ws s' in
            match expect "}" s1 with
            | Some rest => Some (JObj [], rest)
            | None =>
                match load_members fuel s1 with
                | Some (m, rest) => Some (JObj (dict_of m), rest)
                | None => None
                end
            end
          else
            match strip_prefix "null" s with
            | Some rest => Some (JNull, rest)
            | None =>
                match strip_prefix "true" s with
                | Some rest => Some (JBool true, rest)
                | None =>
                    match strip_prefix "false" s with
                    | Some rest => Some (JBool false, rest)
                    | None => load_int s
                    end
                end
            end
      end
  end
with load_items (fuel : nat) (s : string) : option (list json * string) :=
  match fuel with
  | O => None
  | S fuel =>
      match load_value fuel s with
      | None => None
      | Some (v, rest) =>
          let rest := skip_ws rest in
          match rest with
          | EmptyString => None
          | String c rest' =>
              if Ascii.eqb c "," then
                match load_items fuel (skip_ws rest') with
                | Some (l, rest'') => Some (v :: l, rest'')
                | None => None
                end
              else if Ascii.eqb c "]" then Some ([v], rest')
              else None
          end
      end
  end
with load_members (fuel : nat) (s : string) : option (list (string * json) * string) :=
  match fuel with
  | O => None
  | S fuel =>
      match expect dquote s with
      | None => None
      | Some s1 =>
          match load_chars (String.length s) s1 with
          | None => None
          | Some (k, s2) =>
              match expect ":" (skip_ws s2) with
              | None => None
              | Some s3 =>
                  match load_value fuel (skip_ws s3) with
                  | None => None
                  | Some (v, rest) =>
                      let rest := skip_ws rest in
                      match rest with
                      | EmptyString => None
                      | String c rest' =>
                          if Ascii.eqb c "," then
                            match load_members fuel (skip_ws rest') with
                            | Some (m, rest'') => Some ((k, v) :: m, rest'')
                            | None => None
                            end
                          else if Ascii.eqb c "}" then Some ([(k, v)], rest')
                          else None
                      end
                  end
              end
          end
      end
  end.

(** [json.loads(s)]: one value, with whitespace around it and nothing else. *)
Definition loads (s : string) : option json :=
  match load_value (S (String.length s)) (skip_ws s) with
  | Some (v, rest) =>
      match skip_ws rest with
      | EmptyString => Some v
      | _ => None
      end
  | None => None
  end.

(** [v] is read back from its text at any nesting level, whatever follows
    it in a dumped text, with enough fuel for its nodes. *)
Definition reads_back (v : json) : Prop :=
  forall (lvl : nat) (rest : string) (fuel : nat),
    (nodes v <= fuel)%nat ->
    ends_value rest = true ->
    load_value fuel (dump lvl v ++ rest) = Some (v, rest).

End JsonText.

(** The library's codec on text files. *)
#[global] Instance text_codec : JsonCodec :=
  {| content := string; json_dump := JsonText.dumps; json_load := JsonText.loads |}.

(** ** Notions of the specification *)

Module Spec.

(** Key Extractor: the [repo] of a record, [None] when it has none. *)
Definition key_of (r : record) : option string :=
  match Py.dict_get "repo" r with
  | Some (JStr s) => Some s
  | _ => None
  end.

(** The key set of a list of records; unkeyable records add nothing. *)
Definition key_set (l : list record) : gset string :=
  list_to_set (omap key_of l).

(** A record of the data model: its [repo], when present, is a string. *)
Definition keyed (r : record) : bool :=
  match Py.dict_get "repo" r with
  | Some (JStr _) | None => true
  | Some _ => false
  end.

(** [find_missing] as the specification words it: the official records whose
    key is in [K_o - K_a], in the official order. *)
Definition find_missing (official addon : list record) : list record :=
  List.filter
    (fun r =>
       match key_of r with
       | Some k => bool_decide (k ∈ key_set official ∖ key_set addon)
       | None => false
       end)
    official.

(** [find_orphaned], symmetrically: the addon records whose key is in
    [K_a - K_o], in the addon order. *)
Definition find_orphaned (official addon : list record) : list record :=
  List.filter
    (fun r =>
       match key_of r with
       | Some k => bool_decide (k ∈ key_set addon ∖ key_set official)
       | None => false
       end)
    addon.

(** The default tags of the automatic mode: the mode tags and, always,
    [minimalistic]. *)
Definition default_tags (has_dark has_light : bool) : list string :=
  (if has_dark then ["dark"] else []) ++
  (if has_light then ["light"] else []) ++
  (if has_dark && has_light then ["dark_and_light"] else []) ++
  ["minimalistic"].

(** A value a Python program can hold after [json.load]: the keys of every
    dict are distinct. *)
Fixpoint valid (v : json) : bool :=
  match v with
  | JArr l => forallb valid l
  | JObj m =>
      bool_decide (NoDup (List.map fst m)) && forallb (fun kv => valid (snd kv)) m
  | _ => true
  end.

End Spec.

(** An entry that [validate_json_structure] counts as valid: a dict that has
    every expected key. *)
Definition complete_entry (expected_keys : list string) (entry : json) : bool :=
  match entry with
  | JObj m => forallb (fun key => Py.dict_has key m) expected_keys
  | _ => false
  end.






(** A failed check of the given severity. *)
Definition failed_with (sev : Validator.severity) (r : Validator.ValidationResult)
  : bool :=
  negb (Validator.is_valid r)
  && match Validator.severity_of r, sev with
     | Validator.error, Validator.error
     | Validator.warning, Validator.warning
     | Validator.info, Validator.info => true
     | _, _ => false
     end.

(** The results of all themes, in the order of the themes. *)
Definition all_results (validation_results : list (string * list Validator.ValidationResult))
  : list Validator.ValidationResult :=
  List.concat (List.map snd validation_results).


(** A string without the character [sep]. *)
Definition no_char (sep : ascii) (s : string) : bool :=
  PyRe.all_in (fun c => negb (Ascii.eqb c sep)) s.

(** Code-point order on strings, the order of [sorted]. *)
Definition str_lt (a b : string) : Prop := String.compare a b = Lt.

(** A record the prompts build from [official_entry]: it carries the [repo] of
    the official record, its main screenshot is the official one or a string
    the operator typed, and its tags are ascending and hold the mode tags. *)
Definition built_from (official_entry entry : record) : Prop :=
  exists (main : json) (side tags defaults : list string),
    entry = BatchProcessor.addon_entry_of (Py.get "repo" official_entry) main side tags
    /\ BatchProcessor.mode_tags (Py.get_or "modes" (JArr []) official_entry)
       = Ok defaults
    /\ (main = Py.get_or "screenshot" (JStr "") official_entry
        \/ exists s, main = JStr s)
    /\ StronglySorted str_lt tags
    /\ (forall t, In t defaults -> In t tags).

(** A set of positions of a list of [n] entries. *)
Definition in_range (n : Z) (S : gset Z) : Prop :=
  forall i, i ∈ S -> (0 <= i < n)%Z.

(** What the persistence properties ask of the library: a valid value written
    by [json.dump] is read back by [json.load]. *)
Class CodecLaws (codec : JsonCodec) : Prop := {
  load_dump : forall v : json, Spec.valid v = true -> json_load (json_dump v) = Some v
}.

Section Stored.
Context {codec : JsonCodec}.

(** The record list held by the file at [p]: what a successful read decodes,
    the empty list when there is no file, no JSON or no array in it. *)
Definition stored (disk : gmap string content) (p : string) : list json :=
  match disk !! p with
  | Some c =>
      match json_load c with
      | Some (JArr l) => l
      | _ => []
      end
  | None => []
  end.

(** The world [n] calls to the operating system later, with the disk [disk]. *)
Definition after (n : nat) (disk : gmap string content) (w : world) : world :=
  {| fs := disk; stdin := stdin w; tick := n + tick w; env := env w |}.

(** The name [save_json_data] gives to the backup it takes in [w]: in the
    backup directory, the stem of the file, the time of the call, the suffix
    [pre_save] and the extension of the file. *)
Definition pre_save_backup_path (self : FileManager.t) (p : string) (w : world)
  : string :=
  FileManager.backup_path self
    (strftime_compact (now (env w (tick w))) ++ "_pre_save")%string p.

(** The world after the backup step of [save_json_data]: the clock is read,
    and an existing file is copied unless the copy fails. *)
Definition backed_up (self : FileManager.t) (p : string) (w : world) : world :=
  match fs w !! p with
  | Some old =>
      if fails (env w (S (tick w))) || String.eqb p (pre_save_backup_path self p w)
      then after 2 (fs w) w
      else after 2 (<[ pre_save_backup_path self p w := old ]> (fs w)) w
  | None => w
  end.

(** The time stamp [backup_json_files] puts in the names of its backups in
    [w]: the time of the call and, when one is given, the suffix. *)
Definition backup_timestamp (backup_suffix : option string)
    (w : world) : string :=
  let timestamp := strftime_compact (now (env w (tick w))) in
  match backup_suffix with
  | Some sfx => if String.eqb sfx "" then timestamp
                else (timestamp ++ "_" ++ sfx)%string
  | None => timestamp
  end.

(** One turn of the loop of [backup_json_files]. *)
Definition backup_one (self : FileManager.t) (timestamp file_path : string)
    (w : world) : bool * world :=
  match fs w !! file_path with
  | None => (false, w)
  | Some c =>
      if fails (env w (tick w))
         || String.eqb file_path (FileManager.backup_path self timestamp file_path)
      then (false, after 1 (fs w) w)
      else (true,
            after 1 (<[ FileManager.backup_path self timestamp file_path := c ]> (fs w)) w)
  end.

(** No call to the operating system fails from the current one on. *)
Definition calm (w : world) : Prop :=
  forall n, (tick w <= n)%nat -> fails (env w n) = false.

(** From [w] to [w'] no file was removed and only files that satisfy [P]
    were written; the terminal was not read and time did not go back. *)
Definition only_touches (P : string -> Prop) (w w' : world) : Prop :=
  stdin w' = stdin w /\ env w' = env w /\ (tick w <= tick w')%nat
  /\ (forall q, is_Some (fs w !! q) -> is_Some (fs w' !! q))
  /\ (forall q, ~ P q -> fs w' !! q = fs w !! q).



(** A computation that reads the terminal and touches nothing else. *)
Definition terminal_only {A} (m : M A) : Prop :=
  forall w, fs (snd (m w)) = fs w /\ tick (snd (m w)) = tick w
            /\ env (snd (m w)) = env w.

(** Every value a computation returns satisfies [Q]. *)
Definition answers {A} (m : M A) (Q : A -> Prop) : Prop :=
  forall w a, fst (m w) = Ok a -> Q a.

(** What a session makes of the builder's answer for one record. *)
Inductive outcome : Type :=
| Produced (entry : record)
| NoRecord
| Failed (e : exn).

Definition outcome_of (r : result (option record)) : outcome :=
  match r with
  | Ok (Some entry) => if Py.truthy (JObj entry) then Produced entry else NoRecord
  | Ok None => NoRecord
  | Raise e => Failed e
  end.

(** The outcomes of the builder on the records of the queue, each run in the
    world the previous one left. *)
Fixpoint outcomes (builder : record -> M (option record))
    (queue : list record) (w : world) : list outcome :=
  match queue with
  | [] => []
  | official_entry :: rest =>
      outcome_of (fst (builder official_entry w))
      :: outcomes builder rest (snd (builder official_entry w))
  end.

(** The world after the builder has run on every record of the queue. *)
Fixpoint world_after (builder : record -> M (option record))
    (queue : list record) (w : world) : world :=
  match queue with
  | [] => w
  | official_entry :: rest =>
      world_after builder rest (snd (builder official_entry w))
  end.

Fixpoint produced_entries (outs : list outcome) : list record :=
  match outs with
  | [] => []
  | Produced entry :: outs' => entry :: produced_entries outs'
  | _ :: outs' => produced_entries outs'
  end.

Fixpoint count_skipped (outs : list outcome) : nat :=
  match outs with
  | [] => 0
  | NoRecord :: outs' => S (count_skipped outs')
  | _ :: outs' => count_skipped outs'
  end.

(** The messages of the failures, each naming its record. *)
Fixpoint failure_messages (queue : list record) (outs : list outcome) : list string :=
  match queue, outs with
  | official_entry :: queue', Failed e :: outs' =>
      BatchProcessor.error_message official_entry e :: failure_messages queue' outs'
  | _ :: queue', _ :: outs' => failure_messages queue' outs'
  | _, _ => []
  end.

End Stored.

(** ** Sample data: the scenarios of the specification *)

Module Sample.

(** The official record of the concrete scenario. *)
Definition theme_b : record :=
  [("repo", JStr "a/b"); ("name", JStr "Theme B"); ("author", JStr "X");
   ("screenshot", JStr "s.png"); ("modes", JArr [JStr "dark"])].

(** The addon record the specification expects for it. *)
Definition theme_b_minimal : record :=
  [("repo", JStr "a/b"); ("screenshot-main", JStr "s.png");
   ("screenshots-side", JArr []);
   ("tags", JArr [JStr "dark"; JStr "minimalistic"])].

Definition theme_d : record :=
  [("repo", JStr "c/d"); ("name", JStr "Theme D"); ("author", JStr "Y");
   ("screenshot", JStr "d.png"); ("modes", JArr [JStr "dark"; JStr "light"])].

(** A clock stopped at 2025-01-02 03:04:05 and an operating system that never
    fails. *)
Definition t0 : datetime :=
  {| year := 2025; month := 1; day := 2; hour := 3; minute := 4; second := 5 |}.

Definition quiet : nat -> io_event := fun _ => {| now := t0; fails := false |}.

(** A processor with the default paths and macros, its synchronizer loaded
    with the given lists. *)
Definition processor (official addon : list record) : BatchProcessor.t :=
  BatchProcessor.Build (FileManager.Build "backups")
    "community-css-themes.json" "community-css-themes-tag-browser.json"
    (DataSynchronizer.Build official addon) BatchProcessor.default_macros.

(** A world with the given files, in which the operator types [lines]. *)
Definition world_of (disk : gmap string string) (lines : list string)
  : world (codec := text_codec) :=
  {| fs := disk; stdin := lines; tick := 0; env := quiet |}.

(** The two stores of a processor with default paths, as JSON text files. *)
Definition disk_of (official addon : list json) : gmap string string :=
  <[ "community-css-themes.json" := JsonText.dumps (JArr official) ]>
    (<[ "community-css-themes-tag-browser.json" := JsonText.dumps (JArr addon) ]> ∅).

(** The addon store of a processor with default paths. *)
Definition addon_file : string := "community-css-themes-tag-browser.json".

Definition file_manager : FileManager.t := FileManager.Build "backups".

(** An addon record that no official record matches. *)
Definition orphan : record :=
  [("repo", JStr "x/y"); ("screenshot-main", JStr "o.png");
   ("screenshots-side", JArr []); ("tags", JArr [JStr "dark"])].

(** An official record whose [modes] is a number: the membership test on it
    raises. *)
Definition theme_broken : record :=
  [("repo", JStr "e/f"); ("name", JStr "Theme F"); ("modes", JNum 3)].

(** The records an operator builds from [theme_b] and [theme_d] by typing one
    tag each. *)
Definition entry_b : record :=
  [("repo", JStr "a/b"); ("screenshot-main", JStr "s.png");
   ("screenshots-side", JArr []);
   ("tags", JArr [JStr "dark"; JStr "minimalistic"; JStr "sleek"])].

Definition entry_d : record :=
  [("repo", JStr "c/d"); ("screenshot-main", JStr "d.png");
   ("screenshots-side", JArr []);
   ("tags", JArr [JStr "calm"; JStr "dark"; JStr "dark_and_light"; JStr "light";
                  JStr "minimalistic"])].

(** [int] on the numerals of the examples: plain decimal digits. *)
Definition int (s : string) : option Z :=
  if String.eqb s "" then None
  else option_map Z.of_int (NilZero.int_of_string s).

End Sample.

(** * Properties *)

(** ** Reconciler *)

Section ReconcilerFacts.

Lemma key_set_cons (r : record) (l : list record) :
  Spec.key_set (r :: l) =
    match Spec.key_of r with
    | Some k => {[ k ]} ∪ Spec.key_set l
    | None => Spec.key_set l
    end.
Proof.
  unfold Spec.key_set. simpl. destruct (Spec.key_of r); reflexivity.
Qed.

Lemma add_repos_keyed (data : list record) (acc : gset Py.key) :
  forallb Spec.keyed data = true ->
  DataSynchronizer.add_repos data acc
  = Ok (acc ∪ set_map Py.KStr (Spec.key_set data)).
Proof.
  revert acc. induction data as [|r data IH]; intros acc Hk; simpl.
  - f_equal. unfold Spec.key_set. simpl. set_solver.
  - simpl in Hk. apply andb_prop in Hk as [Hr Hdata].
    rewrite key_set_cons. unfold Spec.keyed, Spec.key_of in *.
    destruct (Py.dict_get "repo" r) as [[| | |s| |]|]; try discriminate; simpl.
    + rewrite IH by assumption. f_equal. set_solver.
    + rewrite IH by assumption. reflexivity.
Qed.

Lemma entries_in_keyed (data : list record) (repos : gset Py.key) :
  forallb Spec.keyed data = true ->
  Py.KNone ∉ repos ->
  DataSynchronizer.entries_in data repos
  = Ok (List.filter
          (fun r => match Spec.key_of r with
                    | Some k => bool_decide (Py.KStr k ∈ repos)
                    | None => false
                    end) data).
Proof.
  intros Hk Hnone. induction data as [|r data IH]; simpl; [reflexivity|].
  simpl in Hk. apply andb_prop in Hk as [Hr Hdata].
  rewrite (IH Hdata). unfold Spec.keyed, Spec.key_of, Py.get, Py.get_or in *.
  destruct (Py.dict_get "repo" r) as [[| | |s| |]|]; try discriminate; simpl.
  - reflexivity.
  - rewrite bool_decide_eq_false_2 by assumption. reflexivity.
Qed.

Lemma filter_ext_in_bool {A} (f g : A -> bool) (l : list A) :
  (forall x, In x l -> f x = g x) -> List.filter f l = List.filter g l.
Proof.
  induction l as [|x l IH]; intros H; simpl; [reflexivity|].
  rewrite (H x) by (left; reflexivity).
  rewrite IH by (intros y Hy; apply H; right; exact Hy). reflexivity.
Qed.

Lemma find_missing_is_key_difference_aux (official addon : list record) :
  forallb Spec.keyed official = true ->
  forallb Spec.keyed addon = true ->
  DataSynchronizer.find_missing_addon_entries
    (DataSynchronizer.Build official addon)
  = Ok (Spec.find_missing official addon).
Proof.
  intros Ho Ha.
  unfold DataSynchronizer.find_missing_addon_entries,
    DataSynchronizer.get_official_repos, DataSynchronizer.get_addon_repos.
  simpl. rewrite (add_repos_keyed official ∅ Ho), (add_repos_keyed addon ∅ Ha).
  simpl. rewrite entries_in_keyed; [|assumption|set_solver].
  f_equal. unfold Spec.find_missing. apply filter_ext_in_bool.
  intros r _. destruct (Spec.key_of r) as [k|]; [|reflexivity].
  apply bool_decide_ext. set_solver.
Qed.

End ReconcilerFacts.

(** C1. For official and addon record lists of the data model ([repo], when
    present, is a string), [find_missing_addon_entries] returns exactly the
    official records whose [repo] lies in the official key set minus the addon
    key set; records without [repo] are in neither key set nor in the result;
    the result keeps the official order (it is a filter of the official
    list). *)
Theorem find_missing_is_key_difference (official addon : list record) :
  forallb Spec.keyed official = true ->
  forallb Spec.keyed addon = true ->
  DataSynchronizer.find_missing_addon_entries
    (DataSynchronizer.Build official addon)
  = Ok (Spec.find_missing official addon).
Proof. exact (find_missing_is_key_difference_aux official addon). Qed.

(** The scenario of the specification: two official records [a/b] and [c/d],
    an addon holding [a/b], and a record without [repo]. *)
Lemma find_missing_is_key_difference_witness :
  DataSynchronizer.find_missing_addon_entries
    (DataSynchronizer.Build
       [[("repo", JStr "a/b")]; [("name", JStr "no key")]; [("repo", JStr "c/d")]]
       [[("repo", JStr "a/b")]])
  = Ok [[("repo", JStr "c/d")]].
Proof.
  rewrite (find_missing_is_key_difference
             [[("repo", JStr "a/b")]; [("name", JStr "no key")]; [("repo", JStr "c/d")]]
             [[("repo", JStr "a/b")]]); [|reflexivity|reflexivity].
  vm_compute. reflexivity.
Defined.

(** ** Automatic Entry Builder *)

(** C6 (amended). Whenever the membership tests on [modes] are defined, the
    automatic builder of [integrated_batch_processor_complete.py] returns
    [repo], [screenshot-main] taken from the official [screenshot],
    no side screenshots and the tags [sorted(set(default_tags))], where
    [default_tags] holds [dark], [light], [dark_and_light] as the modes say and
    always [minimalistic]; the builder of [batch_processor (2).py] returns the
    same record but for its tags: the mode tags alone, unsorted, without
    [minimalistic]. *)
Theorem minimal_entry_by_variant (official_entry : record) (has_dark has_light : bool) :
  let modes :=
    if Py.truthy (Py.get_or "modes" (JArr []) official_entry)
    then Py.get_or "modes" (JArr []) official_entry else JArr [] in
  Py.contains "dark" modes = Ok has_dark ->
  Py.contains "light" modes = Ok has_light ->
  IntegratedComplete._create_minimal_addon_entry official_entry
  = Ok [("repo", Py.get "repo" official_entry);
        ("screenshot-main", Py.get_or "screenshot" (JStr "") official_entry);
        ("screenshots-side", JArr []);
        ("tags", JArr (List.map JStr
                         (PyStr.sorted_set (Spec.default_tags has_dark has_light))))]
  /\ OldBatchProcessor2._create_minimal_addon_entry official_entry
     = Ok [("repo", Py.get "repo" official_entry);
           ("screenshot-main", Py.get_or "screenshot" (JStr "") official_entry);
           ("screenshots-side", JArr []);
           ("tags", JArr (List.map JStr
                            ((if has_dark then ["dark"] else []) ++
                             (if has_light then ["light"] else []) ++
                             (if has_dark && has_light then ["dark_and_light"] else []))))].
Proof.
  intros modes Hdark Hlight.
  unfold IntegratedComplete._create_minimal_addon_entry,
    OldBatchProcessor2._create_minimal_addon_entry.
  fold modes. rewrite Hdark, Hlight. simpl.
  split; [|reflexivity].
  destruct has_dark, has_light; reflexivity.
Qed.

Lemma minimal_entry_by_variant_witness :
  IntegratedComplete._create_minimal_addon_entry Sample.theme_b
  = Ok Sample.theme_b_minimal
  /\ OldBatchProcessor2._create_minimal_addon_entry Sample.theme_b
     = Ok [("repo", JStr "a/b"); ("screenshot-main", JStr "s.png");
           ("screenshots-side", JArr []); ("tags", JArr [JStr "dark"])].
Proof.
  exact (minimal_entry_by_variant Sample.theme_b true false eq_refl eq_refl).
Defined.

(** C6 as stated fails on [batch_processor (2).py]: for the record of the
    scenario its automatic builder returns the tags [["dark"]], not the
    expected record with [minimalistic]. *)
Lemma minimal_entry_without_minimalistic :
  OldBatchProcessor2._create_minimal_addon_entry Sample.theme_b
  = Ok [("repo", JStr "a/b"); ("screenshot-main", JStr "s.png");
        ("screenshots-side", JArr []); ("tags", JArr [JStr "dark"])]
  /\ OldBatchProcessor2._create_minimal_addon_entry Sample.theme_b
     <> Ok Sample.theme_b_minimal.
Proof.
  split; [reflexivity|]. vm_compute. intros H. discriminate H.
Qed.

(** ** Tags typed by the operator *)

Section TagFacts.

Lemma mem_In (x : string) (l : list string) : PyStr.mem x l = true <-> In x l.
Proof.
  unfold PyStr.mem. rewrite existsb_exists. split.
  - intros (y & Hy & Heq). apply String.eqb_eq in Heq. subst. exact Hy.
  - intros H. exists x. split; [exact H|apply String.eqb_refl].
Qed.

Lemma insert_uniq_In (x y : string) (l : list string) :
  In x (PyStr.insert_uniq y l) <-> x = y \/ In x l.
Proof.
  induction l as [|z l IH]; simpl.
  - intuition.
  - destruct (String.compare y z) eqn:Hc; simpl.
    + apply String.compare_eq_iff in Hc. subst. intuition.
    + intuition.
    + rewrite IH. intuition.
Qed.

Lemma sorted_set_In (x : string) (l : list string) :
  In x (PyStr.sorted_set l) <-> In x l.
Proof.
  induction l as [|y l IH]; simpl; [tauto|].
  rewrite insert_uniq_In, IH. intuition.
Qed.



Lemma remove_first_mem (y : string) (l : list string) :
  PyStr.mem y l = true -> exists l', PyStr.remove_first y l = Some l'.
Proof.
  rewrite mem_In. induction l as [|z l IH]; simpl; [tauto|].
  intros H. destruct (String.eqb z y) eqn:Hz; [eauto|].
  apply String.eqb_neq in Hz. destruct H as [e|H]; [congruence|].
  destruct (IH H) as [t ->]. simpl. eauto.
Qed.



End TagFacts.

Section NotmFacts.
Context {codec : JsonCodec}.


End NotmFacts.




(** The slip left out of the amended statement: [list.remove] drops one
    occurrence, so a second [notm] is stored as a tag. *)
Example notm_typed_twice_is_stored :
  BatchProcessor.final_tags
    (BatchProcessor.expand_tags BatchProcessor.default_macros "notm, notm") ["dark"]
  = Ok ["dark"; "notm"].
Proof. vm_compute. reflexivity. Qed.

(** ** Validator *)

(** C10 (amended). For every probe the validator performs, the status code
    200 alone yields a valid result; 404 yields an invalid result of severity
    [error]; every other answer (403, any other status code, among them the
    other 2xx codes, a timeout, a connection failure, any other exception)
    yields an invalid result of severity [warning]. *)
Theorem probe_classification (p : Validator.probe) :
  let r := Validator.check_accessible p in
  (Validator.is_valid r, Validator.severity_of r)
  = match p with
    | Validator.Response status_code =>
        if (status_code =? 200)%Z then (true, Validator.error)
        else if (status_code =? 404)%Z then (false, Validator.error)
        else (false, Validator.warning)
    | _ => (false, Validator.warning)
    end.
Proof.
  destruct p as [status_code| | |msg]; simpl; try reflexivity.
  destruct (status_code =? 200)%Z; [reflexivity|].
  destruct (status_code =? 404)%Z; [reflexivity|].
  destruct (status_code =? 403)%Z; reflexivity.
Qed.

(** A URL that passes the two format checks is judged by its probe alone. *)
Lemma validate_url_probes (urlparse : string -> result (string * string))
    (head : string -> Validator.probe) (url scheme netloc : string) :
  PyStr.strip url <> "" ->
  urlparse (PyStr.strip url) = Ok (scheme, netloc) ->
  scheme <> "" -> netloc <> "" ->
  Validator.validate_url urlparse head url
  = Validator.check_accessible (head (PyStr.strip url)).
Proof.
  intros Hstrip Hparse Hscheme Hnetloc. unfold Validator.validate_url.
  assert (Hurl : url <> "") by (intros ->; apply Hstrip; reflexivity).
  apply String.eqb_neq in Hurl, Hstrip, Hscheme, Hnetloc.
  rewrite Hurl, Hstrip, Hparse, Hscheme, Hnetloc. reflexivity.
Qed.

(** C10 as stated fails: a response with the 2xx status code 204 yields an
    invalid result, a warning. *)
Lemma no_content_is_not_valid :
  Validator.check_accessible (Validator.Response 204)
  = Validator.Build "url" false "HTTP 204" Validator.warning.
Proof. vm_compute. reflexivity. Qed.

(** ** Synchronization summary *)

Section SyncFacts.




End SyncFacts.

(** The scenario of the specification on [compare_json_files]: official keys
    [a/b] and [c/d], addon key [a/b], hence 50 percent. *)
Example compare_json_files_half :
  exists c,
    DataSynchronizer.compare_json_files
      (DataSynchronizer.Build [Sample.theme_b; Sample.theme_d]
                              [Sample.theme_b_minimal]) = Ok c
    /\ Qeq (DataSynchronizer.sync_percentage c) (inject_Z 50)
    /\ DataSynchronizer.missing_addon_entries c = [Sample.theme_d].
Proof.
  eexists. split; [vm_compute; reflexivity|]. split; reflexivity.
Qed.

(** C9 on [_menu_synchronization_status]: with one official theme [a/b] and an
    addon that holds [a/b] and the orphan [x/y], the menu reports 200 percent,
    where the share of official keys present in the addon is 100 percent. *)
Theorem sync_menu_counts_orphans :
  fst (Debloated._menu_synchronization_status
         (Sample.processor [Sample.theme_b] [Sample.theme_b_minimal; Sample.orphan])
         (Sample.world_of
            (Sample.disk_of [JObj Sample.theme_b]
                            [JObj Sample.theme_b_minimal; JObj Sample.orphan]) []))
  = Ok (SyncSummary 1 2 0 1 (Some (DataSynchronizer.percent 2 1)))
  /\ Qeq (DataSynchronizer.percent 2 1) (inject_Z 200)
  /\ Qeq (DataSynchronizer.percent
            (size (Spec.key_set [Sample.theme_b_minimal; Sample.orphan]
                   ∩ Spec.key_set [Sample.theme_b]))
            (size (Spec.key_set [Sample.theme_b])))
         (inject_Z 100).
Proof.
  split; [vm_compute; reflexivity|]. split; vm_compute; reflexivity.
Qed.

(** ** The JSON text codec reads back what it writes *)

Section TextFacts.

Lemma sapp_cons (x : ascii) (a b : string) :
  (String x a ++ b = String x (a ++ b))%string.
Proof. reflexivity. Qed.

Lemma sapp_nil_l (b : string) : (EmptyString ++ b = b)%string.
Proof. reflexivity. Qed.

Lemma sapp_assoc (a b c : string) : ((a ++ b) ++ c = a ++ (b ++ c))%string.
Proof.
  induction a as [|x a IH]; [reflexivity|].
  rewrite !sapp_cons. f_equal. exact IH.
Qed.

Lemma slength_app (a b : string) :
  String.length (a ++ b) = (String.length a + String.length b)%nat.
Proof.
  induction a as [|x a IH]; [reflexivity|].
  rewrite sapp_cons. simpl. f_equal. exact IH.
Qed.

Lemma escape_char_length (c : ascii) : (1 <= String.length (JsonText.escape_char c))%nat.
Proof.
  unfold JsonText.escape_char.
  repeat match goal with |- context [if ?b then _ else _] => destruct b end;
    simpl; lia.
Qed.

Lemma escape_length (s : string) :
  (String.length s <= String.length (JsonText.escape s))%nat.
Proof.
  induction s as [|c s IH]; [simpl; lia|].
  change (JsonText.escape (String c s))
    with (JsonText.escape_char c ++ JsonText.escape s)%string.
  rewrite slength_app. pose proof (escape_char_length c). simpl. lia.
Qed.

(** One character of a string, read back from its escape. *)
Lemma load_chars_step (c : ascii) (tail r rest : string) (fuel : nat) :
  JsonText.load_chars fuel tail = Some (r, rest) ->
  JsonText.load_chars (S fuel) (JsonText.escape_char c ++ tail)
  = Some (String c r, rest).
Proof.
  intros H.
  destruct c as [[] [] [] [] [] [] [] []];
    match goal with
    | |- context [JsonText.escape_char ?c] =>
        let e := eval vm_compute in (JsonText.escape_char c) in
        change (JsonText.escape_char c) with e
    end;
    rewrite ?sapp_cons, ?sapp_nil_l; simpl; rewrite H; reflexivity.
Qed.

Lemma load_chars_escape (s rest : string) (fuel : nat) :
  (String.length s < fuel)%nat ->
  JsonText.load_chars fuel (JsonText.escape s ++ String JsonText.dquote rest)
  = Some (s, rest).
Proof.
  revert fuel. induction s as [|c s IH]; intros fuel Hfuel.
  - destruct fuel as [|fuel]; [simpl in Hfuel; lia|]. reflexivity.
  - destruct fuel as [|fuel]; [simpl in Hfuel; lia|].
    change (JsonText.escape (String c s))
      with (JsonText.escape_char c ++ JsonText.escape s)%string.
    rewrite sapp_assoc.
    apply load_chars_step. apply IH. simpl in Hfuel. lia.
Qed.

Lemma ends_value_inv (rest : string) :
  JsonText.ends_value rest = true ->
  rest = EmptyString
  \/ (exists r, rest = String "," r)
  \/ (exists r, rest = String JsonText.LF r).
Proof.
  destruct rest as [|c r]; [auto|]. simpl. intros H.
  apply orb_prop in H as [H|H]; apply Ascii.eqb_eq in H; subst; eauto.
Qed.

Lemma uint_string_digits (d : Decimal.uint) :
  JsonText.all_digits (NilEmpty.string_of_uint d) = true.
Proof. induction d; simpl; auto. Qed.

Lemma take_digits_app (s rest : string) :
  JsonText.all_digits s = true ->
  JsonText.ends_value rest = true ->
  JsonText.take_digits (s ++ rest) = (s, rest).
Proof.
  intros Hs Hrest. induction s as [|c s IH].
  - rewrite sapp_nil_l.
    destruct (ends_value_inv rest Hrest) as [->|[[r ->]|[r ->]]]; reflexivity.
  - simpl in Hs. apply andb_prop in Hs as [Hc Hs].
    rewrite sapp_cons. simpl. rewrite Hc, (IH Hs). reflexivity.
Qed.

Lemma starts_float_ends (rest : string) :
  JsonText.ends_value rest = true -> JsonText.starts_float rest = false.
Proof.
  intros H. destruct (ends_value_inv rest H) as [->|[[r ->]|[r ->]]]; reflexivity.
Qed.

(** The decimal digits of a positive number start with a nonzero digit. *)
Lemma to_uint_head (p : positive) :
  match Pos.to_uint p with
  | Decimal.Nil | Decimal.D0 _ => False
  | _ => True
  end.
Proof.
  pose proof (DecimalPos.Unsigned.to_uint_nonnil p) as Hnil.
  pose proof (DecimalPos.Unsigned.to_uint_nonzero p) as Hzero.
  pose proof (DecimalPos.Unsigned.to_of (Pos.to_uint p)) as Hnorm.
  rewrite DecimalPos.Unsigned.of_to in Hnorm. simpl in Hnorm.
  destruct (Pos.to_uint p) as [|d| | | | | | | | |]; try exact I.
  - apply Hnil. reflexivity.
  - rewrite DecimalFacts.unorm_D0 in Hnorm.
    destruct (Decimal.uint_eq_dec d Decimal.Nil) as [->|Hd].
    + apply Hzero. reflexivity.
    + pose proof (DecimalFacts.nb_digits_unorm d Hd) as Hle.
      rewrite <- Hnorm in Hle. simpl in Hle. lia.
Qed.

Lemma load_int_digits (d : Decimal.uint) (negative : bool) (rest : string) :
  match d with Decimal.Nil | Decimal.D0 _ => False | _ => True end ->
  JsonText.ends_value rest = true ->
  JsonText.load_int
    ((if negative then "-" else "") ++ NilEmpty.string_of_uint d ++ rest)
  = Some (JNum (if negative then (- Z.of_uint d)%Z else Z.of_uint d), rest).
Proof.
  intros Hhead Hrest.
  assert (Hread : forall s,
             s = NilEmpty.string_of_uint d ->
             JsonText.finish_int negative s rest
             = Some (JNum (if negative then (- Z.of_uint d)%Z else Z.of_uint d), rest)).
  { intros s ->. unfold JsonText.finish_int.
    rewrite (starts_float_ends rest Hrest).
    replace (NilZero.uint_of_string (NilEmpty.string_of_uint d)) with (Some d).
    - reflexivity.
    - symmetry. destruct d; try contradiction; simpl NilEmpty.string_of_uint;
        unfold NilZero.uint_of_string;
        match goal with
        | |- NilEmpty.uint_of_string (String ?c (NilEmpty.string_of_uint ?d')) = Some ?x =>
            exact (NilEmpty.usu x)
        end. }
  pose proof (take_digits_app _ rest (uint_string_digits d) Hrest) as Htake.
  destruct negative; rewrite ?sapp_cons, ?sapp_nil_l;
    destruct d; try contradiction;
    simpl NilEmpty.string_of_uint in *; rewrite ?sapp_cons in *;
    unfold JsonText.load_int; simpl; simpl in Htake; rewrite Htake;
    apply Hread; reflexivity.
Qed.

Lemma load_int_of_Z (n : Z) (rest : string) :
  JsonText.ends_value rest = true ->
  JsonText.load_int (PyStr.of_Z n ++ rest) = Some (JNum n, rest).
Proof.
  intros Hrest. destruct n as [|p|p].
  - change (PyStr.of_Z 0) with "0". rewrite sapp_cons, sapp_nil_l.
    unfold JsonText.load_int. simpl. unfold JsonText.finish_int.
    rewrite (starts_float_ends rest Hrest). reflexivity.
  - pose proof (load_int_digits (Pos.to_uint p) false rest (to_uint_head p) Hrest) as H.
    rewrite sapp_nil_l in H.
    unfold PyStr.of_Z. simpl Z.to_int. unfold NilZero.string_of_int, NilZero.string_of_uint.
    pose proof (to_uint_head p) as Hhead.
    replace (Z.pos p) with (Z.of_uint (Pos.to_uint p)).
    + destruct (Pos.to_uint p); try contradiction; exact H.
    + unfold Z.of_uint. rewrite DecimalPos.Unsigned.of_to. reflexivity.
  - pose proof (load_int_digits (Pos.to_uint p) true rest (to_uint_head p) Hrest) as H.
    unfold PyStr.of_Z. simpl Z.to_int. unfold NilZero.string_of_int, NilZero.string_of_uint.
    pose proof (to_uint_head p) as Hhead.
    replace (Z.neg p) with (- Z.of_uint (Pos.to_uint p))%Z.
    + destruct (Pos.to_uint p); try contradiction; exact H.
    + unfold Z.of_uint. rewrite DecimalPos.Unsigned.of_to. reflexivity.
Qed.

(** Induction on a value and, in arrays and objects, on each of its parts. *)
Lemma json_ind_nested (P : json -> Prop) :
  P JNull -> (forall b, P (JBool b)) -> (forall n, P (JNum n)) ->
  (forall s, P (JStr s)) ->
  (forall l, Forall P l -> P (JArr l)) ->
  (forall m, Forall (fun kv => P (snd kv)) m -> P (JObj m)) ->
  forall v, P v.
Proof.
  intros Hnull Hbool Hnum Hstr Harr Hobj.
  fix IH 1. intros [|b|n|s|l|m].
  - exact Hnull.
  - apply Hbool.
  - apply Hnum.
  - apply Hstr.
  - apply Harr. induction l as [|x l IHl]; constructor; [apply IH|exact IHl].
  - apply Hobj. induction m as [|[k x] m IHm]; constructor; [apply IH|exact IHm].
Qed.

Lemma skip_ws_indent (k : nat) (r : string) :
  JsonText.skip_ws (String.concat "" (repeat "  " k) ++ r) = JsonText.skip_ws r.
Proof.
  induction k as [|k IH]; [reflexivity|].
  destruct k as [|k].
  - reflexivity.
  - change (String.concat "" (repeat "  " (S (S k))))
      with ("  " ++ "" ++ String.concat "" (repeat "  " (S k)))%string.
    rewrite !sapp_cons, !sapp_nil_l. simpl. exact IH.
Qed.

Lemma skip_ws_newline_indent (k : nat) (r : string) :
  JsonText.skip_ws (JsonText.newline_indent k ++ r) = JsonText.skip_ws r.
Proof.
  unfold JsonText.newline_indent. rewrite sapp_cons. simpl. apply skip_ws_indent.
Qed.

Lemma starts_value_facts (c : ascii) :
  JsonText.starts_value c = true ->
  JsonText.is_ws c = false /\ Ascii.eqb c "]" = false /\ Ascii.eqb c "}" = false.
Proof.
  destruct c as [[] [] [] [] [] [] [] []]; vm_compute; intros H;
    try discriminate H; repeat split.
Qed.

Lemma of_Z_head (n : Z) :
  exists c s, PyStr.of_Z n = String c s
              /\ (JsonText.is_digit c || Ascii.eqb c "-") = true.
Proof.
  destruct n as [|p|p]; unfold PyStr.of_Z; simpl Z.to_int;
    unfold NilZero.string_of_int, NilZero.string_of_uint.
  - eexists _, _. split; reflexivity.
  - pose proof (to_uint_head p) as H.
    destruct (Pos.to_uint p); try contradiction;
      eexists _, _; split; reflexivity.
  - eexists _, _. split; reflexivity.
Qed.

(** A text that starts with a digit or a minus sign is read as a number. *)
Lemma load_value_number (c : ascii) (s : string) (fuel : nat) :
  (JsonText.is_digit c || Ascii.eqb c "-") = true ->
  JsonText.load_value (S fuel) (String c s) = JsonText.load_int (String c s).
Proof.
  destruct c as [[] [] [] [] [] [] [] []]; vm_compute JsonText.is_digit;
    intros H; try discriminate H; reflexivity.
Qed.

Lemma dump_head (v : json) (lvl : nat) :
  exists c s, JsonText.dump lvl v = String c s /\ JsonText.starts_value c = true.
Proof.
  destruct v as [|[]|n|s|[|x l]|[|[k x] m]];
    try (eexists _, _; split; reflexivity).
  destruct (of_Z_head n) as (c & s & Hs & Hc).
  exists c, s. split; [exact Hs|].
  unfold JsonText.starts_value. rewrite <- !orb_assoc.
  apply orb_prop in Hc as [->| ->]; [reflexivity|].
  rewrite orb_true_r. reflexivity.
Qed.

Lemma skip_ws_dump (v : json) (lvl : nat) (r : string) :
  JsonText.skip_ws (JsonText.dump lvl v ++ r) = (JsonText.dump lvl v ++ r)%string.
Proof.
  destruct (dump_head v lvl) as (c & s & -> & Hc).
  destruct (starts_value_facts c Hc) as (Hws & _).
  rewrite sapp_cons. simpl. rewrite Hws. reflexivity.
Qed.

Lemma dump_arr_cons (lvl : nat) (x : json) (l : list json) :
  JsonText.dump lvl (JArr (x :: l))
  = ("[" ++ JsonText.newline_indent (S lvl) ++ JsonText.dump (S lvl) x
     ++ JsonText.dump_items (S lvl) l ++ JsonText.newline_indent lvl ++ "]")%string.
Proof.
  cbn [JsonText.dump]. do 4 f_equal.
  induction l as [|y l IH]; [reflexivity|].
  cbn [JsonText.dump_items]. rewrite <- IH. reflexivity.
Qed.

Lemma dump_obj_cons (lvl : nat) (k : string) (x : json) (m : list (string * json)) :
  JsonText.dump lvl (JObj ((k, x) :: m))
  = ("{" ++ JsonText.newline_indent (S lvl) ++ JsonText.dump_str k ++ ": "
     ++ JsonText.dump (S lvl) x ++ JsonText.dump_members (S lvl) m
     ++ JsonText.newline_indent lvl ++ "}")%string.
Proof.
  cbn [JsonText.dump]. do 6 f_equal.
  induction m as [|[k' y] m IH]; [reflexivity|].
  cbn [JsonText.dump_members]. rewrite <- IH. reflexivity.
Qed.

Lemma dump_str_app (s rest : string) :
  (JsonText.dump_str s ++ rest
   = String JsonText.dquote (JsonText.escape s ++ String JsonText.dquote rest))%string.
Proof.
  unfold JsonText.dump_str. rewrite sapp_cons, sapp_assoc. reflexivity.
Qed.

(** A dumped string, read back with the fuel [load_value] and [load_members]
    give to [load_chars]. *)
Lemma load_chars_dump_str (s rest : string) :
  JsonText.load_chars
    (String.length
       (String JsonText.dquote (JsonText.escape s ++ String JsonText.dquote rest)))
    (JsonText.escape s ++ String JsonText.dquote rest)
  = Some (s, rest).
Proof.
  apply load_chars_escape. simpl.
  rewrite slength_app. pose proof (escape_length s). lia.
Qed.

Lemma dict_set_fresh (k : string) (v : json) (d : record) :
  ~ In k (List.map fst d) -> JsonText.dict_set k v d = (d ++ [(k, v)])%list.
Proof.
  induction d as [|[k' v'] d IH]; simpl; intros H; [reflexivity|].
  destruct (String.eqb k' k) eqn:Hk.
  - apply String.eqb_eq in Hk. tauto.
  - rewrite IH by tauto. reflexivity.
Qed.

Lemma dict_of_distinct (m acc : list (string * json)) :
  List.NoDup (List.map fst (acc ++ m)) ->
  fold_left (fun d kv => JsonText.dict_set (fst kv) (snd kv) d) m acc
  = (acc ++ m)%list.
Proof.
  revert acc. induction m as [|[k v] m IH]; intros acc H; simpl.
  - rewrite app_nil_r. reflexivity.
  - rewrite dict_set_fresh.
    + rewrite IH; rewrite <- app_assoc; [reflexivity|exact H].
    + rewrite List.map_app in H. simpl in H.
      apply List.NoDup_remove_2 in H. intros Hin. apply H.
      apply in_or_app. left. exact Hin.
Qed.

Lemma ends_value_items (lvl lvl' : nat) (l : list json) (r : string) :
  JsonText.ends_value
    (JsonText.dump_items lvl' l ++ JsonText.newline_indent lvl ++ r) = true.
Proof. destruct l; reflexivity. Qed.

Lemma ends_value_members (lvl lvl' : nat) (m : list (string * json)) (r : string) :
  JsonText.ends_value
    (JsonText.dump_members lvl' m ++ JsonText.newline_indent lvl ++ r) = true.
Proof. destruct m as [|[k y] m]; reflexivity. Qed.

(** The items of an array from the first on, up to the closing bracket. *)
Lemma load_items_dump (lvl lvl' : nat) (rest : string) :
  forall (l : list json) (x : json) (fuel : nat),
    Forall JsonText.reads_back (x :: l) ->
    (list_sum (List.map (fun y => S (JsonText.nodes y)) (x :: l)) <= fuel)%nat ->
    JsonText.load_items fuel
      (JsonText.dump lvl' x ++ JsonText.dump_items lvl' l
       ++ JsonText.newline_indent lvl ++ String "]" rest)
    = Some (x :: l, rest).
Proof.
  induction l as [|y l IH]; intros x fuel Hall Hfuel;
    apply Forall_cons_1 in Hall as [Hx Hl];
    (destruct fuel as [|fuel]; [simpl in Hfuel; lia|]);
    simpl in Hfuel; cbn [JsonText.load_items];
    rewrite (Hx lvl' _ fuel ltac:(lia) (ends_value_items lvl lvl' _ _)).
  - cbn [JsonText.dump_items]. rewrite sapp_nil_l, skip_ws_newline_indent.
    reflexivity.
  - cbn [JsonText.dump_items]. rewrite !sapp_assoc, sapp_cons, sapp_nil_l.
    cbn [JsonText.skip_ws]. change (JsonText.is_ws ",") with false. cbv iota.
    change (Ascii.eqb "," ",") with true. cbv iota.
    rewrite skip_ws_newline_indent, skip_ws_dump.
    rewrite (IH y fuel Hl ltac:(simpl; lia)). reflexivity.
Qed.

(** Evaluate the tests on known characters. *)
Ltac eval_chars :=
  repeat match goal with
    | |- context [Ascii.eqb ?a ?b] =>
        let v := eval vm_compute in (Ascii.eqb a b) in
        match v with true => idtac | false => idtac end;
        change (Ascii.eqb a b) with v
    | |- context [JsonText.is_ws ?a] =>
        let v := eval vm_compute in (JsonText.is_ws a) in
        match v with true => idtac | false => idtac end;
        change (JsonText.is_ws a) with v
    end;
  cbv iota.

(** The members of an object from the first on, up to the closing brace. *)
Lemma load_members_dump (lvl lvl' : nat) (rest : string) :
  forall (m : list (string * json)) (k : string) (x : json) (fuel : nat),
    Forall (fun kv => JsonText.reads_back (snd kv)) ((k, x) :: m) ->
    (list_sum (List.map (fun kv => S (JsonText.nodes (snd kv))) ((k, x) :: m)) <= fuel)%nat ->
    JsonText.load_members fuel
      (JsonText.dump_str k ++ ": " ++ JsonText.dump lvl' x
       ++ JsonText.dump_members lvl' m
       ++ JsonText.newline_indent lvl ++ String "}" rest)
    = Some ((k, x) :: m, rest).
Proof.
  induction m as [|[k' y] m IH]; intros k x fuel Hall Hfuel;
    apply Forall_cons_1 in Hall as [Hx Hm]; cbn [snd] in Hx;
    (destruct fuel as [|fuel]; [simpl in Hfuel; lia|]);
    simpl in Hfuel; rewrite dump_str_app;
    cbn [JsonText.load_members JsonText.expect]; eval_chars;
    rewrite load_chars_dump_str;
    rewrite !sapp_cons, sapp_nil_l;
    do 3 (cbn [JsonText.skip_ws JsonText.expect]; eval_chars);
    rewrite skip_ws_dump;
    rewrite (Hx lvl' _ fuel ltac:(lia) (ends_value_members lvl lvl' _ _)).
  - cbn [JsonText.dump_members]. rewrite sapp_nil_l, skip_ws_newline_indent.
    cbn [JsonText.skip_ws]. eval_chars. reflexivity.
  - cbn [JsonText.dump_members]. rewrite !sapp_assoc, sapp_cons, sapp_nil_l.
    cbn [JsonText.skip_ws]. eval_chars.
    rewrite skip_ws_newline_indent.
    rewrite dump_str_app. cbn [JsonText.skip_ws]. eval_chars.
    rewrite <- dump_str_app.
    rewrite (IH k' y fuel Hm ltac:(simpl; lia)). reflexivity.
Qed.

Lemma expect_close_dump (v : json) (lvl : nat) (r : string) :
  JsonText.expect "]" (JsonText.dump lvl v ++ r) = None.
Proof.
  destruct (dump_head v lvl) as (c & s & -> & Hc).
  destruct (starts_value_facts c Hc) as (_ & Hclose & _).
  rewrite sapp_cons. simpl. rewrite Hclose. reflexivity.
Qed.

(** Every valid value is read back from its text. *)
Lemma valid_reads_back (v : json) : Spec.valid v = true -> JsonText.reads_back v.
Proof.
  induction v as [|b|n|s|l IH|m IH] using json_ind_nested; intros Hvalid;
    unfold JsonText.reads_back; intros lvl rest fuel Hfuel Hrest;
    (destruct fuel as [|fuel]; [simpl in Hfuel; lia|]).
  - reflexivity.
  - destruct b; reflexivity.
  - change (JsonText.dump lvl (JNum n)) with (PyStr.of_Z n).
    destruct (of_Z_head n) as (c & s & Hs & Hc).
    pose proof (load_int_of_Z n rest Hrest) as Hint.
    rewrite Hs in *. rewrite sapp_cons in *.
    rewrite (load_value_number c _ fuel Hc). exact Hint.
  - change (JsonText.dump lvl (JStr s)) with (JsonText.dump_str s).
    rewrite dump_str_app. cbn [JsonText.load_value]. eval_chars.
    rewrite load_chars_dump_str. reflexivity.
  - assert (Hall : Forall JsonText.reads_back l).
    { simpl in Hvalid. rewrite forallb_forall in Hvalid.
      rewrite List.Forall_forall in IH. apply List.Forall_forall.
      intros x Hx. apply IH; [exact Hx|]. apply Hvalid. exact Hx. }
    destruct l as [|x l]; [reflexivity|].
    rewrite dump_arr_cons, !sapp_assoc, sapp_cons, sapp_nil_l.
    cbn [JsonText.load_value]. eval_chars.
    rewrite skip_ws_newline_indent, skip_ws_dump, expect_close_dump.
    rewrite (sapp_cons "]"), sapp_nil_l.
    rewrite (load_items_dump lvl (S lvl) rest l x fuel Hall);
      [reflexivity|simpl in Hfuel; simpl; lia].
  - simpl in Hvalid. apply andb_prop in Hvalid as [Hkeys Hvalid].
    apply bool_decide_eq_true_1 in Hkeys.
    assert (Hall : Forall (fun kv => JsonText.reads_back (snd kv)) m).
    { rewrite forallb_forall in Hvalid.
      rewrite List.Forall_forall in IH. apply List.Forall_forall.
      intros x Hx. apply IH; [exact Hx|]. apply Hvalid. exact Hx. }
    destruct m as [|[k x] m]; [reflexivity|].
    rewrite dump_obj_cons, !sapp_assoc, sapp_cons, sapp_nil_l.
    cbn [JsonText.load_value]. eval_chars.
    rewrite skip_ws_newline_indent.
    rewrite dump_str_app. cbn [JsonText.skip_ws JsonText.expect]. eval_chars.
    rewrite <- dump_str_app.
    rewrite (sapp_cons "}"), sapp_nil_l.
    rewrite (load_members_dump lvl (S lvl) rest m k x fuel Hall);
      [|simpl in Hfuel; simpl; lia].
    unfold JsonText.dict_of.
    rewrite (dict_of_distinct ((k, x) :: m) []); [reflexivity|].
    apply NoDup_ListNoDup. exact Hkeys.
Qed.

Lemma sapp_nil_r (a : string) : (a ++ EmptyString = a)%string.
Proof.
  induction a as [|x a IH]; [reflexivity|]. rewrite sapp_cons. f_equal. exact IH.
Qed.

Lemma newline_indent_length (lvl : nat) :
  (1 <= String.length (JsonText.newline_indent lvl))%nat.
Proof. unfold JsonText.newline_indent. simpl. lia. Qed.

Lemma dump_str_length (s : string) : (1 <= String.length (JsonText.dump_str s))%nat.
Proof. unfold JsonText.dump_str. simpl. lia. Qed.

(** A text is at least as long as the value has nodes, so the fuel [loads]
    takes from the length of the text is enough. *)
Lemma nodes_le_length (v : json) :
  forall lvl, (JsonText.nodes v <= String.length (JsonText.dump lvl v))%nat.
Proof.
  induction v as [|b|n|s|l IH|m IH] using json_ind_nested; intros lvl.
  - simpl. lia.
  - destruct b; simpl; lia.
  - change (JsonText.dump lvl (JNum n)) with (PyStr.of_Z n).
    destruct (of_Z_head n) as (c & s & -> & _). simpl. lia.
  - change (JsonText.dump lvl (JStr s)) with (JsonText.dump_str s).
    pose proof (dump_str_length s). simpl. lia.
  - destruct l as [|x l]; [simpl; lia|].
    rewrite dump_arr_cons. apply Forall_cons_1 in IH as [Hx Hl].
    assert (Hitems : (list_sum (List.map (fun y => S (JsonText.nodes y)) l)
                      <= String.length (JsonText.dump_items (S lvl) l))%nat).
    { induction l as [|y l IHl]; [simpl; lia|].
      apply Forall_cons_1 in Hl as [Hy Hl]. cbn [JsonText.dump_items].
      rewrite !slength_app. specialize (IHl Hl). specialize (Hy (S lvl)).
      pose proof (newline_indent_length (S lvl)). simpl. lia. }
    rewrite !slength_app. specialize (Hx (S lvl)).
    pose proof (newline_indent_length (S lvl)). simpl. lia.
  - destruct m as [|[k x] m]; [simpl; lia|].
    rewrite dump_obj_cons. apply Forall_cons_1 in IH as [Hx Hm]. simpl in Hx.
    assert (Hmembers :
             (list_sum (List.map (fun kv => S (JsonText.nodes (snd kv))) m)
              <= String.length (JsonText.dump_members (S lvl) m))%nat).
    { induction m as [|[k' y] m IHm]; [simpl; lia|].
      apply Forall_cons_1 in Hm as [Hy Hm]. cbn [JsonText.dump_members].
      rewrite !slength_app. specialize (IHm Hm). specialize (Hy (S lvl)).
      pose proof (newline_indent_length (S lvl)). simpl in *. lia. }
    rewrite !slength_app. specialize (Hx (S lvl)).
    pose proof (newline_indent_length (S lvl)). simpl. lia.
Qed.

(** [json.load] reads back what [json.dump] wrote. *)
Lemma loads_dumps (v : json) :
  Spec.valid v = true -> JsonText.loads (JsonText.dumps v) = Some v.
Proof.
  intros Hvalid. unfold JsonText.loads, JsonText.dumps.
  pose proof (skip_ws_dump v 0 EmptyString) as Hskip.
  rewrite sapp_nil_r in Hskip. rewrite Hskip.
  pose proof (valid_reads_back v Hvalid 0 EmptyString
                (S (String.length (JsonText.dump 0 v)))) as Hread.
  rewrite sapp_nil_r in Hread. rewrite Hread; [reflexivity| |reflexivity].
  pose proof (nodes_le_length v 0). lia.
Qed.

End TextFacts.

#[global] Instance text_codec_laws : CodecLaws text_codec.
Proof. constructor. exact loads_dumps. Qed.

(** ** Paths and backup names *)

Section PathFacts.

Lemma rfind_app (c : ascii) (a b : string) :
  PyPath.rfind c (a ++ b)
  = match PyPath.rfind c b with
    | Some i => Some (String.length a + i)%nat
    | None => PyPath.rfind c a
    end.
Proof.
  induction a as [|x a IH]; [rewrite sapp_nil_l; destruct (PyPath.rfind c b); reflexivity|].
  rewrite sapp_cons. cbn [PyPath.rfind]. rewrite IH.
  destruct (PyPath.rfind c b); reflexivity.
Qed.

Lemma rfind_app_none (c : ascii) (a b : string) :
  PyPath.rfind c (a ++ b) = None <->
  PyPath.rfind c a = None /\ PyPath.rfind c b = None.
Proof.
  rewrite rfind_app. destruct (PyPath.rfind c b); split;
    try tauto; try discriminate; intros [_ H]; discriminate H.
Qed.

(** The last occurrence of [c] splits the string around it. *)
Lemma rfind_split (c : ascii) (s : string) (i : nat) :
  PyPath.rfind c s = Some i ->
  exists a b, s = (a ++ String c b)%string /\ String.length a = i
              /\ PyPath.rfind c b = None.
Proof.
  revert i. induction s as [|x s IH]; intros i; [discriminate|].
  cbn [PyPath.rfind]. destruct (PyPath.rfind c s) as [j|] eqn:Hj.
  - intros [= <-]. destruct (IH j eq_refl) as (a & b & -> & <- & Hb).
    exists (String x a), b. auto.
  - destruct (Ascii.eqb x c) eqn:Hx; [|discriminate]. intros [= <-].
    apply Ascii.eqb_eq in Hx. subst x. exists EmptyString, s. auto.
Qed.

Lemma substring_all (s : string) : String.substring 0 (String.length s) s = s.
Proof. induction s as [|x s IH]; simpl; [reflexivity|]. f_equal. exact IH. Qed.

Lemma substring_skip (a s : string) (n m : nat) :
  String.substring (String.length a + n) m (a ++ s) = String.substring n m s.
Proof. induction a as [|x a IH]; [reflexivity|]. rewrite sapp_cons. simpl. exact IH. Qed.

Lemma substring_split (s : string) (i : nat) :
  (i <= String.length s)%nat ->
  (String.substring 0 i s ++ String.substring i (String.length s - i) s = s)%string.
Proof.
  revert i. induction s as [|x s IH]; intros i Hi.
  - destruct i; reflexivity.
  - destruct i as [|i].
    + rewrite sapp_nil_l. apply (substring_all (String x s)).
    + simpl in Hi. simpl. rewrite sapp_cons. f_equal. apply IH. lia.
Qed.

Lemma rfind_last (c : ascii) (a b : string) :
  PyPath.rfind c b = None ->
  PyPath.rfind c (a ++ String c b) = Some (String.length a).
Proof.
  intros Hb. rewrite rfind_app.
  change (PyPath.rfind c (String c b))
    with (match PyPath.rfind c b with
          | Some i => Some (S i)
          | None => if Ascii.eqb c c then Some 0%nat else None
          end).
  rewrite Hb, Ascii.eqb_refl, Nat.add_0_r. reflexivity.
Qed.

Lemma substring_after (a b : string) (c : ascii) :
  String.substring (S (String.length a))
    (String.length (a ++ String c b) - S (String.length a)) (a ++ String c b) = b.
Proof.
  rewrite slength_app. simpl String.length.
  replace (S (String.length a)) with (String.length a + 1)%nat by lia.
  rewrite substring_skip.
  replace (String.length a + S (String.length b) - (String.length a + 1))%nat
    with (String.length b) by lia.
  simpl. apply substring_all.
Qed.

Lemma name_no_slash (p : string) : PyPath.rfind "/" (PyPath.name p) = None.
Proof.
  unfold PyPath.name. destruct (PyPath.rfind "/" p) as [i|] eqn:Hp; [|exact Hp].
  destruct (rfind_split _ _ _ Hp) as (a & b & -> & <- & Hb).
  rewrite substring_after. exact Hb.
Qed.

Lemma name_stem_suffix (p : string) :
  PyPath.name p = (PyPath.stem p ++ PyPath.suffix p)%string.
Proof.
  unfold PyPath.stem, PyPath.suffix, PyPath.suffix_start.
  destruct (PyPath.rfind "." (PyPath.name p)) as [i|]; [|rewrite sapp_nil_r; reflexivity].
  destruct ((0 <? i)%nat && (i <? String.length (PyPath.name p) - 1)%nat) eqn:Hi;
    [|rewrite sapp_nil_r; reflexivity].
  apply andb_prop in Hi as [_ Hi]. apply Nat.ltb_lt in Hi.
  symmetry. apply substring_split. lia.
Qed.

(** A file name joined to a directory is the name of the result. *)
Lemma name_join (dir file : string) :
  PyPath.rfind "/" file = None -> PyPath.name (PyPath.join dir file) = file.
Proof.
  intros Hfile. unfold PyPath.join.
  destruct (String.eqb dir "." || String.eqb dir "").
  - unfold PyPath.name. rewrite Hfile. reflexivity.
  - unfold PyPath.name. rewrite sapp_cons, sapp_nil_l, (rfind_last _ _ _ Hfile).
    apply substring_after.
Qed.

Lemma digit_not_slash (c : ascii) :
  JsonText.is_digit c = true -> Ascii.eqb c "/" = false.
Proof.
  destruct c as [[] [] [] [] [] [] [] []]; vm_compute; intros H;
    try discriminate H; reflexivity.
Qed.

Lemma all_digits_no_slash (s : string) :
  JsonText.all_digits s = true -> PyPath.rfind "/" s = None.
Proof.
  induction s as [|c s IH]; [reflexivity|]. simpl. intros H.
  apply andb_prop in H as [Hc Hs]. rewrite (IH Hs), (digit_not_slash c Hc).
  reflexivity.
Qed.

Lemma zeros_no_slash (k : nat) :
  PyPath.rfind "/" (String.concat "" (repeat "0" k)) = None.
Proof.
  induction k as [|k IH]; [reflexivity|]. destruct k as [|k]; [reflexivity|].
  change (String.concat "" (repeat "0" (S (S k))))
    with ("0" ++ "" ++ String.concat "" (repeat "0" (S k)))%string.
  rewrite sapp_cons, !sapp_nil_l. cbn [PyPath.rfind]. rewrite IH. reflexivity.
Qed.

Lemma digits_no_slash (width n : nat) : PyPath.rfind "/" (PyStr.digits width n) = None.
Proof.
  unfold PyStr.digits, PyStr.pad_left. apply rfind_app_none. split.
  - apply zeros_no_slash.
  - unfold NilZero.string_of_uint.
    destruct (Nat.to_uint n); try reflexivity;
      apply all_digits_no_slash; apply (uint_string_digits (_ _)).
Qed.

Lemma strftime_no_slash (d : datetime) : PyPath.rfind "/" (strftime_compact d) = None.
Proof.
  unfold strftime_compact.
  do 6 (apply rfind_app_none; split; [try apply digits_no_slash; reflexivity|]).
  apply digits_no_slash.
Qed.

(** A backup never takes the place of the file it copies: its name is longer
    than the name of the file. *)
Lemma backup_path_fresh (self : FileManager.t) (timestamp p : string) :
  PyPath.rfind "/" timestamp = None ->
  FileManager.backup_path self timestamp p <> p.
Proof.
  intros Hts Heq. apply (f_equal PyPath.name) in Heq.
  unfold FileManager.backup_path in Heq.
  pose proof (name_no_slash p) as Hname.
  rewrite name_stem_suffix in Hname. apply rfind_app_none in Hname as [Hstem Hsuffix].
  rewrite name_join in Heq.
  - rewrite (name_stem_suffix p) in Heq.
    apply (f_equal String.length) in Heq. rewrite !slength_app in Heq.
    simpl in Heq. lia.
  - do 3 (apply rfind_app_none; split; [assumption || reflexivity|]).
    exact Hsuffix.
Qed.

Lemma pre_save_backup_path_fresh {codec : JsonCodec} (self : FileManager.t)
    (p : string) (w : world) :
  pre_save_backup_path self p w <> p.
Proof.
  apply backup_path_fresh. apply rfind_app_none. split;
    [apply strftime_no_slash|reflexivity].
Qed.

End PathFacts.

(** ** Record Store *)

Section StoreFacts.
Context {codec : JsonCodec}.

(** [load_json_data] never raises: without a file it answers the empty list
    at once; with one it makes one call to the operating system and answers
    what the file holds, the empty list when the call fails, when the text is
    no JSON and when the JSON is no array. *)
Lemma load_json_data_spec (self : FileManager.t) (p : string) (w : world) :
  FileManager.load_json_data self p w
  = match fs w !! p with
    | None => (Ok [], w)
    | Some _ =>
        (Ok (if fails (env w (tick w)) then [] else stored (fs w) p),
         after 1 (fs w) w)
    end.
Proof.
  unfold FileManager.load_json_data, try_except, bind, path_exists, ret, stored.
  destruct (fs w !! p) as [c|] eqn:Hp.
  - rewrite bool_decide_eq_true_2 by eauto. simpl.
    unfold read_json, bind, syscall, raise. simpl.
    destruct (fails (env w (tick w))); simpl; [reflexivity|].
    rewrite Hp. destruct (json_load c) as [[]|]; reflexivity.
  - rewrite bool_decide_eq_false_2 by (intros [? ?]; discriminate). reflexivity.
Qed.

Lemma backup_json_files_pre_save (self : FileManager.t) (p : string) (w : world) :
  snd (FileManager.backup_json_files self [p] (Some "pre_save") w)
  = match fs w !! p with
    | Some _ => backed_up self p w
    | None => after 1 (fs w) w
    end
  /\ exists results,
      fst (FileManager.backup_json_files self [p] (Some "pre_save") w) = Ok results.
Proof.
  unfold FileManager.backup_json_files, datetime_now, bind, syscall, ret, backed_up,
    pre_save_backup_path.
  simpl. unfold bind, path_exists, try_except, ret. simpl.
  destruct (fs w !! p) as [old|] eqn:Hp.
  - rewrite bool_decide_eq_true_2 by eauto. simpl.
    unfold copy2, bind, syscall, raise, put_file. simpl.
    destruct (fails (env w (S (tick w)))); simpl; [eauto|].
    destruct (String.eqb p _); simpl; [eauto|].
    rewrite Hp. simpl. eauto.
  - rewrite bool_decide_eq_false_2 by (intros [? ?]; discriminate). simpl. eauto.
Qed.

(** [save_json_data] never raises: after the backup step it makes one call to
    the operating system; when the call fails the file is left as it was and
    the answer is [False], otherwise the file holds the dumped list and the
    answer is [True]. *)
Lemma save_json_data_spec (self : FileManager.t) (p : string) (data : list json)
    (create_backup : bool) (w : world) :
  FileManager.save_json_data self p data create_backup w
  = let w1 := if create_backup then backed_up self p w else w in
    if fails (env w1 (tick w1)) then (Ok false, after 1 (fs w1) w1)
    else (Ok true, after 1 (<[ p := json_dump (JArr data) ]> (fs w1)) w1).
Proof.
  unfold FileManager.save_json_data, try_except.
  unfold bind at 1. unfold path_exists at 1.
  destruct (backup_json_files_pre_save self p w) as [Hw [results Hr]].
  destruct create_backup; simpl.
  - unfold backed_up in *. destruct (fs w !! p) as [old|] eqn:Hp.
    + rewrite bool_decide_eq_true_2 by eauto.
      unfold bind at 1. unfold bind at 1.
      destruct (FileManager.backup_json_files self [p] (Some "pre_save") w)
        as [r w1] eqn:Hb.
      simpl in Hw, Hr. subst r w1. unfold ret at 1.
      unfold write_json, bind, syscall, raise, put_file, ret.
      destruct (fails (env w (S (tick w))) || String.eqb p _); simpl;
        destruct (fails (env w (S (S (tick w))))); reflexivity.
    + rewrite bool_decide_eq_false_2 by (intros [? ?]; discriminate).
      unfold bind, ret, write_json, bind, syscall, raise, put_file. simpl.
      destruct (fails (env w (tick w))); reflexivity.
  - unfold bind, ret, write_json, bind, syscall, raise, put_file. simpl.
    destruct (fails (env w (tick w))); reflexivity.
Qed.

End StoreFacts.

Section StoreClaims.
Context {codec : JsonCodec}.

(** C5 (amended). [load_json_data] returns the empty list when no file exists
    at the location, and this is no error; when a file exists but cannot be
    read, or its content is not valid JSON, or is not a JSON array, it also
    returns the empty list: no [ParseError] or any other exception reaches the
    caller; on success it returns the elements of the array in their order on
    disk. *)
Theorem load_returns_stored_or_empty (self : FileManager.t) (p : string) (w : world) :
  fst (FileManager.load_json_data self p w)
  = Ok match fs w !! p with
       | None => []
       | Some c =>
           if fails (env w (tick w)) then []
           else match json_load c with
                | Some (JArr l) => l
                | _ => []
                end
       end.
Proof.
  rewrite load_json_data_spec. unfold stored.
  destruct (fs w !! p) as [c|]; reflexivity.
Qed.


(** C4. For every valid record list, when [save_json_data] answers [True],
    a [load_json_data] of the same location that is able to read the file
    returns the list that was saved: the same records, in the same order. *)
Theorem save_then_load_round_trip {laws : CodecLaws codec} (self : FileManager.t)
    (p : string) (records : list json) (create_backup : bool) (w : world) :
  forallb Spec.valid records = true ->
  fst (FileManager.save_json_data self p records create_backup w) = Ok true ->
  let w1 := snd (FileManager.save_json_data self p records create_backup w) in
  fails (env w1 (tick w1)) = false ->
  fst (FileManager.load_json_data self p w1) = Ok records.
Proof.
  intros Hvalid. rewrite save_json_data_spec. cbv zeta.
  destruct (fails (env _ _)); [discriminate|]. intros _. simpl snd.
  intros Hread. rewrite load_json_data_spec. cbn [after fs].
  rewrite lookup_insert_eq. cbn [fst].
  rewrite Hread.
  unfold stored. rewrite lookup_insert_eq, load_dump by exact Hvalid. reflexivity.
Qed.

End StoreClaims.

(** C5 as stated fails: on a file whose text is not JSON, and on one that
    holds a JSON object, [load_json_data] returns the empty list; it raises
    nothing. *)
Lemma load_of_unreadable_text_is_empty :
  JsonText.loads "not json" = None
  /\ fst (FileManager.load_json_data Sample.file_manager Sample.addon_file
            (Sample.world_of {[ Sample.addon_file := "not json" ]} [])) = Ok []
  /\ JsonText.loads "{}" = Some (JObj [])
  /\ fst (FileManager.load_json_data Sample.file_manager Sample.addon_file
            (Sample.world_of {[ Sample.addon_file := "{}" ]} [])) = Ok [].
Proof. repeat split; vm_compute; reflexivity. Qed.



Lemma save_then_load_round_trip_witness :
  fst (FileManager.load_json_data Sample.file_manager Sample.addon_file
         (snd (FileManager.save_json_data Sample.file_manager Sample.addon_file
                 [JObj Sample.orphan; JObj Sample.theme_b_minimal] true
                 (Sample.world_of
                    {[ Sample.addon_file := JsonText.dumps (JArr [JObj Sample.orphan]) ]}
                    []))))
  = Ok [JObj Sample.orphan; JObj Sample.theme_b_minimal].
Proof.
  refine (save_then_load_round_trip Sample.file_manager Sample.addon_file
            [JObj Sample.orphan; JObj Sample.theme_b_minimal] true
            (Sample.world_of
               {[ Sample.addon_file := JsonText.dumps (JArr [JObj Sample.orphan]) ]} [])
            _ _ _).
  - vm_compute. reflexivity.
  - vm_compute. reflexivity.
  - reflexivity.
Defined.

(** ** Batch Session *)

Section SessionFacts.
Context {codec : JsonCodec}.

(** One turn of the loop: the tally moves by one in exactly one of its three
    counts, according to the builder's outcome; a failure adds its message. *)
Lemma process_entry_spec (builder : record -> M (option record))
    (official_entry : record) (res : results) (data : list json) (w : world) :
  BatchProcessor.process_entry builder official_entry (res, data) w
  = (Ok (match outcome_of (fst (builder official_entry w)) with
         | Produced entry =>
             ({| processed := S (processed res); skipped := skipped res;
                 errors := errors res;
                 created_entries := created_entries res ++ [entry];
                 error_details := error_details res |},
              data ++ [JObj entry])
         | NoRecord =>
             ({| processed := processed res; skipped := S (skipped res);
                 errors := errors res;
                 created_entries := created_entries res;
                 error_details := error_details res |}, data)
         | Failed e =>
             ({| processed := processed res; skipped := skipped res;
                 errors := S (errors res);
                 created_entries := created_entries res;
                 error_details :=
                   error_details res
                   ++ [BatchProcessor.error_message official_entry e] |}, data)
         end),
     snd (builder official_entry w)).
Proof.
  unfold BatchProcessor.process_entry, try_except, bind, ret, outcome_of.
  destruct (builder official_entry w) as [[[entry|]|e] w']; simpl; try reflexivity.
  destruct entry; reflexivity.
Qed.

(** The loop over the queue: it ends without raising, and its tally counts
    the outcomes. *)
Lemma process_entries_spec (builder : record -> M (option record)) :
  forall (queue : list record) (res : results) (data : list json) (w : world),
    let outs := outcomes builder queue w in
    BatchProcessor.process_entries builder queue (res, data) w
    = (Ok ({| processed := processed res + length (produced_entries outs);
              skipped := skipped res + count_skipped outs;
              errors := errors res + length (failure_messages queue outs);
              created_entries := created_entries res ++ produced_entries outs;
              error_details := error_details res ++ failure_messages queue outs |},
           data ++ List.map JObj (produced_entries outs)),
       world_after builder queue w).
Proof.
  induction queue as [|official_entry queue IH]; intros res data w.
  - simpl. unfold ret. rewrite !Nat.add_0_r, !app_nil_r. destruct res; reflexivity.
  - cbn [BatchProcessor.process_entries outcomes world_after].
    unfold bind. rewrite process_entry_spec.
    destruct (outcome_of (fst (builder official_entry w))) as [entry| |e];
      rewrite IH; simpl; rewrite ?Nat.add_succ_r, <- ?app_assoc; reflexivity.
Qed.

Lemma outcomes_length (builder : record -> M (option record)) :
  forall (queue : list record) (w : world),
    length (outcomes builder queue w) = length queue.
Proof.
  induction queue as [|r queue IH]; intros w; simpl; [reflexivity|].
  rewrite IH. reflexivity.
Qed.


(** The session around any builder: it returns a tally, never an exception. *)
Lemma run_session_spec (builder : record -> M (option record))
    (self : BatchProcessor.t) (w : world) :
  exists saved : bool,
    fst (BatchProcessor.run_session builder self w)
    = Ok match DataSynchronizer.find_missing_addon_entries
                 (BatchProcessor.synchronizer self) with
         | Raise e =>
             {| processed := 0; skipped := 0; errors := 1;
                created_entries := []; error_details := [exn_msg e] |}
         | Ok queue =>
             let outs :=
               outcomes builder queue
                 (snd (BatchProcessor.load_addon_data self w)) in
             {| processed := length (produced_entries outs);
                skipped := count_skipped outs;
                errors := length (failure_messages queue outs)
                          + (if saved then 0 else 1);
                created_entries := produced_entries outs;
                error_details := failure_messages queue outs |}
         end.
Proof.
  unfold BatchProcessor.run_session.
  destruct (DataSynchronizer.find_missing_addon_entries _) as [[|r queue]|e].
  - exists true. reflexivity.
  - unfold bind.
    destruct (BatchProcessor.load_addon_data self w) as [[data|e] w1] eqn:Hload.
    + rewrite process_entries_spec. cbv zeta.
      set (outs := outcomes builder (r :: queue) w1).
      cbn [processed skipped errors created_entries error_details
             BatchProcessor.no_results Nat.add app snd].
      destruct (0 <? length (produced_entries outs))%nat.
      * unfold BatchProcessor.save_addon_data.
        match goal with
        | |- context [FileManager.save_json_data ?fm ?p ?d ?b ?w0] =>
            rewrite (save_json_data_spec fm p d b w0)
        end.
        cbv zeta. destruct (fails (env _ _)).
        -- exists false. cbn. rewrite Nat.add_1_r. reflexivity.
        -- exists true. cbn. rewrite Nat.add_0_r. reflexivity.
      * exists true. cbn. rewrite Nat.add_0_r. reflexivity.
    + unfold BatchProcessor.load_addon_data in Hload.
      rewrite load_json_data_spec in Hload.
      destruct (fs w !! _); discriminate Hload.
  - exists true. reflexivity.
Qed.

End SessionFacts.

Section BuilderFacts.
Context {codec : JsonCodec}.

Lemma terminal_ret {A} (a : A) : terminal_only (ret a).
Proof. intros w. auto. Qed.

Lemma terminal_lift {A} (r : result A) : terminal_only (lift r).
Proof. intros w. auto. Qed.

Lemma terminal_input : terminal_only input.
Proof. intros w. unfold input. destruct (stdin w); auto. Qed.

Lemma terminal_side : terminal_only BatchProcessor.input_side_screenshots.
Proof.
  intros w. unfold BatchProcessor.input_side_screenshots.
  destruct (BatchProcessor.read_side_screenshots (stdin w) []). auto.
Qed.

Lemma terminal_bind {A B} (m : M A) (k : A -> M B) :
  terminal_only m -> (forall a, terminal_only (k a)) -> terminal_only (bind m k).
Proof.
  intros Hm Hk w. unfold bind. specialize (Hm w).
  destruct (m w) as [[a|e] w1]; simpl in *; [|exact Hm].
  specialize (Hk a w1). destruct Hm as (H1 & H2 & H3), Hk as (K1 & K2 & K3).
  repeat split; congruence.
Qed.

Ltac terminal :=
  repeat first
    [ apply terminal_ret | apply terminal_lift | apply terminal_input
    | apply terminal_side
    | apply terminal_bind; [|intros ?]
    | match goal with
      | |- terminal_only (if ?b then _ else _) => destruct b
      | |- terminal_only (match ?x with _ => _ end) => destruct x
      end ].

(** The prompts read the terminal and nothing else. *)
Lemma prompt_entry_terminal (accept_skip : bool) (self : BatchProcessor.t)
    (official_entry : record) :
  terminal_only (BatchProcessor.prompt_entry accept_skip self official_entry).
Proof. unfold BatchProcessor.prompt_entry. terminal. Qed.

Lemma interactive_entry_builder_terminal (self : BatchProcessor.t)
    (official_entry : record) :
  terminal_only (BatchProcessor.interactive_entry_builder self official_entry).
Proof.
  unfold BatchProcessor.interactive_entry_builder.
  apply terminal_bind; [apply prompt_entry_terminal|intros ?]. terminal.
Qed.

Lemma answers_ret {A} (a : A) (Q : A -> Prop) : Q a -> answers (ret a) Q.
Proof. intros H w b [= <-]. exact H. Qed.

Lemma answers_bind {A B} (m : M A) (k : A -> M B) (Q : B -> Prop) :
  (forall a, answers (k a) Q) -> answers (bind m k) Q.
Proof.
  intros Hk w b. unfold bind. destruct (m w) as [[a|e] w1]; [|discriminate].
  apply Hk.
Qed.



Lemma calm_later (w w' : world) :
  calm w -> env w' = env w -> (tick w <= tick w')%nat -> calm w'.
Proof.
  intros Hcalm Henv Htick n Hn. rewrite Henv. apply Hcalm. lia.
Qed.

Lemma calm_now (w w' : world) :
  calm w -> env w' = env w -> (tick w <= tick w')%nat ->
  fails (env w' (tick w')) = false.
Proof.
  intros Hcalm Henv Htick. apply (calm_later w w' Hcalm Henv Htick). lia.
Qed.

Lemma backed_up_later (self : FileManager.t) (p : string) (w : world) :
  env (backed_up self p w) = env w /\ (tick w <= tick (backed_up self p w))%nat.
Proof.
  unfold backed_up. destruct (fs w !! p); [|auto].
  destruct (_ || _); simpl; split; auto; lia.
Qed.

Lemma valid_get_or (k : string) (dflt : json) (d : record) :
  Spec.valid (JObj d) = true -> Spec.valid dflt = true ->
  Spec.valid (Py.get_or k dflt d) = true.
Proof.
  intros Hd Hdflt. unfold Py.get_or. cbn [Spec.valid] in Hd.
  apply andb_prop in Hd as [_ Hd].
  induction d as [|[k' v] d IH]; simpl; [exact Hdflt|].
  simpl in Hd. apply andb_prop in Hd as [Hv Hd].
  destruct (String.eqb k' k); [exact Hv|]. apply IH. exact Hd.
Qed.

Lemma valid_strings (l : list string) : forallb Spec.valid (List.map JStr l) = true.
Proof. induction l; simpl; auto. Qed.

Lemma valid_addon_entry (repo main : json) (side tags : list string) :
  Spec.valid repo = true -> Spec.valid main = true ->
  Spec.valid (JObj (BatchProcessor.addon_entry_of repo main side tags)) = true.
Proof.
  intros Hrepo Hmain. unfold BatchProcessor.addon_entry_of.
  cbn [Spec.valid List.map fst snd forallb].
  rewrite Hrepo, Hmain, !valid_strings.
  rewrite bool_decide_eq_true_2; [reflexivity|].
  repeat (apply NoDup_cons_2; [set_solver|]). apply NoDup_nil_2.
Qed.

Lemma forallb_valid_app (l1 l2 : list json) :
  forallb Spec.valid l1 = true -> forallb Spec.valid l2 = true ->
  forallb Spec.valid (l1 ++ l2) = true.
Proof. intros H1 H2. rewrite forallb_app, H1, H2. reflexivity. Qed.

Lemma stored_saved {laws : CodecLaws codec} (disk : gmap string content)
    (p : string) (l : list json) :
  forallb Spec.valid l = true ->
  stored (<[ p := json_dump (JArr l) ]> disk) p = l.
Proof.
  intros Hl. unfold stored. rewrite lookup_insert_eq, load_dump by exact Hl.
  reflexivity.
Qed.


End BuilderFacts.

Section SessionClaims.
Context {codec : JsonCodec}.



End SessionClaims.

(** A session of [batch_processor.py] over three missing records: the
    operator builds the first, skips the second, and the builder raises on the
    third, whose [modes] is a number. *)
Example session_with_one_of_each :
  fst (BatchProcessor.process_missing_entries_interactive
         (Sample.processor [Sample.theme_b; Sample.theme_d; Sample.theme_broken] [])
         (Sample.world_of ∅ ["sleek"; ""; ""; "y"; "skip"]))
  = Ok {| processed := 1; skipped := 1; errors := 1;
          created_entries := [Sample.entry_b];
          error_details :=
            ["Error processing e/f: argument of type 'int' is not iterable"] |}.
Proof. vm_compute. reflexivity. Qed.

(** The operator's lines run out during the second record: [input] raises
    [EOFError], the session counts it and still returns. *)
Example session_at_end_of_input :
  fst (BatchProcessor.process_missing_entries_interactive
         (Sample.processor [Sample.theme_b; Sample.theme_d] [])
         (Sample.world_of ∅ ["sleek"; ""; ""; "y"; "calm"]))
  = Ok {| processed := 1; skipped := 0; errors := 1;
          created_entries := [Sample.entry_b];
          error_details := ["Error processing c/d: EOF when reading a line"] |}.
Proof. vm_compute. reflexivity. Qed.



(** What that run leaves on disk between the records and at the end. *)
Example debloated_store_after_each_record :
  stored (fs (world_after
                (Debloated.interactive_entry_builder
                   (Sample.processor [Sample.theme_b; Sample.theme_d] []))
                [Sample.theme_b]
                (Sample.world_of ∅ ["sleek"; ""; ""; "calm"; ""; ""])))
    Sample.addon_file
  = [JObj Sample.entry_b]
  /\ stored (fs (world_after
                   (Debloated.interactive_entry_builder
                      (Sample.processor [Sample.theme_b; Sample.theme_d] []))
                   [Sample.theme_b; Sample.theme_d]
                   (Sample.world_of ∅ ["sleek"; ""; ""; "calm"; ""; ""])))
       Sample.addon_file
     = [JObj Sample.entry_b; JObj Sample.entry_d].
Proof. split; vm_compute; reflexivity. Qed.


(** ** Reconciler: orphans, lookup and templates *)

Section ReconcilerMore.

Lemma find_orphaned_is_key_difference_aux (official addon : list record) :
  forallb Spec.keyed official = true ->
  forallb Spec.keyed addon = true ->
  DataSynchronizer.find_orphaned_addon_entries
    (DataSynchronizer.Build official addon)
  = Ok (Spec.find_orphaned official addon).
Proof.
  intros Ho Ha.
  unfold DataSynchronizer.find_orphaned_addon_entries,
    DataSynchronizer.get_official_repos, DataSynchronizer.get_addon_repos.
  simpl. rewrite (add_repos_keyed official ∅ Ho), (add_repos_keyed addon ∅ Ha).
  simpl. rewrite entries_in_keyed; [|assumption|set_solver].
  f_equal. unfold Spec.find_orphaned. apply filter_ext_in_bool.
  intros r _. destruct (Spec.key_of r) as [k|]; [|reflexivity].
  apply bool_decide_ext. set_solver.
Qed.

Lemma elem_of_key_set (k : string) (l : list record) :
  k ∈ Spec.key_set l <-> exists r, In r l /\ Spec.key_of r = Some k.
Proof.
  unfold Spec.key_set. rewrite elem_of_list_to_set, list_elem_of_omap.
  split; intros (r & Hr & Hk); exists r; split; try assumption.
  - apply list_elem_of_In. exact Hr.
  - apply list_elem_of_In. exact Hr.
Qed.

Lemma is_str_key_of (k : string) (r : record) :
  Py.is_str k (Py.get "repo" r) = true <-> Spec.key_of r = Some k.
Proof.
  unfold Py.is_str, Py.get, Py.get_or, Spec.key_of.
  destruct (Py.dict_get "repo" r) as [[| | |s| |]|]; simpl;
    try (split; intros H; discriminate H).
  rewrite String.eqb_eq. split; [intros ->; reflexivity|intros [= ->]; reflexivity].
Qed.

Lemma find_key_none (k : string) (l : list record) :
  List.find (fun theme => Py.is_str k (Py.get "repo" theme)) l = None
  <-> k ∉ Spec.key_set l.
Proof.
  rewrite elem_of_key_set. split.
  - intros Hnone (r & Hr & Hk).
    pose proof (find_none _ _ Hnone r Hr) as H. simpl in H.
    apply is_str_key_of in Hk. congruence.
  - intros Hno. destruct (List.find _ l) as [r|] eqn:Hf; [|reflexivity].
    apply find_some in Hf as [Hr Hk]. apply is_str_key_of in Hk.
    exfalso. apply Hno. exists r. auto.
Qed.


Lemma find_missing_nil_iff (official addon : list record) :
  Spec.find_missing official addon = [] <->
  Spec.key_set official ⊆ Spec.key_set addon.
Proof.
  unfold Spec.find_missing. split.
  - intros Hnil k Hk. apply elem_of_key_set in Hk as (r & Hr & Hkey).
    destruct (decide (k ∈ Spec.key_set addon)) as [Hin|Hout]; [exact Hin|].
    exfalso.
    assert (Hf : In r (List.filter
                         (fun r => match Spec.key_of r with
                                   | Some k => bool_decide
                                       (k ∈ Spec.key_set official ∖ Spec.key_set addon)
                                   | None => false
                                   end) official)).
    { apply filter_In. split; [exact Hr|]. rewrite Hkey.
      apply bool_decide_eq_true_2. apply elem_of_difference. split; [|exact Hout].
      apply elem_of_key_set. exists r. auto. }
    rewrite Hnil in Hf. exact Hf.
  - intros Hsub. induction official as [|r official IH]; [reflexivity|].
    destruct (List.filter _ (r :: official)) as [|x xs] eqn:Hf; [reflexivity|].
    exfalso.
    assert (Hx : In x (x :: xs)) by (left; reflexivity).
    rewrite <- Hf in Hx. apply filter_In in Hx as [_ Hx].
    destruct (Spec.key_of x) as [k|]; [|discriminate].
    apply bool_decide_eq_true_1 in Hx. set_solver.
Qed.

End ReconcilerMore.

(** X1. For record lists of the data model, [find_orphaned_addon_entries]
    returns exactly the addon records whose [repo] lies in the addon key set
    minus the official key set, in the order of the addon list; addon records
    without [repo] are never orphans. *)
Theorem find_orphaned_is_key_difference (official addon : list record) :
  forallb Spec.keyed official = true ->
  forallb Spec.keyed addon = true ->
  DataSynchronizer.find_orphaned_addon_entries
    (DataSynchronizer.Build official addon)
  = Ok (Spec.find_orphaned official addon).
Proof. exact (find_orphaned_is_key_difference_aux official addon). Qed.

Lemma find_orphaned_is_key_difference_witness :
  DataSynchronizer.find_orphaned_addon_entries
    (DataSynchronizer.Build [Sample.theme_b]
       [Sample.theme_b_minimal; [("tags", JArr [])]; Sample.orphan])
  = Ok [Sample.orphan].
Proof.
  rewrite (find_orphaned_is_key_difference [Sample.theme_b]
             [Sample.theme_b_minimal; [("tags", JArr [])]; Sample.orphan]);
    [|reflexivity|reflexivity].
  vm_compute. reflexivity.
Defined.

(** X3. [get_theme_by_repo] returns the first theme of the chosen list whose
    [repo] is the given string: no theme before it has that key; and it
    returns [None] exactly when no theme of the list has that key. *)
Theorem get_theme_by_repo_finds_key (self : DataSynchronizer.t) (repo source : string) :
  let data := if String.eqb source "official"
              then DataSynchronizer._official_data self
              else DataSynchronizer._addon_data self in
  match DataSynchronizer.get_theme_by_repo self repo source with
  | Some theme =>
      exists before after,
        data = before ++ theme :: after
        /\ Spec.key_of theme = Some repo
        /\ repo ∉ Spec.key_set before
  | None => repo ∉ Spec.key_set data
  end.
Proof.
  intros data. unfold DataSynchronizer.get_theme_by_repo. fold data.
  clearbody data. induction data as [|r data IH]; simpl.
  - unfold Spec.key_set. simpl. set_solver.
  - destruct (Py.is_str repo (Py.get "repo" r)) eqn:Hr.
    + exists [], data. split; [reflexivity|]. split.
      * apply is_str_key_of. exact Hr.
      * unfold Spec.key_set. simpl. set_solver.
    + assert (Hk : Spec.key_of r <> Some repo).
      { intros Hk. apply is_str_key_of in Hk. congruence. }
      destruct (List.find _ data) as [theme|].
      * destruct IH as (before & after & -> & Hkey & Hfresh).
        exists (r :: before), after. split; [reflexivity|]. split; [exact Hkey|].
        rewrite key_set_cons. destruct (Spec.key_of r) as [k|]; [|exact Hfresh].
        set_solver.
      * rewrite key_set_cons. destruct (Spec.key_of r) as [k|]; [|exact IH].
        set_solver.
Qed.

(** X2. For record lists of the data model, an official theme is reported
    missing by [find_missing_addon_entries] exactly when its [repo] is a
    string for which [get_theme_by_repo(repo, "addon")] finds nothing. *)
Theorem missing_iff_no_addon_theme (official addon : list record) :
  forallb Spec.keyed official = true ->
  forallb Spec.keyed addon = true ->
  let self := DataSynchronizer.Build official addon in
  DataSynchronizer.find_missing_addon_entries self
  = Ok (List.filter
          (fun theme =>
             match Py.get "repo" theme with
             | JStr repo =>
                 match DataSynchronizer.get_theme_by_repo self repo "addon" with
                 | None => true
                 | Some _ => false
                 end
             | _ => false
             end) official).
Proof.
  intros Ho Ha self. subst self.
  rewrite find_missing_is_key_difference_aux by assumption.
  f_equal. unfold Spec.find_missing. apply filter_ext_in_bool.
  intros r Hr. unfold Spec.key_of, Py.get, Py.get_or.
  destruct (Py.dict_get "repo" r) as [[| | |k| |]|] eqn:Hget; try reflexivity.
  unfold DataSynchronizer.get_theme_by_repo. simpl.
  destruct (List.find _ addon) as [th|] eqn:Hf.
  - apply bool_decide_eq_false_2. intros Hin.
    apply elem_of_difference in Hin as [_ Hout]. apply Hout.
    apply find_some in Hf as [Hth Hk]. apply is_str_key_of in Hk.
    apply elem_of_key_set. exists th. auto.
  - apply bool_decide_eq_true_2. apply elem_of_difference. split.
    + apply elem_of_key_set. exists r. split; [exact Hr|].
      unfold Spec.key_of. rewrite Hget. reflexivity.
    + apply find_key_none. exact Hf.
Qed.

Lemma missing_iff_no_addon_theme_witness :
  DataSynchronizer.find_missing_addon_entries
    (DataSynchronizer.Build [Sample.theme_b; Sample.theme_d] [Sample.theme_b_minimal])
  = Ok [Sample.theme_d].
Proof.
  rewrite (missing_iff_no_addon_theme [Sample.theme_b; Sample.theme_d]
             [Sample.theme_b_minimal]); [|reflexivity|reflexivity].
  vm_compute. reflexivity.
Defined.

Section TemplateFacts.

Lemma key_of_template (r : record) (k : string) :
  Spec.key_of r = Some k ->
  Spec.key_of (DataSynchronizer.create_addon_template r) = Some k.
Proof.
  unfold Spec.key_of, DataSynchronizer.create_addon_template, Py.get, Py.get_or.
  simpl. destruct (Py.dict_get "repo" r) as [[| | |s| |]|]; auto; discriminate.
Qed.

Lemma find_missing_keys (official addon : list record) (r : record) :
  In r (Spec.find_missing official addon) ->
  exists k, Spec.key_of r = Some k /\ k ∈ Spec.key_set official
            /\ k ∉ Spec.key_set addon.
Proof.
  unfold Spec.find_missing. intros Hr. apply filter_In in Hr as [_ Hr].
  destruct (Spec.key_of r) as [k|]; [|discriminate].
  apply bool_decide_eq_true_1 in Hr. apply elem_of_difference in Hr.
  exists k. tauto.
Qed.

Lemma key_set_app (l1 l2 : list record) :
  Spec.key_set (l1 ++ l2) = Spec.key_set l1 ∪ Spec.key_set l2.
Proof.
  induction l1 as [|r l1 IH]; simpl.
  - unfold Spec.key_set at 2. simpl. set_solver.
  - change ((r :: l1) ++ l2) with (r :: (l1 ++ l2)).
    rewrite !key_set_cons, IH. destruct (Spec.key_of r); set_solver.
Qed.

Lemma key_set_templates (official addon : list record) :
  Spec.key_set (List.map DataSynchronizer.create_addon_template
                  (Spec.find_missing official addon))
  = Spec.key_set official ∖ Spec.key_set addon.
Proof.
  apply set_eq. intros k. rewrite elem_of_key_set, elem_of_difference. split.
  - intros (t & Ht & Hk). apply in_map_iff in Ht as (r & <- & Hr).
    apply find_missing_keys in Hr as (k' & Hk' & Hin & Hout).
    rewrite (key_of_template r k' Hk') in Hk. injection Hk as <-. auto.
  - intros [Hin Hout]. apply elem_of_key_set in Hin as (r & Hr & Hk).
    exists (DataSynchronizer.create_addon_template r). split.
    + apply in_map. unfold Spec.find_missing. apply filter_In. split; [exact Hr|].
      rewrite Hk. apply bool_decide_eq_true_2. apply elem_of_difference.
      split; [|exact Hout]. apply elem_of_key_set. exists r. auto.
    + apply key_of_template. exact Hk.
Qed.

Lemma keyed_templates (official addon : list record) :
  forallb Spec.keyed
    (List.map DataSynchronizer.create_addon_template
       (Spec.find_missing official addon)) = true.
Proof.
  apply forallb_forall. intros t Ht. apply in_map_iff in Ht as (r & <- & Hr).
  apply find_missing_keys in Hr as (k & Hk & _).
  apply (key_of_template r k) in Hk. unfold Spec.keyed, Spec.key_of in *.
  destruct (Py.dict_get "repo" (DataSynchronizer.create_addon_template r))
    as [[| | |s| |]|]; try discriminate; reflexivity.
Qed.

Lemma filter_none {A} (f : A -> bool) (l : list A) :
  (forall x, In x l -> f x = false) -> List.filter f l = [].
Proof.
  induction l as [|x l IH]; intros H; simpl; [reflexivity|].
  rewrite (H x) by (left; reflexivity). apply IH.
  intros y Hy. apply H. right. exact Hy.
Qed.

End TemplateFacts.

(** X4. Appending to the addon list the [create_addon_template] of every
    entry that [find_missing_addon_entries] reports closes the gap: on the
    extended addon list nothing is missing any more, and the orphans are the
    ones there were before. *)
Theorem templates_close_the_gap (official addon missing : list record) :
  forallb Spec.keyed official = true ->
  forallb Spec.keyed addon = true ->
  DataSynchronizer.find_missing_addon_entries
    (DataSynchronizer.Build official addon) = Ok missing ->
  let addon' := addon ++ List.map DataSynchronizer.create_addon_template missing in
  DataSynchronizer.find_missing_addon_entries
    (DataSynchronizer.Build official addon') = Ok []
  /\ DataSynchronizer.find_orphaned_addon_entries
       (DataSynchronizer.Build official addon')
     = DataSynchronizer.find_orphaned_addon_entries
         (DataSynchronizer.Build official addon).
Proof.
  intros Ho Ha Hm addon'. subst addon'.
  rewrite find_missing_is_key_difference_aux in Hm by assumption.
  injection Hm as <-.
  assert (Ha' : forallb Spec.keyed
                  (addon ++ List.map DataSynchronizer.create_addon_template
                              (Spec.find_missing official addon)) = true).
  { rewrite forallb_app, Ha, keyed_templates. reflexivity. }
  rewrite find_missing_is_key_difference_aux by assumption.
  rewrite !find_orphaned_is_key_difference_aux by assumption.
  split; f_equal.
  - apply find_missing_nil_iff. rewrite key_set_app, key_set_templates.
    intros k Hk. destruct (decide (k ∈ Spec.key_set addon)); set_solver.
  - unfold Spec.find_orphaned. rewrite key_set_app, key_set_templates.
    rewrite List.filter_app, (filter_none _ (List.map _ _)), app_nil_r.
    + apply filter_ext_in_bool. intros r _.
      destruct (Spec.key_of r) as [k|]; [|reflexivity].
      apply bool_decide_ext. set_solver.
    + intros t Ht. apply in_map_iff in Ht as (r & <- & Hr).
      apply find_missing_keys in Hr as (k & Hk & Hin & Hout).
      rewrite (key_of_template r k Hk). apply bool_decide_eq_false_2. set_solver.
Qed.

Lemma templates_close_the_gap_witness :
  DataSynchronizer.find_missing_addon_entries
    (DataSynchronizer.Build [Sample.theme_b; Sample.theme_d]
       ([Sample.theme_b_minimal; Sample.orphan]
        ++ List.map DataSynchronizer.create_addon_template [Sample.theme_d])) = Ok []
  /\ DataSynchronizer.find_orphaned_addon_entries
       (DataSynchronizer.Build [Sample.theme_b; Sample.theme_d]
          ([Sample.theme_b_minimal; Sample.orphan]
           ++ List.map DataSynchronizer.create_addon_template [Sample.theme_d]))
     = DataSynchronizer.find_orphaned_addon_entries
         (DataSynchronizer.Build [Sample.theme_b; Sample.theme_d]
            [Sample.theme_b_minimal; Sample.orphan]).
Proof.
  apply (templates_close_the_gap [Sample.theme_b; Sample.theme_d]
           [Sample.theme_b_minimal; Sample.orphan] [Sample.theme_d]);
    vm_compute; reflexivity.
Defined.

Section PercentFacts.



End PercentFacts.





(** ** Record Store: structure report, backups *)


Section StructureFacts.

Lemma filter_missing_nil (expected_keys : list string) (m : record) :
  List.filter (fun key => negb (Py.dict_has key m)) expected_keys = []
  <-> forallb (fun key => Py.dict_has key m) expected_keys = true.
Proof.
  induction expected_keys as [|k l IH]; simpl; [tauto|].
  destruct (Py.dict_has k m); simpl; [exact IH|].
  split; intros H; discriminate H.
Qed.

Lemma check_entries_spec (expected_keys : list string) (data : list json) :
  forall (i : nat) (r : FileManager.structure_report),
    let r' := FileManager.check_entries expected_keys i data r in
    FileManager.entries r' = FileManager.entries r
    /\ FileManager.valid r'
       = FileManager.valid r && forallb (complete_entry expected_keys) data
    /\ FileManager.valid_entries r'
       = option_map
           (fun n => (n + length (List.filter (complete_entry expected_keys) data))%nat)
           (FileManager.valid_entries r)
    /\ (length (FileManager.errors r')
        = length (FileManager.errors r)
          + length (List.filter (fun e => negb (complete_entry expected_keys e)) data))%nat.
Proof.
  induction data as [|entry data IH]; intros i r; simpl.
  - rewrite andb_true_r, Nat.add_0_r. repeat split.
    destruct (FileManager.valid_entries r); simpl; [rewrite Nat.add_0_r|]; reflexivity.
  - match goal with
    | |- context [FileManager.check_entries _ _ _ ?x] =>
        destruct (IH (S i) x) as (He & Hv & Hn & Herr)
    end.
    rewrite He, Hv, Hn, Herr. clear He Hv Hn Herr IH.
    destruct entry as [|b|n|s|l|m]; simpl;
      try (rewrite andb_false_r, length_app; simpl; repeat split;
           try (destruct (FileManager.valid_entries r); reflexivity); lia).
    destruct (List.filter (fun key => negb (Py.dict_has key m)) expected_keys)
      as [|k ks] eqn:Hf.
    + apply filter_missing_nil in Hf. rewrite Hf. simpl. repeat split.
      destruct (FileManager.valid_entries r); simpl; [f_equal; lia|reflexivity].
    + assert (Hc : forallb (fun key => Py.dict_has key m) expected_keys = false).
      { destruct (forallb _ expected_keys) eqn:Hc; [|reflexivity].
        apply filter_missing_nil in Hc. congruence. }
      rewrite Hc. simpl. rewrite andb_false_r, length_app. simpl. repeat split;
        try (destruct (FileManager.valid_entries r); reflexivity); lia.
Qed.

Lemma filter_split_length {A} (f : A -> bool) (l : list A) :
  (length (List.filter f l) + length (List.filter (fun x => negb (f x)) l)
   = length l)%nat.
Proof.
  induction l as [|x l IH]; simpl; [reflexivity|].
  destruct (f x); simpl; lia.
Qed.

End StructureFacts.

(** X7. [validate_json_structure] never raises. With [data] what
    [load_json_data] returns for the file: the report counts [len(data)]
    entries; it is valid exactly when [data] is not empty and every entry is a
    dict that has all the expected keys, so that an empty or unreadable file
    is reported invalid; when data was loaded, [valid_entries] is the number
    of such entries and every other entry adds one error message; when none
    was, the key [valid_entries] is absent and the one message says so. *)
Theorem validate_json_structure_tally {codec : JsonCodec} (self : FileManager.t)
    (p : string) (expected_keys : list string) (description : string)
    (w : world) (data : list json) :
  fst (FileManager.load_json_data self p w) = Ok data ->
  exists report,
    fst (FileManager.validate_json_structure self p expected_keys description w)
    = Ok report
    /\ FileManager.entries report = length data
    /\ (FileManager.valid report = true
        <-> data <> [] /\ forallb (complete_entry expected_keys) data = true)
    /\ match FileManager.valid_entries report with
       | Some n =>
           n = length (List.filter (complete_entry expected_keys) data)
           /\ (n + length (FileManager.errors report) = length data)%nat
       | None =>
           data = []
           /\ FileManager.errors report = [("No data loaded from " ++ description)%string]
       end.
Proof.
  intros Hload. unfold FileManager.validate_json_structure, bind.
  destruct (FileManager.load_json_data self p w) as [r w1]. simpl in Hload. subst r.
  destruct data as [|entry data].
  - eexists. split; [reflexivity|]. simpl. repeat split; try tauto; discriminate.
  - eexists. split; [reflexivity|].
    destruct (check_entries_spec expected_keys (entry :: data) 0
                {| FileManager.valid := true;
                   FileManager.entries := length (entry :: data);
                   FileManager.valid_entries := Some 0%nat;
                   FileManager.errors := [] |}) as (He & Hv & Hn & Herr).
    unfold ret. cbn [fst]. rewrite He, Hv, Hn. cbn [FileManager.entries
      FileManager.valid FileManager.valid_entries option_map andb Nat.add].
    split; [reflexivity|]. split.
    + split; [intros H; split; [discriminate|exact H]|tauto].
    + split; [reflexivity|]. rewrite Herr. cbn [FileManager.errors length Nat.add].
      exact (filter_split_length (complete_entry expected_keys) (entry :: data)).
Qed.

Lemma validate_json_structure_tally_witness :
  exists report,
    fst (FileManager.validate_json_structure Sample.file_manager Sample.addon_file
           ["repo"; "tags"] "Addon themes"
           (Sample.world_of
              {[ Sample.addon_file :=
                   JsonText.dumps (JArr [JObj Sample.orphan; JNum 3;
                                         JObj [("repo", JStr "a/b")]]) ]} []))
    = Ok report
    /\ FileManager.entries report = 3%nat
    /\ FileManager.valid report = false
    /\ FileManager.valid_entries report = Some 1%nat
    /\ FileManager.errors report
       = ["Entry 2: Not a dictionary"; "a/b: Missing keys: ['tags']"].
Proof.
  destruct (validate_json_structure_tally Sample.file_manager Sample.addon_file
              ["repo"; "tags"] "Addon themes"
              (Sample.world_of
                 {[ Sample.addon_file :=
                      JsonText.dumps (JArr [JObj Sample.orphan; JNum 3;
                                            JObj [("repo", JStr "a/b")]]) ]} [])
              [JObj Sample.orphan; JNum 3; JObj [("repo", JStr "a/b")]])
    as (report & Hrun & _).
  - vm_compute. reflexivity.
  - exists report. split; [exact Hrun|].
    vm_compute in Hrun. injection Hrun as <-. repeat split.
Defined.


Section BackupFacts.
Context {codec : JsonCodec}.


Lemma backup_each_cons (self : FileManager.t) (timestamp file_path : string)
    (rest : list string) (results : gmap string bool) (w : world) :
  FileManager.backup_each self timestamp (file_path :: rest) results w
  = FileManager.backup_each self timestamp rest
      (<[ file_path := fst (backup_one self timestamp file_path w) ]> results)
      (snd (backup_one self timestamp file_path w)).
Proof.
  cbn [FileManager.backup_each]. unfold backup_one, bind at 1, path_exists.
  destruct (fs w !! file_path) as [c|] eqn:Hp.
  - rewrite bool_decide_eq_true_2 by eauto. cbn [negb].
    unfold bind at 1, try_except, copy2, bind, syscall, raise, put_file, ret.
    cbn [fst snd]. destruct (fails (env w (tick w))); cbn [orb]; [reflexivity|].
    destruct (String.eqb file_path _); [reflexivity|].
    cbn [fs]. rewrite Hp. reflexivity.
  - rewrite bool_decide_eq_false_2 by (intros [? ?]; discriminate). reflexivity.
Qed.

Lemma backup_one_frame (self : FileManager.t) (timestamp file_path : string)
    (w : world) :
  let w1 := snd (backup_one self timestamp file_path w) in
  stdin w1 = stdin w /\ env w1 = env w /\ (tick w <= tick w1)%nat
  /\ (forall q, is_Some (fs w !! q) -> is_Some (fs w1 !! q))
  /\ (forall q, q <> FileManager.backup_path self timestamp file_path ->
                fs w1 !! q = fs w !! q)
  /\ (fst (backup_one self timestamp file_path w) = true ->
      fs w1 !! FileManager.backup_path self timestamp file_path = fs w !! file_path
      /\ is_Some (fs w !! file_path)).
Proof.
  unfold backup_one. destruct (fs w !! file_path) as [c|] eqn:Hp.
  - destruct (_ || _); cbn [fst snd after fs stdin env tick].
    + repeat split; auto; try lia; try discriminate.
    + repeat split; auto; try lia;
        try (intros q Hq;
             destruct (decide (q = FileManager.backup_path self timestamp file_path))
               as [->|Hne];
             [rewrite lookup_insert_eq; eauto; congruence
             |rewrite lookup_insert_ne by congruence; auto]);
        rewrite ?lookup_insert_eq; eauto.
  - cbn [fst snd]. repeat split; auto; try discriminate.
Qed.

Lemma backup_each_spec (self : FileManager.t) (timestamp : string)
    (file_paths : list string) :
  forall (results : gmap string bool) (w : world),
    let out := FileManager.backup_each self timestamp file_paths results w in
    exists results',
      fst out = Ok results'
      /\ dom results' = dom results ∪ list_to_set file_paths
      /\ (forall p, p ∉ file_paths -> results' !! p = results !! p)
      /\ stdin (snd out) = stdin w /\ env (snd out) = env w
      /\ (tick w <= tick (snd out))%nat
      /\ (forall q, is_Some (fs w !! q) -> is_Some (fs (snd out) !! q))
      /\ (forall q, (forall p, p ∈ file_paths ->
                               q <> FileManager.backup_path self timestamp p) ->
                    fs (snd out) !! q = fs w !! q)
      /\ (forall p, p ∈ file_paths -> results' !! p = Some true ->
                    is_Some (fs (snd out) !! FileManager.backup_path self timestamp p)).
Proof.
  induction file_paths as [|p0 rest IH]; intros results w.
  - exists results. cbn [FileManager.backup_each ret fst snd].
    repeat split; auto; try set_solver; try (intros q Hq; congruence).
  - cbv zeta. rewrite backup_each_cons.
    destruct (backup_one_frame self timestamp p0 w)
      as (Hin & Henv & Htick & Hkeep & Hframe & Htrue).
    destruct (IH (<[ p0 := fst (backup_one self timestamp p0 w) ]> results)
                (snd (backup_one self timestamp p0 w)))
      as (res' & Hres & Hdom & Hout & Hin' & Henv' & Htick' & Hkeep' & Htouch & Hok).
    exists res'. split; [exact Hres|]. split.
    { rewrite Hdom, dom_insert_L. set_solver. }
    split.
    { intros p Hp. rewrite Hout by set_solver.
      apply lookup_insert_ne. set_solver. }
    split; [congruence|]. split; [congruence|]. split; [lia|]. split.
    { intros q Hq. apply Hkeep', Hkeep, Hq. }
    split.
    { intros q Hq. rewrite Htouch by (intros p Hp; apply Hq; set_solver).
      apply Hframe. apply Hq. set_solver. }
    intros p Hp Hp_true.
    destruct (decide (p ∈ rest)) as [Hrest|Hrest]; [apply Hok; assumption|].
    assert (p = p0) as -> by set_solver.
    rewrite (Hout p0 Hrest), lookup_insert_eq in Hp_true. injection Hp_true as Hp_true.
    apply Hkeep'. destruct (Htrue Hp_true) as [-> Hsome]. exact Hsome.
Qed.

Lemma backup_each_calm (self : FileManager.t) (timestamp : string)
    (file_paths : list string) :
  forall (results : gmap string bool) (w : world),
    calm w ->
    NoDup (List.map (FileManager.backup_path self timestamp) file_paths) ->
    (forall p q, p ∈ file_paths -> q ∈ file_paths ->
                 FileManager.backup_path self timestamp p <> q) ->
    let out := FileManager.backup_each self timestamp file_paths results w in
    exists results',
      fst out = Ok results'
      /\ forall p, p ∈ file_paths ->
           results' !! p = Some (bool_decide (is_Some (fs w !! p)))
           /\ fs (snd out) !! p = fs w !! p
           /\ (forall c, fs w !! p = Some c ->
                fs (snd out) !! FileManager.backup_path self timestamp p = Some c).
Proof.
  induction file_paths as [|p0 rest IH]; intros results w Hcalm Hnodup Hdistinct.
  - exists results. split; [reflexivity|]. intros p Hp. set_solver.
  - cbv zeta. rewrite backup_each_cons.
    cbn [List.map] in Hnodup. apply NoDup_cons in Hnodup as [Hfresh Hnodup].
    assert (Hp0 : p0 ∉ rest).
    { intros Hin. apply Hfresh. apply list_elem_of_In, in_map, list_elem_of_In, Hin. }
    destruct (backup_one_frame self timestamp p0 w)
      as (_ & Henv & Htick & _ & Hframe & _).
    assert (Hone : backup_one self timestamp p0 w
                   = match fs w !! p0 with
                     | Some c =>
                         (true, after 1 (<[ FileManager.backup_path self timestamp p0 := c ]>
                                           (fs w)) w)
                     | None => (false, w)
                     end).
    { unfold backup_one. destruct (fs w !! p0); [|reflexivity].
      rewrite (Hcalm (tick w)) by lia.
      rewrite (proj2 (String.eqb_neq _ _)); [reflexivity|].
      intros Heq. apply (Hdistinct p0 p0); [set_solver..|]. congruence. }
    destruct (IH (<[ p0 := fst (backup_one self timestamp p0 w) ]> results)
                (snd (backup_one self timestamp p0 w)))
      as (res' & Hres & Hall).
    { apply (calm_later w); assumption. }
    { exact Hnodup. }
    { intros p q Hp Hq. apply Hdistinct; set_solver. }
    destruct (backup_each_spec self timestamp rest
                (<[ p0 := fst (backup_one self timestamp p0 w) ]> results)
                (snd (backup_one self timestamp p0 w)))
      as (res2 & Hres2 & _ & Hout & _ & _ & _ & _ & Htouch & _).
    rewrite Hres in Hres2. injection Hres2 as <-.
    exists res'. split; [exact Hres|]. intros p Hp.
    destruct (decide (p ∈ rest)) as [Hrest|Hrest].
    + destruct (Hall p Hrest) as (Hr & Hsame & Hcopy).
      assert (Hstable : fs (snd (backup_one self timestamp p0 w)) !! p = fs w !! p).
      { apply Hframe. intros ->. apply (Hdistinct p0 (FileManager.backup_path self timestamp p0));
          [set_solver|set_solver|reflexivity]. }
      rewrite Hstable in *. auto.
    + assert (Hpp : p = p0) by set_solver. subst p.
      rewrite (Hout p0 Hrest), lookup_insert_eq.
      assert (Hbp : forall p, p ∈ rest ->
                FileManager.backup_path self timestamp p0
                <> FileManager.backup_path self timestamp p).
      { intros p Hp' Heq. apply Hfresh. rewrite Heq.
        apply list_elem_of_In, in_map, list_elem_of_In, Hp'. }
      rewrite (Htouch p0)
        by (intros p Hp' Heq; apply (Hdistinct p p0);
            [set_solver|set_solver|symmetry; exact Heq]).
      rewrite (Htouch _ Hbp), Hone.
      destruct (fs w !! p0) as [c|] eqn:Hc; cbn [fst snd after fs].
      * rewrite bool_decide_eq_true_2 by eauto. split; [reflexivity|]. split.
        -- rewrite lookup_insert_ne; [exact Hc|].
           apply (Hdistinct p0 p0); set_solver.
        -- intros c' [= <-]. apply lookup_insert_eq.
      * rewrite bool_decide_eq_false_2 by (intros [? ?]; discriminate).
        split; [reflexivity|]. split; [exact Hc|]. intros c' H. discriminate H.
Qed.

Lemma backup_json_files_unfold (self : FileManager.t) (file_paths : list string)
    (backup_suffix : option string) (w : world) :
  FileManager.backup_json_files self file_paths backup_suffix w
  = FileManager.backup_each self (backup_timestamp backup_suffix w) file_paths ∅
      (after 1 (fs w) w).
Proof. reflexivity. Qed.

End BackupFacts.


(** X9. When no call to the operating system fails, the backup names of the
    given paths are pairwise distinct and none is itself a given path,
    [backup_json_files] reports [True] for every given path that exists and
    [False] for the others, leaves every given file as it was, and the backup
    of each existing file holds the content of that file. *)
Theorem backup_json_files_copies_content {codec : JsonCodec}
    (self : FileManager.t) (file_paths : list string)
    (backup_suffix : option string) (w : world) :
  let timestamp := backup_timestamp backup_suffix w in
  let out := FileManager.backup_json_files self file_paths backup_suffix w in
  calm w ->
  NoDup (List.map (FileManager.backup_path self timestamp) file_paths) ->
  (forall p q, p ∈ file_paths -> q ∈ file_paths ->
               FileManager.backup_path self timestamp p <> q) ->
  exists results,
    fst out = Ok results
    /\ forall p, p ∈ file_paths ->
         results !! p = Some (bool_decide (is_Some (fs w !! p)))
         /\ fs (snd out) !! p = fs w !! p
         /\ (forall c, fs w !! p = Some c ->
              fs (snd out) !! FileManager.backup_path self timestamp p = Some c).
Proof.
  intros timestamp out Hcalm Hnodup Hdistinct. subst timestamp out.
  rewrite backup_json_files_unfold.
  apply (backup_each_calm self (backup_timestamp backup_suffix w) file_paths ∅
           (after 1 (fs w) w)); try assumption.
  apply (calm_later w); [assumption|reflexivity|simpl; lia].
Qed.

Lemma backup_json_files_copies_content_witness :
  let w := Sample.world_of {[ "x.json" := "[]"; "data/y.json" := "[1]" ]} [] in
  let file_paths := ["x.json"; "data/y.json"; "z.json"] in
  let out := FileManager.backup_json_files Sample.file_manager file_paths
               (Some "test") w in
  exists results,
    fst out = Ok results
    /\ forall p, p ∈ file_paths ->
         results !! p = Some (bool_decide (is_Some (fs w !! p)))
         /\ fs (snd out) !! p = fs w !! p
         /\ (forall c, fs w !! p = Some c ->
              fs (snd out)
                !! FileManager.backup_path Sample.file_manager
                     (backup_timestamp (Some "test") w) p = Some c).
Proof.
  intros w file_paths out.
  apply (backup_json_files_copies_content Sample.file_manager file_paths
           (Some "test") w).
  - intros n _. reflexivity.
  - apply (bool_decide_unpack _). vm_compute. exact I.
  - intros p q Hp Hq Heq. subst q. subst file_paths.
    repeat (apply elem_of_cons in Hp as [->|Hp];
            [vm_compute in Hq;
             repeat (apply elem_of_cons in Hq as [Hq|Hq]; [discriminate Hq|]);
             apply elem_of_nil in Hq; exact Hq|]).
    apply elem_of_nil in Hp. exact Hp.
Defined.

Section CollisionFacts.
Context {codec : JsonCodec}.

Lemma backup_path_by_name (self : FileManager.t) (timestamp p q : string) :
  PyPath.name p = PyPath.name q ->
  FileManager.backup_path self timestamp p = FileManager.backup_path self timestamp q.
Proof.
  intros Hname. unfold FileManager.backup_path, PyPath.stem, PyPath.suffix.
  rewrite Hname. reflexivity.
Qed.

Lemma backup_timestamp_no_slash (backup_suffix : option string) (w : world) :
  match backup_suffix with
  | Some sfx => PyPath.rfind "/" sfx = None
  | None => True
  end ->
  PyPath.rfind "/" (backup_timestamp backup_suffix w) = None.
Proof.
  unfold backup_timestamp. destruct backup_suffix as [sfx|]; intros Hs.
  - destruct (String.eqb sfx ""); [apply strftime_no_slash|].
    apply rfind_app_none. split; [apply strftime_no_slash|].
    apply rfind_app_none. split; [reflexivity|exact Hs].
  - apply strftime_no_slash.
Qed.

End CollisionFacts.

(** X10. The name of a backup depends on the name of the file only, not on
    its directory: when two existing files of the same name in different
    directories are backed up by one call, both are reported [True], they
    share one backup file, and that file holds the content of the second: the
    copy of the first is overwritten. *)
Theorem same_name_backups_collide {codec : JsonCodec} (self : FileManager.t)
    (backup_suffix : option string) (w : world) (p q : string) (cp cq : content) :
  let timestamp := backup_timestamp backup_suffix w in
  let out := FileManager.backup_json_files self [p; q] backup_suffix w in
  PyPath.name p = PyPath.name q ->
  p <> q ->
  fs w !! p = Some cp ->
  fs w !! q = Some cq ->
  calm w ->
  match backup_suffix with
  | Some sfx => PyPath.rfind "/" sfx = None
  | None => True
  end ->
  fst out = Ok (<[ q := true ]> (<[ p := true ]> ∅))
  /\ FileManager.backup_path self timestamp p = FileManager.backup_path self timestamp q
  /\ fs (snd out) !! FileManager.backup_path self timestamp p = Some cq.
Proof.
  intros timestamp out Hname Hpq Hp Hq Hcalm Hsfx. subst out.
  pose proof (backup_path_by_name self timestamp p q Hname) as Hsame.
  pose proof (backup_timestamp_no_slash backup_suffix w Hsfx) as Hts.
  fold timestamp in Hts.
  pose proof (backup_path_fresh self timestamp p Hts) as Hfp.
  pose proof (backup_path_fresh self timestamp q Hts) as Hfq.
  rewrite backup_json_files_unfold. fold timestamp.
  rewrite !backup_each_cons. cbn [FileManager.backup_each ret fst snd].
  assert (H1 : backup_one self timestamp p (after 1 (fs w) w)
               = (true, after 2 (<[ FileManager.backup_path self timestamp p := cp ]> (fs w)) w)).
  { unfold backup_one. cbn [after fs tick env]. rewrite Hp.
    rewrite (Hcalm (1 + tick w)%nat) by lia.
    rewrite (proj2 (String.eqb_neq _ _)) by congruence. reflexivity. }
  rewrite H1. cbn [fst snd].
  assert (H2 : backup_one self timestamp q
                 (after 2 (<[ FileManager.backup_path self timestamp p := cp ]> (fs w)) w)
               = (true, after 3 (<[ FileManager.backup_path self timestamp q := cq ]>
                                   (<[ FileManager.backup_path self timestamp p := cp ]> (fs w))) w)).
  { unfold backup_one. cbn [after fs tick env].
    rewrite lookup_insert_ne by congruence. rewrite Hq.
    rewrite (Hcalm (2 + tick w)%nat) by lia.
    rewrite (proj2 (String.eqb_neq _ _)) by congruence. reflexivity. }
  rewrite H2. cbn [fst snd after fs]. split; [reflexivity|]. split; [exact Hsame|].
  rewrite Hsame. apply lookup_insert_eq.
Qed.

Lemma same_name_backups_collide_witness :
  let w := Sample.world_of {[ "a/x.json" := "[1]"; "b/x.json" := "[2]" ]} [] in
  let out := FileManager.backup_json_files Sample.file_manager
               ["a/x.json"; "b/x.json"] None w in
  fst out = Ok (<[ "b/x.json" := true ]> (<[ "a/x.json" := true ]> ∅))
  /\ FileManager.backup_path Sample.file_manager (backup_timestamp None w) "a/x.json"
     = FileManager.backup_path Sample.file_manager (backup_timestamp None w) "b/x.json"
  /\ fs (snd out)
       !! FileManager.backup_path Sample.file_manager (backup_timestamp None w) "a/x.json"
     = Some "[2]".
Proof.
  intros w out.
  apply (same_name_backups_collide Sample.file_manager None w "a/x.json" "b/x.json"
           "[1]" "[2]").
  - reflexivity.
  - discriminate.
  - vm_compute. reflexivity.
  - vm_compute. reflexivity.
  - intros n _. reflexivity.
  - exact I.
Defined.

Section RestoreFacts.
Context {codec : JsonCodec}.

Lemma eqb_app_cons_empty (a b : string) (c : ascii) :
  String.eqb (a ++ String c b) "" = false.
Proof. destruct a; reflexivity. Qed.

End RestoreFacts.

(** X11. [restore_from_backup] undoes [save_json_data]: after a save over an
    existing file whose pre-save copy succeeded, restoring the file from the
    backup of that name gives it back the content it had before the save,
    whether the save itself succeeded or not, provided the copy of the restore
    does not fail. *)
Theorem restore_undoes_save {codec : JsonCodec}
    (latest_backup : FileManager.t -> string -> M (option string))
    (self : FileManager.t) (p : string) (data : list json) (w : world)
    (old : content) :
  let filename :=
    (PyPath.stem p ++ "_" ++ strftime_compact (now (env w (tick w))) ++ "_pre_save"
     ++ PyPath.suffix p)%string in
  let w1 := snd (FileManager.save_json_data self p data true w) in
  let out := FileManager.restore_from_backup latest_backup self p (Some filename) w1 in
  fs w !! p = Some old ->
  fails (env w (S (tick w))) = false ->
  fails (env w1 (tick w1)) = false ->
  fst out = Ok true /\ fs (snd out) !! p = Some old.
Proof.
  intros filename w1 out Hp Hcopy Hrestore. subst out.
  pose proof (pre_save_backup_path_fresh self p w) as Hfresh.
  assert (Hjoin : PyPath.join (FileManager.backup_dir self) filename
                  = pre_save_backup_path self p w).
  { unfold pre_save_backup_path, FileManager.backup_path. subst filename.
    rewrite <- !sapp_assoc. reflexivity. }
  assert (Hw1 : fs w1 !! pre_save_backup_path self p w = Some old).
  { subst w1. rewrite save_json_data_spec. unfold backed_up.
    rewrite Hp, Hcopy, (proj2 (String.eqb_neq _ _)) by congruence.
    cbn [orb].
    match goal with |- context [if ?c then _ else _] => destruct c end;
      cbn [snd after fs].
    - apply lookup_insert_eq.
    - rewrite lookup_insert_ne by congruence. apply lookup_insert_eq. }
  assert (Hname : String.eqb filename "" = false).
  { subst filename. rewrite sapp_cons. apply eqb_app_cons_empty. }
  assert (Hfound :
    (present <- path_exists (pre_save_backup_path self p w) ;;
     ret (if present then Some (pre_save_backup_path self p w) else None)) w1
    = (Ok (Some (pre_save_backup_path self p w)), w1)).
  { unfold bind, path_exists, ret.
    rewrite bool_decide_eq_true_2 by (rewrite Hw1; eauto). reflexivity. }
  assert (Hcopy2 :
    copy2 (pre_save_backup_path self p w) p w1
    = (Ok tt, {| fs := <[ p := old ]> (fs w1); stdin := stdin w1;
                 tick := S (tick w1); env := env w1 |})).
  { unfold copy2, bind, syscall, raise, put_file. cbn [fst snd].
    rewrite Hrestore, (proj2 (String.eqb_neq _ _)) by exact Hfresh.
    cbn [fs]. rewrite Hw1. reflexivity. }
  assert (Hrun :
    FileManager.restore_from_backup latest_backup self p (Some filename) w1
    = (Ok true, {| fs := <[ p := old ]> (fs w1); stdin := stdin w1;
                   tick := S (tick w1); env := env w1 |})).
  { unfold FileManager.restore_from_backup, try_except.
    rewrite Hname, Hjoin. unfold bind at 1. rewrite Hfound.
    unfold bind. rewrite Hcopy2. reflexivity. }
  rewrite Hrun. cbn [fst snd fs]. split; [reflexivity|]. apply lookup_insert_eq.
Qed.

Lemma restore_undoes_save_witness :
  let w := Sample.world_of
             {[ Sample.addon_file := JsonText.dumps (JArr [JObj Sample.orphan]) ]} [] in
  let w1 := snd (FileManager.save_json_data Sample.file_manager Sample.addon_file
                   [JObj Sample.theme_b_minimal] true w) in
  let out := FileManager.restore_from_backup (fun _ _ => ret None)
               Sample.file_manager Sample.addon_file
               (Some "community-css-themes-tag-browser_20250102_030405_pre_save.json")
               w1 in
  fst out = Ok true
  /\ fs (snd out) !! Sample.addon_file
     = Some (JsonText.dumps (JArr [JObj Sample.orphan])).
Proof.
  intros w w1 out.
  apply (restore_undoes_save (fun _ _ => ret None) Sample.file_manager
           Sample.addon_file [JObj Sample.theme_b_minimal] w
           (JsonText.dumps (JArr [JObj Sample.orphan])));
    vm_compute; reflexivity.
Defined.

Section MacroFacts.
Context {codec : JsonCodec}.

Lemma load_json_dict_spec (self : FileManager.t) (p : string) (w : world) :
  FileManager.load_json_dict self p w
  = match fs w !! p with
    | None => (Ok [], w)
    | Some c =>
        (Ok (if fails (env w (tick w)) then []
             else match json_load c with
                  | Some (JObj m) => m
                  | _ => []
                  end),
         after 1 (fs w) w)
    end.
Proof.
  unfold FileManager.load_json_dict, try_except, bind, path_exists, ret.
  destruct (fs w !! p) as [c|] eqn:Hp.
  - rewrite bool_decide_eq_true_2 by eauto. simpl.
    unfold read_json, bind, syscall, raise. simpl.
    destruct (fails (env w (tick w))); simpl; [reflexivity|].
    rewrite Hp. destruct (json_load c) as [[]|]; reflexivity.
  - rewrite bool_decide_eq_false_2 by (intros [? ?]; discriminate). reflexivity.
Qed.

End MacroFacts.

(** X12. [load_json_dict] never raises and leaves the disk as it is: it
    returns the members of the JSON object the file holds, and the empty dict
    when there is no file, when the file cannot be read, when its text is not
    JSON and when the JSON is not an object. *)
Theorem load_json_dict_returns_object_or_empty {codec : JsonCodec}
    (self : FileManager.t) (p : string) (w : world) :
  fst (FileManager.load_json_dict self p w)
  = Ok match fs w !! p with
       | None => []
       | Some c =>
           if fails (env w (tick w)) then []
           else match json_load c with
                | Some (JObj m) => m
                | _ => []
                end
       end
  /\ fs (snd (FileManager.load_json_dict self p w)) = fs w.
Proof.
  rewrite load_json_dict_spec. destruct (fs w !! p); split; reflexivity.
Qed.


(** A macros file that holds a table of its own: the default table is what
    the processor gets. *)
Example custom_macros_are_not_loaded :
  fst (BatchProcessor._load_tag_macros Sample.file_manager (Some "tag_macros.json")
         (Sample.world_of
            {[ "tag_macros.json" := JsonText.dumps (JObj [("x", JStr "experimental")]) ]}
            []))
  = Ok BatchProcessor.default_macros.
Proof. vm_compute. reflexivity. Qed.


(** ** Validator: required fields and completion status *)

Section CompletionFacts.




End CompletionFacts.





(** ** Validator: tags *)

Section TagValidationFacts.












End TagValidationFacts.




(** ** Validator: summary *)

Section SummaryFacts.

Lemma bump_sum (key : string) (d : list (string * nat)) :
  list_sum (List.map snd (Validator.bump key d)) = S (list_sum (List.map snd d)).
Proof.
  unfold list_sum. induction d as [|[k n] d IH]; [reflexivity|].
  cbn [Validator.bump]. destruct (String.eqb k key); cbn [List.map snd fold_right].
  - reflexivity.
  - rewrite IH. lia.
Qed.

Lemma bump_keys (key : string) (d : list (string * nat)) :
  List.map fst (Validator.bump key d)
  = if PyStr.mem key (List.map fst d) then List.map fst d
    else (List.map fst d ++ [key])%list.
Proof.
  induction d as [|[k n] d IH]; [reflexivity|].
  cbn [Validator.bump List.map fst]. unfold PyStr.mem in *. cbn [existsb].
  rewrite (String.eqb_sym key k).
  destruct (String.eqb k key); cbn [List.map fst orb]; [reflexivity|].
  rewrite IH. destruct (existsb _ _); reflexivity.
Qed.

Lemma bump_NoDup (key : string) (d : list (string * nat)) :
  NoDup (List.map fst d) -> NoDup (List.map fst (Validator.bump key d)).
Proof.
  intros Hd. rewrite bump_keys. destruct (PyStr.mem key (List.map fst d)) eqn:Hm;
    [exact Hd|].
  apply NoDup_app. split; [exact Hd|]. split; [|apply NoDup_singleton].
  intros x Hx Hx'. apply list_elem_of_singleton in Hx'. subst x.
  apply list_elem_of_In, mem_In in Hx. congruence.
Qed.

Lemma tally_results_spec (results : list Validator.ValidationResult) :
  forall (s : Validator.summary) (has_errors has_warnings : bool),
    let out := Validator.tally_results results (s, has_errors, has_warnings) in
    let s' := fst (fst out) in
    Validator.total_themes s' = Validator.total_themes s
    /\ Validator.error_count s'
       = (Validator.error_count s
          + length (List.filter (failed_with Validator.error) results))%nat
    /\ Validator.warning_count s'
       = (Validator.warning_count s
          + length (List.filter (failed_with Validator.warning) results))%nat
    /\ Validator.themes_with_errors s' = Validator.themes_with_errors s
    /\ Validator.themes_with_warnings s' = Validator.themes_with_warnings s
    /\ list_sum (List.map snd (Validator.common_issues s'))
       = (list_sum (List.map snd (Validator.common_issues s))
          + length (List.filter (fun r => negb (Validator.is_valid r)) results))%nat
    /\ (NoDup (List.map fst (Validator.common_issues s)) ->
        NoDup (List.map fst (Validator.common_issues s')))
    /\ snd (fst out) = has_errors || existsb (failed_with Validator.error) results
    /\ snd out = has_warnings || existsb (failed_with Validator.warning) results.
Proof.
  induction results as [|r results IH]; intros s he hw.
  - cbn. rewrite !Nat.add_0_r, !orb_false_r. repeat split; auto.
  - cbn [Validator.tally_results List.filter existsb].
    assert (Hfe : failed_with Validator.error r
                  = negb (Validator.is_valid r)
                    && match Validator.severity_of r with
                       | Validator.error => true | _ => false end)
      by (unfold failed_with; destruct (Validator.severity_of r); reflexivity).
    assert (Hfw : failed_with Validator.warning r
                  = negb (Validator.is_valid r)
                    && match Validator.severity_of r with
                       | Validator.warning => true | _ => false end)
      by (unfold failed_with; destruct (Validator.severity_of r); reflexivity).
    rewrite Hfe, Hfw. clear Hfe Hfw.
    destruct (Validator.is_valid r) eqn:Hv; cbn [negb andb].
    + destruct (IH s he hw) as (H1 & H2 & H3 & H4 & H5 & H6 & H7 & H8 & H9).
      cbv zeta. repeat split; assumption.
    + destruct (Validator.severity_of r) eqn:Hsev;
        match goal with
        | |- context [Validator.tally_results results (?s1, ?e1, ?w1)] =>
            destruct (IH s1 e1 w1) as (H1 & H2 & H3 & H4 & H5 & H6 & H7 & H8 & H9)
        end;
        cbv zeta; rewrite H1, H2, H3, H4, H5, H6, H8, H9;
        cbn [Validator.total_themes Validator.error_count Validator.warning_count
             Validator.themes_with_errors Validator.themes_with_warnings
             Validator.common_issues length orb];
        rewrite bump_sum, ?orb_true_r;
        (repeat split; try lia; try reflexivity;
         try (intros Hnd; apply H7; cbn [Validator.common_issues];
              apply bump_NoDup, Hnd)).
Qed.

Lemma tally_themes_spec
    (validation_results : list (string * list Validator.ValidationResult)) :
  forall s : Validator.summary,
    let s' := Validator.tally_themes validation_results s in
    Validator.total_themes s' = Validator.total_themes s
    /\ Validator.error_count s'
       = (Validator.error_count s
          + length (List.filter (failed_with Validator.error)
                      (all_results validation_results)))%nat
    /\ Validator.warning_count s'
       = (Validator.warning_count s
          + length (List.filter (failed_with Validator.warning)
                      (all_results validation_results)))%nat
    /\ Validator.themes_with_errors s'
       = (Validator.themes_with_errors s
          ++ List.map fst
               (List.filter (fun item => existsb (failed_with Validator.error) (snd item))
                            validation_results))%list
    /\ Validator.themes_with_warnings s'
       = (Validator.themes_with_warnings s
          ++ List.map fst
               (List.filter (fun item => existsb (failed_with Validator.warning) (snd item))
                            validation_results))%list
    /\ list_sum (List.map snd (Validator.common_issues s'))
       = (list_sum (List.map snd (Validator.common_issues s))
          + length (List.filter (fun r => negb (Validator.is_valid r))
                      (all_results validation_results)))%nat
    /\ (NoDup (List.map fst (Validator.common_issues s)) ->
        NoDup (List.map fst (Validator.common_issues s'))).
Proof.
  induction validation_results as [|[repo results] rest IH]; intros s.
  - cbn. rewrite !Nat.add_0_r, !app_nil_r. repeat split; auto.
  - cbn [Validator.tally_themes]. unfold all_results.
    cbn [List.map snd List.concat List.filter fst].
    fold (all_results rest). rewrite !List.filter_app, !length_app.
    pose proof (tally_results_spec results s false false) as Hres.
    destruct (Validator.tally_results results (s, false, false)) as [[s1 he] hw].
    cbv zeta in Hres. cbn [fst snd orb] in Hres.
    destruct Hres as (H1 & H2 & H3 & H4 & H5 & H6 & H7 & H8 & H9).
    match goal with
    | |- context [Validator.tally_themes rest ?s2] =>
        destruct (IH s2) as (I1 & I2 & I3 & I4 & I5 & I6 & I7)
    end.
    cbv zeta.
    refine (conj _ (conj _ (conj _ (conj _ (conj _ (conj _ _)))))).
    + rewrite I1. exact H1.
    + rewrite I2. cbn [Validator.error_count]. rewrite H2. lia.
    + rewrite I3. cbn [Validator.warning_count]. rewrite H3. lia.
    + rewrite I4. cbn [Validator.themes_with_errors]. rewrite H4, <- H8.
      destruct he; cbn [List.map fst]; rewrite <- ?app_assoc; reflexivity.
    + rewrite I5. cbn [Validator.themes_with_warnings]. rewrite H5, <- H9.
      destruct hw; cbn [List.map fst]; rewrite <- ?app_assoc; reflexivity.
    + rewrite I6. cbn [Validator.common_issues]. rewrite H6. lia.
    + intros Hnd. apply I7. cbn [Validator.common_issues]. apply H7, Hnd.
Qed.

End SummaryFacts.

(** X16. [get_validation_summary] counts every failed check once:
    [error_count] and [warning_count] are the numbers of failed checks of
    those severities over all themes, the counts of [common_issues], whose
    keys are distinct, add up to the number of all failed checks (those of
    severity [info] included, which neither count has), and
    [themes_with_errors] and [themes_with_warnings] list, in the order of the
    themes, those that have such a failed check. *)
Theorem validation_summary_counts
    (validation_results : list (string * list Validator.ValidationResult)) :
  let summary := Validator.get_validation_summary validation_results in
  let results := all_results validation_results in
  Validator.total_themes summary = length validation_results
  /\ Validator.error_count summary
     = length (List.filter (failed_with Validator.error) results)
  /\ Validator.warning_count summary
     = length (List.filter (failed_with Validator.warning) results)
  /\ list_sum (List.map snd (Validator.common_issues summary))
     = length (List.filter (fun r => negb (Validator.is_valid r)) results)
  /\ NoDup (List.map fst (Validator.common_issues summary))
  /\ Validator.themes_with_errors summary
     = List.map fst
         (List.filter (fun item => existsb (failed_with Validator.error) (snd item))
                      validation_results)
  /\ Validator.themes_with_warnings summary
     = List.map fst
         (List.filter (fun item => existsb (failed_with Validator.warning) (snd item))
                      validation_results).
Proof.
  intros summary results. subst summary results.
  unfold Validator.get_validation_summary.
  match goal with
  | |- context [Validator.tally_themes validation_results ?s0] =>
      destruct (tally_themes_spec validation_results s0)
        as (H1 & H2 & H3 & H4 & H5 & H6 & H7)
  end.
  cbv zeta in *. rewrite H1, H2, H3, H4, H5, H6. cbn. repeat split.
  apply H7. cbn. apply NoDup_nil_2.
Qed.

(** ** GitHub helpers *)

Section SplitFacts.


Lemma split_not_nil (sep : ascii) (s : string) : PyStr.split sep s <> [].
Proof.
  destruct s as [|c s]; cbn [PyStr.split]; [discriminate|].
  destruct (Ascii.eqb c sep); [discriminate|].
  destruct (PyStr.split sep s); discriminate.
Qed.

Lemma split_pieces (sep : ascii) (s : string) :
  List.Forall (fun piece => no_char sep piece = true) (PyStr.split sep s).
Proof.
  induction s as [|c s IH]; cbn [PyStr.split].
  - repeat constructor.
  - destruct (Ascii.eqb c sep) eqn:Hc.
    + constructor; [reflexivity|exact IH].
    + destruct (PyStr.split sep s) as [|h t]; [repeat constructor; cbn; rewrite Hc; reflexivity|].
      inversion IH as [|? ? Hh Ht]; subst. constructor; [|exact Ht].
      cbn. rewrite Hc. exact Hh.
Qed.

Lemma split_join (sep : ascii) (s : string) :
  String.concat (String sep "") (PyStr.split sep s) = s.
Proof.
  induction s as [|c s IH]; cbn [PyStr.split]; [reflexivity|].
  destruct (Ascii.eqb c sep) eqn:Hc.
  - apply Ascii.eqb_eq in Hc. subst c.
    pose proof (split_not_nil sep s) as Hne.
    destruct (PyStr.split sep s) as [|h t] eqn:Hs; [congruence|].
    change (String.concat (String sep "") ("" :: h :: t))
      with ("" ++ String sep "" ++ String.concat (String sep "") (h :: t))%string.
    rewrite IH, sapp_nil_l, sapp_cons, sapp_nil_l. reflexivity.
  - pose proof (split_not_nil sep s) as Hne.
    destruct (PyStr.split sep s) as [|h t] eqn:Hs; [congruence|].
    destruct t as [|h' t'].
    + cbn [String.concat] in *. rewrite IH. reflexivity.
    + change (String.concat (String sep "") (String c h :: h' :: t'))
        with (String c h ++ String sep "" ++ String.concat (String sep "") (h' :: t'))%string.
      change (String.concat (String sep "") (h :: h' :: t'))
        with (h ++ String sep "" ++ String.concat (String sep "") (h' :: t'))%string in IH.
      rewrite sapp_cons, IH. reflexivity.
Qed.



End SplitFacts.

Section RepoFormatFacts.









End RepoFormatFacts.


(** The examples of the docstring, and an owner that ends with a newline. *)
Example validate_repo_format_examples :
  GithubUtils.validate_repo_format (JStr "microsoft/vscode") = true
  /\ GithubUtils.validate_repo_format (JStr "invalid") = false
  /\ GithubUtils.validate_repo_format (JStr "user/repo/extra") = false
  /\ GithubUtils.validate_repo_format
       (JStr ("user" ++ String PyRe.LF "/repo")) = true.
Proof. repeat split; vm_compute; reflexivity. Qed.

Section FallbackFacts.

Lemma contains_single (c : ascii) (s : string) :
  PyStr.contains (String c "") s = negb (no_char c s).
Proof.
  unfold no_char. induction s as [|b s IH]; [reflexivity|].
  cbn [PyStr.contains PyRe.all_in String.prefix]. rewrite IH.
  destruct (ascii_dec c b) as [->|Hne].
  - rewrite Ascii.eqb_refl. destruct s; reflexivity.
  - rewrite (proj2 (Ascii.eqb_neq b c)) by congruence. reflexivity.
Qed.

Lemma all_in_lstrip (f : ascii -> bool) (s : string) :
  PyRe.all_in f s = true -> PyRe.all_in f (PyStr.lstrip s) = true.
Proof.
  induction s as [|c s IH]; [auto|]. cbn [PyStr.lstrip PyRe.all_in].
  intros H. destruct (PyStr.is_space c); [|exact H].
  apply andb_prop in H as [_ H]. apply IH, H.
Qed.

Lemma all_in_rstrip (f : ascii -> bool) (s : string) :
  PyRe.all_in f s = true -> PyRe.all_in f (PyStr.rstrip s) = true.
Proof.
  induction s as [|c s IH]; [auto|]. cbn [PyStr.rstrip PyRe.all_in].
  intros H. apply andb_prop in H as [Hc Hs]. specialize (IH Hs).
  destruct (PyStr.rstrip s) as [|d r].
  - destruct (PyStr.is_space c); [reflexivity|]. cbn. rewrite Hc. reflexivity.
  - cbn [PyRe.all_in] in *. rewrite Hc. exact IH.
Qed.

Lemma no_char_app_sep (sep : ascii) (a b : string) :
  no_char sep (a ++ String sep b) = false.
Proof.
  unfold no_char. induction a as [|c a IH].
  - rewrite sapp_nil_l. cbn. rewrite Ascii.eqb_refl. reflexivity.
  - rewrite sapp_cons. cbn [PyRe.all_in]. rewrite IH. apply andb_false_r.
Qed.

Lemma validate_repo_format_slash (repo : string) :
  GithubUtils.validate_repo_format (JStr repo) = true ->
  exists owner name, PyStr.strip repo = (owner ++ "/" ++ name)%string.
Proof.
  unfold GithubUtils.validate_repo_format.
  destruct (String.eqb repo ""); [discriminate|].
  pose proof (split_join "/" (PyStr.strip repo)) as Hjoin.
  destruct (PyStr.split "/" (PyStr.strip repo)) as [|owner [|name [|x xs]]];
    try discriminate.
  intros _. exists owner, name. symmetry. exact Hjoin.
Qed.

End FallbackFacts.

(** X18. Whatever [validate_repo_format] accepts, the stand-in that
    [batch_processor.py] uses when the module cannot be imported accepts
    too. *)
Theorem fallback_accepts_valid_repos (repo : string) :
  GithubUtils.validate_repo_format (JStr repo) = true ->
  GithubUtils.validate_repo_format_fallback repo = true.
Proof.
  intros H. apply validate_repo_format_slash in H as (owner & name & Hstrip).
  unfold GithubUtils.validate_repo_format_fallback.
  rewrite (contains_single "/" repo). apply negb_true_iff.
  destruct (no_char "/" repo) eqn:Hno; [|reflexivity].
  apply all_in_lstrip, all_in_rstrip in Hno. fold (PyStr.strip repo) in Hno.
  rewrite Hstrip, sapp_cons, sapp_nil_l in Hno.
  pose proof (no_char_app_sep "/" owner name) as Habs. unfold no_char in Habs.
  congruence.
Qed.

Lemma fallback_accepts_valid_repos_witness :
  GithubUtils.validate_repo_format_fallback "microsoft/vscode" = true.
Proof. apply fallback_accepts_valid_repos. reflexivity. Defined.

(** The fallback accepts more: any text with a slash in it. *)
Example fallback_accepts_more :
  GithubUtils.validate_repo_format_fallback "too/many/parts" = true
  /\ GithubUtils.validate_repo_format (JStr "too/many/parts") = false.
Proof. split; reflexivity. Qed.

Section GithubRepoFacts.







End GithubRepoFacts.


(** Without network a well-formed name gets as far as the request; an owner
    that ends with a newline passes [validate_repo_format] only. *)
Example validate_github_repo_examples (self : Validator.config) :
  let offline : string -> Z -> Validator.probe := fun _ _ => Validator.ConnectionError in
  let no_body : string -> result json := fun _ => Ok JNull in
  let check := Validator.validate_github_repo offline no_body self in
  Validator.message (check "microsoft/vscode") = "Connection to GitHub failed"
  /\ Validator.message (check "too/many/parts")
     = "Invalid repository format (should be 'user/repo')"
  /\ Validator.message (check ("user" ++ String PyRe.LF "/repo")%string)
     = "Invalid repository format (should be 'user/repo')"
  /\ GithubUtils.validate_repo_format (JStr ("user" ++ String PyRe.LF "/repo")%string) = true.
Proof. repeat split; vm_compute; reflexivity. Qed.


(** ** Entry Builder: the tags of a produced record *)

Section SortedFacts.

Lemma ascii_compare_trans (a b c : ascii) :
  Ascii.compare a b = Lt -> Ascii.compare b c = Lt -> Ascii.compare a c = Lt.
Proof.
  unfold Ascii.compare. rewrite !N.compare_lt_iff. apply N.lt_trans.
Qed.

Lemma ascii_compare_refl (a : ascii) : Ascii.compare a a = Eq.
Proof. unfold Ascii.compare. apply N.compare_refl. Qed.

Lemma str_lt_trans (a b c : string) : str_lt a b -> str_lt b c -> str_lt a c.
Proof.
  unfold str_lt. revert b c. induction a as [|x a IH]; intros [|y b] [|z c];
    cbn [String.compare]; try discriminate; try reflexivity.
  destruct (Ascii.compare x y) eqn:Hxy; try discriminate;
    destruct (Ascii.compare y z) eqn:Hyz; try discriminate; intros Hab Hbc.
  - apply Ascii.compare_eq_iff in Hxy, Hyz. subst. rewrite ascii_compare_refl.
    exact (IH b c Hab Hbc).
  - apply Ascii.compare_eq_iff in Hxy. subst. rewrite Hyz. reflexivity.
  - apply Ascii.compare_eq_iff in Hyz. subst. rewrite Hxy. reflexivity.
  - rewrite (ascii_compare_trans x y z Hxy Hyz). reflexivity.
Qed.

Lemma str_lt_gt (a b : string) : String.compare a b = Gt -> str_lt b a.
Proof.
  unfold str_lt. intros H. rewrite String.compare_antisym, H. reflexivity.
Qed.

Lemma insert_uniq_sorted (x : string) (l : list string) :
  StronglySorted str_lt l -> StronglySorted str_lt (PyStr.insert_uniq x l).
Proof.
  induction l as [|y l IH]; intros Hl; cbn [PyStr.insert_uniq].
  - repeat constructor.
  - apply StronglySorted_inv in Hl as [Hl Hy].
    destruct (String.compare x y) eqn:Hc.
    + constructor; assumption.
    + constructor; [constructor; assumption|].
      constructor; [exact Hc|].
      eapply List.Forall_impl; [|exact Hy]. intros z Hz.
      exact (str_lt_trans x y z Hc Hz).
    + constructor; [apply IH, Hl|].
      apply List.Forall_forall. intros z Hz. apply insert_uniq_In in Hz as [->|Hz].
      * apply str_lt_gt, Hc.
      * rewrite List.Forall_forall in Hy. apply Hy, Hz.
Qed.

Lemma sorted_set_sorted (l : list string) : StronglySorted str_lt (PyStr.sorted_set l).
Proof.
  induction l as [|x l IH]; cbn; [constructor|]. apply insert_uniq_sorted, IH.
Qed.

Lemma str_lt_irrefl (a : string) : ~ str_lt a a.
Proof.
  unfold str_lt. intros H. pose proof (String.compare_antisym a a) as Ha.
  rewrite H in Ha. discriminate Ha.
Qed.

Lemma sorted_NoDup (l : list string) : StronglySorted str_lt l -> List.NoDup l.
Proof.
  induction l as [|x l IH]; intros Hl; [constructor|].
  apply StronglySorted_inv in Hl as [Hl Hx]. constructor; [|apply IH, Hl].
  intros Hin. rewrite List.Forall_forall in Hx. exact (str_lt_irrefl x (Hx x Hin)).
Qed.

(** The tag computation never raises; its result is ascending without
    duplicates and holds the default tags. *)
Lemma final_tags_sorted (tags default_tags : list string) :
  exists out,
    BatchProcessor.final_tags tags default_tags = Ok out
    /\ StronglySorted str_lt out
    /\ (forall t, In t default_tags -> In t out)
    /\ (forall t, In t out -> In t tags \/ In t default_tags \/ t = "minimalistic").
Proof.
  unfold BatchProcessor.final_tags.
  destruct (PyStr.mem "notm" tags) eqn:Hmem; cbn [negb].
  - destruct (remove_first_mem _ _ Hmem) as [t Ht]. rewrite Ht. cbn [result_bind].
    eexists. split; [reflexivity|]. split; [apply sorted_set_sorted|]. split.
    + intros x Hx. apply sorted_set_In, in_or_app. right. exact Hx.
    + intros x Hx. apply sorted_set_In, in_app_or in Hx as [Hx|Hx]; [|auto].
      left. clear -Ht Hx. revert t Ht Hx.
      induction tags as [|y tags IH]; intros t Ht Hx; cbn in Ht; [discriminate|].
      destruct (String.eqb y "notm").
      * injection Ht as <-. right. exact Hx.
      * destruct (PyStr.remove_first "notm" tags) as [t'|]; [|discriminate].
        injection Ht as <-. destruct Hx as [->|Hx]; [left; reflexivity|].
        right. exact (IH t' eq_refl Hx).
  - cbn [result_bind]. eexists. split; [reflexivity|].
    split; [apply sorted_set_sorted|]. split.
    + intros x Hx. apply sorted_set_In, in_or_app. right. apply in_or_app. auto.
    + intros x Hx. apply sorted_set_In, in_app_or in Hx as [Hx|Hx]; [auto|].
      apply in_app_or in Hx as [Hx|[<-|[]]]; auto.
Qed.

End SortedFacts.

Section BuilderTagFacts.
Context {codec : JsonCodec}.

Lemma answers_lift_bind {A B} (r : result A) (k : A -> M B) (Q : B -> Prop) :
  (forall a, r = Ok a -> answers (k a) Q) -> answers (bind (lift r) k) Q.
Proof.
  intros Hk w b. unfold bind, lift. destruct r as [a|e]; [|discriminate].
  apply (Hk a eq_refl).
Qed.

Lemma answers_bind_with {A B} (m : M A) (k : A -> M B) (P : A -> Prop)
    (Q : B -> Prop) :
  answers m P -> (forall a, P a -> answers (k a) Q) -> answers (bind m k) Q.
Proof.
  intros Hm Hk w b. unfold bind. destruct (m w) as [[a|e] w1] eqn:Hmw; [|discriminate].
  apply Hk. apply (Hm w). rewrite Hmw. reflexivity.
Qed.


Lemma prompt_entry_tags (accept_skip : bool) (self : BatchProcessor.t)
    (official_entry : record) :
  answers (BatchProcessor.prompt_entry accept_skip self official_entry)
    (fun answer => forall entry, answer = Some entry -> built_from official_entry entry).
Proof.
  unfold BatchProcessor.prompt_entry.
  apply answers_lift_bind. intros defaults Hdefaults.
  apply answers_bind. intros _. apply answers_bind. intros line.
  destruct (String.eqb _ "exit"); [apply answers_ret; discriminate|].
  destruct (accept_skip && _); [apply answers_ret; discriminate|].
  apply answers_lift_bind. intros tags Htags.
  apply answers_bind. intros line2.
  destruct (String.eqb _ "exit"); [apply answers_ret; discriminate|].
  apply answers_bind. intros [side|]; apply answers_ret; [|discriminate].
  intros entry [= <-].
  destruct (final_tags_sorted
              (BatchProcessor.expand_tags (BatchProcessor.tag_macros self)
                 (PyStr.strip line)) defaults) as (out & Hout & Hsorted & Hin & _).
  rewrite Hout in Htags. injection Htags as <-.
  eexists _, side, out, defaults. repeat split; try assumption.
  destruct (String.eqb _ _); eauto.
Qed.

Lemma builder_answers (self : BatchProcessor.t) (official_entry : record) :
  answers (BatchProcessor.interactive_entry_builder self official_entry)
    (fun answer => forall entry, answer = Some entry -> built_from official_entry entry).
Proof.
  unfold BatchProcessor.interactive_entry_builder.
  eapply answers_bind_with; [apply prompt_entry_tags|].
  intros [e|] He; [|apply answers_ret; discriminate].
  apply answers_bind. intros line.
  destruct (String.eqb _ _); apply answers_ret; [|discriminate].
  intros entry [= <-]. apply He. reflexivity.
Qed.

Lemma debloated_builder_answers (self : BatchProcessor.t) (official_entry : record) :
  answers (Debloated.interactive_entry_builder self official_entry)
    (fun answer => forall entry, answer = Some entry -> built_from official_entry entry).
Proof.
  unfold Debloated.interactive_entry_builder.
  eapply answers_bind_with; [apply prompt_entry_tags|].
  intros [e|] He; [|apply answers_ret; discriminate].
  apply answers_bind. intros data. apply answers_bind. intros saved.
  destruct saved; apply answers_ret; [|discriminate].
  intros entry [= <-]. apply He. reflexivity.
Qed.

End BuilderTagFacts.

(** X19. Every record returned by the interactive Entry Builder of
    [batch_processor.py] or of [debloated_batch_processor.py] has the four
    keys [repo], [screenshot-main], [screenshots-side] and [tags]: [repo] is
    that of the official record, [screenshot-main] is the official screenshot
    or a string the operator typed, and the tags are in ascending order,
    without duplicates, and hold every mode tag of the official record. *)
Theorem produced_entry_is_well_formed {codec : JsonCodec} (self : BatchProcessor.t)
    (official_entry entry : record) (w : world) :
  fst (BatchProcessor.interactive_entry_builder self official_entry w) = Ok (Some entry)
  \/ fst (Debloated.interactive_entry_builder self official_entry w) = Ok (Some entry) ->
  exists (main : json) (side tags defaults : list string),
    entry = BatchProcessor.addon_entry_of (Py.get "repo" official_entry) main side tags
    /\ BatchProcessor.mode_tags (Py.get_or "modes" (JArr []) official_entry)
       = Ok defaults
    /\ (main = Py.get_or "screenshot" (JStr "") official_entry
        \/ exists s, main = JStr s)
    /\ StronglySorted str_lt tags
    /\ List.NoDup tags
    /\ (forall t, In t defaults -> In t tags).
Proof.
  intros H.
  assert (Hbuilt : built_from official_entry entry).
  { destruct H as [H|H].
    - exact (builder_answers self official_entry w (Some entry) H entry eq_refl).
    - exact (debloated_builder_answers self official_entry w (Some entry) H entry eq_refl). }
  destruct Hbuilt as (main & side & tags & defaults & He & Hd & Hm & Hs & Hin).
  exists main, side, tags, defaults. repeat split; try assumption.
  apply sorted_NoDup, Hs.
Qed.

Lemma produced_entry_is_well_formed_witness :
  exists (main : json) (side tags defaults : list string),
    Sample.entry_d
    = BatchProcessor.addon_entry_of (Py.get "repo" Sample.theme_d) main side tags
    /\ BatchProcessor.mode_tags (Py.get_or "modes" (JArr []) Sample.theme_d)
       = Ok defaults
    /\ (main = Py.get_or "screenshot" (JStr "") Sample.theme_d
        \/ exists s, main = JStr s)
    /\ StronglySorted str_lt tags
    /\ List.NoDup tags
    /\ (forall t, In t defaults -> In t tags).
Proof.
  apply (produced_entry_is_well_formed
           (Sample.processor [Sample.theme_d] []) Sample.theme_d Sample.entry_d
           (Sample.world_of ∅ ["calm"; ""; ""; "y"])).
  left. vm_compute. reflexivity.
Defined.

(** ** Batch Session: what reaches the disk *)

Section SessionStoreFacts.
Context {codec : JsonCodec}.

Lemma entries_in_incl (data : list record) (repos : gset Py.key) (l : list record) :
  DataSynchronizer.entries_in data repos = Ok l -> incl l data.
Proof.
  revert l. induction data as [|r data IH]; intros l; cbn [DataSynchronizer.entries_in].
  - intros [= <-]. apply incl_refl.
  - destruct (Py.hash _) as [k|]; [|discriminate]. cbn [result_bind].
    destruct (DataSynchronizer.entries_in data repos) as [l'|]; [|discriminate].
    cbn [result_bind]. intros [= <-]. specialize (IH l' eq_refl).
    destruct (bool_decide _).
    + apply incl_cons; [left; reflexivity|]. apply incl_tl, IH.
    + apply incl_tl, IH.
Qed.

Lemma find_missing_incl (self : DataSynchronizer.t) (queue : list record) :
  DataSynchronizer.find_missing_addon_entries self = Ok queue ->
  incl queue (DataSynchronizer._official_data self).
Proof.
  unfold DataSynchronizer.find_missing_addon_entries.
  destruct (DataSynchronizer.get_official_repos self); [|discriminate].
  destruct (DataSynchronizer.get_addon_repos self); [|discriminate].
  cbn [result_bind]. apply entries_in_incl.
Qed.

Lemma built_from_valid (official_entry entry : record) :
  Spec.valid (JObj official_entry) = true ->
  built_from official_entry entry -> Spec.valid (JObj entry) = true.
Proof.
  intros Hofficial (main & side & tags & defaults & -> & _ & Hmain & _).
  apply valid_addon_entry.
  - apply valid_get_or; [exact Hofficial|reflexivity].
  - destruct Hmain as [->|[s ->]]; [|reflexivity].
    apply valid_get_or; [exact Hofficial|reflexivity].
Qed.

Lemma produced_entries_valid (self : BatchProcessor.t) (queue : list record) :
  (forall r, In r queue -> Spec.valid (JObj r) = true) ->
  forall w : world,
    forallb Spec.valid
      (List.map JObj
         (produced_entries
            (outcomes (BatchProcessor.interactive_entry_builder self) queue w))) = true.
Proof.
  induction queue as [|r queue IH]; intros Hq w; [reflexivity|].
  cbn [outcomes]. pose proof (builder_answers self r w) as Hb.
  destruct (BatchProcessor.interactive_entry_builder self r w) as [[[entry|]|e] w1];
    cbn [fst snd outcome_of produced_entries];
    try (apply IH; intros r' Hr'; apply Hq; right; exact Hr').
  destruct (Py.truthy (JObj entry));
    cbn [produced_entries List.map forallb];
    [|apply IH; intros r' Hr'; apply Hq; right; exact Hr'].
  rewrite (built_from_valid r entry); [|apply Hq; left; reflexivity|].
  - apply IH. intros r' Hr'. apply Hq. right. exact Hr'.
  - apply (Hb (Some entry) eq_refl entry eq_refl).
Qed.

(** The session of [batch_processor.py], step by step. *)
Lemma session_run (self : BatchProcessor.t) (w : world) (r : record)
    (queue : list record) :
  DataSynchronizer.find_missing_addon_entries (BatchProcessor.synchronizer self)
  = Ok (r :: queue) ->
  let builder := BatchProcessor.interactive_entry_builder self in
  let loaded := BatchProcessor.load_addon_data self w in
  let outs := outcomes builder (r :: queue) (snd loaded) in
  let w2 := world_after builder (r :: queue) (snd loaded) in
  exists data,
    fst loaded = Ok data
    /\ fs (snd loaded) = fs w /\ env (snd loaded) = env w
    /\ (tick w <= tick (snd loaded))%nat
    /\ fs w2 = fs w /\ env w2 = env w /\ (tick w <= tick w2)%nat
    /\ snd (BatchProcessor.process_missing_entries_interactive self w)
       = if (0 <? length (produced_entries outs))%nat then
           snd (BatchProcessor.save_addon_data self
                  (data ++ List.map JObj (produced_entries outs)) w2)
         else w2.
Proof.
  intros Hq builder loaded outs w2.
  assert (Hload : exists data, fst loaded = Ok data
            /\ fs (snd loaded) = fs w /\ env (snd loaded) = env w
            /\ (tick w <= tick (snd loaded))%nat).
  { subst loaded. unfold BatchProcessor.load_addon_data.
    rewrite load_json_data_spec. destruct (fs w !! _); cbn; eexists;
      repeat split; auto; lia. }
  destruct Hload as (data & Hdata & Hfs & Henv & Htick).
  exists data. split; [exact Hdata|]. split; [exact Hfs|]. split; [exact Henv|].
  split; [exact Htick|].
  assert (Hterm : forall (q : list record) (w0 : world),
            fs (world_after builder q w0) = fs w0
            /\ env (world_after builder q w0) = env w0
            /\ (tick w0 <= tick (world_after builder q w0))%nat).
  { induction q as [|x q IH]; intros w0; cbn [world_after]; [auto|].
    destruct (IH (snd (builder x w0))) as (H1 & H2 & H3).
    destruct (interactive_entry_builder_terminal self x w0) as (K1 & K2 & K3).
    subst builder. rewrite H1, H2, K1, K3. repeat split; auto. lia. }
  destruct (Hterm (r :: queue) (snd loaded)) as (H1 & H2 & H3).
  fold w2 in H1, H2, H3.
  split; [congruence|]. split; [congruence|]. split; [lia|].
  unfold BatchProcessor.process_missing_entries_interactive, BatchProcessor.run_session.
  rewrite Hq. unfold bind. fold loaded.
  destruct loaded as [rl wl] eqn:Hl. cbn [fst snd] in *. subst rl.
  rewrite process_entries_spec. cbv zeta. fold builder. fold outs. fold w2.
  cbn [processed BatchProcessor.no_results Nat.add].
  destruct (0 <? length (produced_entries outs))%nat; [|reflexivity].
  destruct (BatchProcessor.save_addon_data self _ w2) as [[[]|e] w3]; reflexivity.
Qed.

End SessionStoreFacts.

(** X20. A session of [batch_processor.py] in which no record is produced
    writes nothing: the disk is as it was (no save, no backup) and
    [created_entries] is empty. *)
Theorem session_without_product_writes_nothing {codec : JsonCodec}
    (self : BatchProcessor.t) (w : world) (res : results) :
  fst (BatchProcessor.process_missing_entries_interactive self w) = Ok res ->
  processed res = 0%nat ->
  fs (snd (BatchProcessor.process_missing_entries_interactive self w)) = fs w
  /\ created_entries res = [].
Proof.
  intros Hres Hzero.
  destruct (run_session_spec (BatchProcessor.interactive_entry_builder self) self w)
    as [saved Hrun].
  unfold BatchProcessor.process_missing_entries_interactive in Hres.
  rewrite Hrun in Hres. injection Hres as Hres.
  destruct (DataSynchronizer.find_missing_addon_entries
              (BatchProcessor.synchronizer self)) as [[|r queue]|e] eqn:Hq.
  - subst res. split; [|reflexivity].
    unfold BatchProcessor.process_missing_entries_interactive, BatchProcessor.run_session.
    rewrite Hq. reflexivity.
  - destruct (session_run self w r queue Hq)
      as (data & _ & _ & _ & _ & Hfs & _ & _ & Hsnd).
    cbv zeta in Hres. subst res. cbn [processed created_entries] in *.
    rewrite Hsnd, Hzero. cbn [Nat.ltb Nat.leb]. split; [exact Hfs|].
    destruct (produced_entries _); [reflexivity|discriminate Hzero].
  - subst res. split; [|reflexivity].
    unfold BatchProcessor.process_missing_entries_interactive, BatchProcessor.run_session.
    rewrite Hq. reflexivity.
Qed.

(** X21. A session of [batch_processor.py] only appends: when no call to the
    operating system fails and a record is produced, the addon store on disk
    after the session is the store as it was before it, in the same order,
    followed by the created entries in the order of [created_entries]; the
    errors counted are those of [error_details]. *)
Theorem session_appends_created_entries {codec : JsonCodec} {laws : CodecLaws codec}
    (self : BatchProcessor.t) (w : world) (res : results) :
  let addon_path := BatchProcessor.addon_path self in
  let run := BatchProcessor.process_missing_entries_interactive self w in
  calm w ->
  forallb Spec.valid (stored (fs w) addon_path) = true ->
  forallb (fun r => Spec.valid (JObj r))
    (DataSynchronizer._official_data (BatchProcessor.synchronizer self)) = true ->
  fst run = Ok res ->
  (0 < processed res)%nat ->
  stored (fs (snd run)) addon_path
  = stored (fs w) addon_path ++ List.map JObj (created_entries res)
  /\ errors res = length (error_details res).
Proof.
  intros addon_path run Hcalm Hstored Hofficial Hres Hpos. subst run.
  destruct (DataSynchronizer.find_missing_addon_entries
              (BatchProcessor.synchronizer self)) as [[|r queue]|e] eqn:Hq.
  1, 3: unfold BatchProcessor.process_missing_entries_interactive,
          BatchProcessor.run_session in Hres; rewrite Hq in Hres;
        injection Hres as <-; cbn in Hpos; lia.
  destruct (session_run self w r queue Hq)
    as (data & Hdata & Hfs1 & Henv1 & Htick1 & Hfs2 & Henv2 & Htick2 & Hsnd).
  set (builder := BatchProcessor.interactive_entry_builder self) in *.
  set (w1 := snd (BatchProcessor.load_addon_data self w)) in *.
  set (outs := outcomes builder (r :: queue) w1) in *.
  set (w2 := world_after builder (r :: queue) w1) in *.
  assert (Hdata' : data = stored (fs w) addon_path).
  { unfold BatchProcessor.load_addon_data in Hdata. rewrite load_json_data_spec in Hdata.
    fold addon_path in Hdata. unfold stored.
    destruct (fs w !! addon_path) as [c|] eqn:Hc; cbn [fst] in Hdata.
    - rewrite (Hcalm (tick w)) in Hdata by lia. injection Hdata as <-.
      unfold stored. rewrite Hc. reflexivity.
    - injection Hdata as <-. reflexivity. }
  assert (Hvalid : forallb Spec.valid (data ++ List.map JObj (produced_entries outs)) = true).
  { apply forallb_valid_app; [rewrite Hdata'; exact Hstored|].
    apply produced_entries_valid. intros x Hx.
    rewrite forallb_forall in Hofficial. apply Hofficial.
    apply (find_missing_incl _ _ Hq). exact Hx. }
  (* the tally *)
  unfold BatchProcessor.process_missing_entries_interactive,
    BatchProcessor.run_session in Hres.
  rewrite Hq in Hres. unfold bind in Hres.
  destruct (BatchProcessor.load_addon_data self w) as [rl wl] eqn:Hl.
  cbn [fst snd] in Hdata, w1. subst rl.
  rewrite process_entries_spec in Hres. cbv zeta in Hres.
  fold builder in Hres. fold w1 in Hres. fold outs in Hres. fold w2 in Hres.
  cbn [processed BatchProcessor.no_results Nat.add app] in Hres.
  assert (Hsave : BatchProcessor.save_addon_data self
                    (data ++ List.map JObj (produced_entries outs)) w2
                  = (Ok true,
                     after 1 (<[ addon_path :=
                                   json_dump (JArr (data ++ List.map JObj
                                                             (produced_entries outs))) ]>
                                (fs (backed_up (BatchProcessor.file_manager self)
                                       addon_path w2)))
                       (backed_up (BatchProcessor.file_manager self) addon_path w2))).
  { unfold BatchProcessor.save_addon_data. rewrite save_json_data_spec. cbv zeta.
    fold addon_path.
    destruct (backed_up_later (BatchProcessor.file_manager self) addon_path w2)
      as [Henv3 Htick3].
    rewrite (calm_now w (backed_up (BatchProcessor.file_manager self) addon_path w2) Hcalm)
      by (congruence || lia).
    reflexivity. }
  rewrite Hsnd.
  destruct (0 <? length (produced_entries outs))%nat eqn:Hlen.
  - rewrite Hsave in Hres |- *. cbn [fst snd ret] in Hres. injection Hres as <-.
    cbn [created_entries errors error_details snd after fs app Nat.add].
    rewrite stored_saved by exact Hvalid. rewrite Hdata'. split; reflexivity.
  - cbn [fst ret] in Hres. injection Hres as <-.
    change (0 < length (produced_entries outs))%nat in Hpos.
    apply Nat.ltb_ge in Hlen. lia.
Qed.

Lemma session_without_product_writes_nothing_witness :
  let proc := Sample.processor [Sample.theme_b] [] in
  let w := Sample.world_of (Sample.disk_of [JObj Sample.theme_b] []) ["skip"] in
  fs (snd (BatchProcessor.process_missing_entries_interactive proc w)) = fs w
  /\ created_entries
       {| processed := 0; skipped := 1; errors := 0;
          created_entries := []; error_details := [] |} = [].
Proof.
  intros proc w.
  apply (session_without_product_writes_nothing proc w
           {| processed := 0; skipped := 1; errors := 0;
              created_entries := []; error_details := [] |});
    vm_compute; reflexivity.
Defined.

Lemma session_appends_created_entries_witness :
  let proc := Sample.processor [Sample.theme_b; Sample.theme_d] [Sample.orphan] in
  let w := Sample.world_of
             (Sample.disk_of [JObj Sample.theme_b; JObj Sample.theme_d]
                             [JObj Sample.orphan])
             ["sleek"; ""; ""; "y"; "calm"; ""; ""; "y"] in
  let res := {| processed := 2; skipped := 0; errors := 0;
                created_entries := [Sample.entry_b; Sample.entry_d];
                error_details := [] |} in
  stored (fs (snd (BatchProcessor.process_missing_entries_interactive proc w)))
    (BatchProcessor.addon_path proc)
  = stored (fs w) (BatchProcessor.addon_path proc)
    ++ List.map JObj (created_entries res)
  /\ errors res = length (error_details res).
Proof.
  intros proc w res.
  apply (session_appends_created_entries (laws := text_codec_laws) proc w res).
  - intros n _. reflexivity.
  - vm_compute. reflexivity.
  - vm_compute. reflexivity.
  - vm_compute. reflexivity.
  - cbn. lia.
Defined.

(** ** Range selection *)

Section RangeFacts.


Lemma select_part_in_range (int : string -> option Z) (n : Z) (part : string)
    (S S' : gset Z) :
  in_range n S ->
  BatchProcessor.select_part int n part S = Some S' -> in_range n S'.
Proof.
  intros HS. unfold BatchProcessor.select_part.
  destruct (PyStr.contains "-" (PyStr.strip part)).
  - destruct (BatchProcessor.split_first "-" (PyStr.strip part)) as [start_str end_str].
    destruct (int (PyStr.strip start_str)) as [start|]; [|discriminate].
    destruct (int (PyStr.strip end_str)) as [end_|]; [|discriminate].
    intros [= <-] i Hi. apply elem_of_union in Hi as [Hi|Hi]; [apply HS, Hi|].
    apply elem_of_list_to_set, elem_of_seqZ in Hi.
    destruct (start - 1 <? 0)%Z eqn:Hs; destruct (end_ - 1 >=? n)%Z eqn:He;
      try apply Z.ltb_lt in Hs; try apply Z.ltb_ge in Hs;
      rewrite Z.geb_leb in He;
      try apply Z.leb_le in He; try apply Z.leb_gt in He; lia.
  - destruct (int (PyStr.strip part)) as [index|]; [|discriminate].
    intros [= <-] i Hi.
    destruct ((0 <=? index - 1)%Z && (index - 1 <? n)%Z) eqn:Hb; [|apply HS, Hi].
    apply andb_prop in Hb as [H0 Hn]. apply Z.leb_le in H0. apply Z.ltb_lt in Hn.
    apply elem_of_union in Hi as [Hi|Hi]; [|apply HS, Hi].
    apply elem_of_singleton in Hi. lia.
Qed.

Lemma select_parts_in_range (int : string -> option Z) (n : Z) (parts : list string) :
  forall S S' : gset Z,
    in_range n S ->
    BatchProcessor.select_parts int n parts S = Some S' -> in_range n S'.
Proof.
  induction parts as [|part parts IH]; intros S S' HS; cbn [BatchProcessor.select_parts].
  - intros [= <-]. exact HS.
  - destruct (BatchProcessor.select_part int n part S) as [S1|] eqn:H1; [|discriminate].
    apply IH. exact (select_part_in_range int n part S S1 HS H1).
Qed.

Lemma list_index_nonneg {A} (l : list A) (i : Z) :
  (0 <= i)%Z -> BatchProcessor.list_index l i = l !! Z.to_nat i.
Proof.
  intros Hi. unfold BatchProcessor.list_index.
  rewrite (proj2 (Z.leb_le 0 i) Hi). reflexivity.
Qed.

(** Picking the entries at ascending positions gives a sub-sequence. *)
Lemma index_all_drop {A} (l : list A) (indices : list Z) :
  forall d : nat,
    StronglySorted Z.lt indices ->
    List.Forall (fun i => (Z.of_nat d <= i < Z.of_nat (length l))%Z) indices ->
    exists picked,
      BatchProcessor.index_all l indices = Some picked
      /\ sublist picked (drop d l).
Proof.
  induction indices as [|i rest IH]; intros d Hsorted Hrange.
  - exists []. split; [reflexivity|apply sublist_nil_l].
  - apply StronglySorted_inv in Hsorted as [Hsorted Hhead].
    pose proof (List.Forall_inv Hrange) as Hi. cbn beta in Hi.
    apply List.Forall_inv_tail in Hrange.
    assert (Hrest : List.Forall
              (fun j => (Z.of_nat (S (Z.to_nat i)) <= j < Z.of_nat (length l))%Z) rest).
    { rewrite List.Forall_forall in *. intros j Hj.
      specialize (Hhead j Hj). specialize (Hrange j Hj). cbn beta in Hrange. lia. }
    destruct (IH (S (Z.to_nat i)) Hsorted Hrest) as (picked & Hpicked & Hsub).
    assert (Hlt : (Z.to_nat i < length l)%nat) by lia.
    destruct (lookup_lt_is_Some_2 l (Z.to_nat i) Hlt) as [x Hx].
    exists (x :: picked). split.
    + cbn [BatchProcessor.index_all]. rewrite list_index_nonneg by lia.
      rewrite Hx, Hpicked. reflexivity.
    + transitivity (drop (Z.to_nat i) l).
      * rewrite (drop_S l x (Z.to_nat i) Hx). apply sublist_skip, Hsub.
      * replace (Z.to_nat i) with (d + (Z.to_nat i - d))%nat by lia.
        rewrite <- drop_drop. apply sublist_drop.
Qed.

Lemma sorted_elements (S : gset Z) :
  StronglySorted Z.lt (merge_sort Z.le (elements S)).
Proof.
  assert (Hs : StronglySorted Z.le (merge_sort Z.le (elements S))).
  { apply (StronglySorted_merge_sort Z.le). }
  assert (Hnd : NoDup (merge_sort Z.le (elements S))).
  { rewrite merge_sort_Permutation. apply NoDup_elements. }
  induction Hs as [|x l Hl IH Hx]; [constructor|].
  apply NoDup_cons in Hnd as [Hout Hnd]. constructor; [apply IH, Hnd|].
  rewrite List.Forall_forall in *. intros y Hy. specialize (Hx y Hy).
  assert (x <> y) by (intros ->; apply Hout, list_elem_of_In, Hy). lia.
Qed.

End RangeFacts.

(** X22. Whatever [int] makes of the numbers typed, the entries
    [_parse_range_selection] selects are a sub-sequence of the entries given:
    each is taken from a position of the list, none twice, in the order of
    the list, and no [IndexError] occurs; an empty input and [all], in any
    case, select them all. *)
Theorem range_selection_is_sublist (int : string -> option Z)
    (range_input : string) (all_entries : list record) :
  sublist (BatchProcessor._parse_range_selection int range_input all_entries)
          all_entries
  /\ (range_input = "" \/ PyStr.lower range_input = "all" ->
      BatchProcessor._parse_range_selection int range_input all_entries = all_entries).
Proof.
  unfold BatchProcessor._parse_range_selection. split.
  - destruct (_ || _); [reflexivity|].
    destruct (BatchProcessor.select_parts int _ _ ∅) as [S|] eqn:HS;
      [|apply sublist_nil_l].
    assert (Hrange : in_range (Z.of_nat (length all_entries)) S).
    { refine (select_parts_in_range int _ _ ∅ S _ HS).
      intros i Hi. set_solver. }
    destruct (index_all_drop all_entries (merge_sort Z.le (elements S)) 0)
      as (picked & -> & Hsub).
    + apply sorted_elements.
    + apply List.Forall_forall. intros i Hi.
      assert (i ∈ S).
      { apply elem_of_elements. rewrite <- (merge_sort_Permutation Z.le).
        apply list_elem_of_In, Hi. }
      specialize (Hrange i H). lia.
    + exact Hsub.
  - intros [->|Hall]; [reflexivity|].
    rewrite Hall. rewrite orb_true_r. reflexivity.
Qed.

(** The examples of the docstring, on five entries, with [int] on plain
    decimal numerals; a repeated position is taken once, a part that is no
    number empties the selection. *)
Example range_selection_examples :
  let e := fun k : string => [("repo", JStr k)] : record in
  let all_entries := [e "1"; e "2"; e "3"; e "4"; e "5"] in
  BatchProcessor._parse_range_selection Sample.int "1,3-4" all_entries
  = [e "1"; e "3"; e "4"]
  /\ BatchProcessor._parse_range_selection Sample.int "4, 2,2" all_entries
     = [e "2"; e "4"]
  /\ BatchProcessor._parse_range_selection Sample.int "4-9" all_entries
     = [e "4"; e "5"]
  /\ BatchProcessor._parse_range_selection Sample.int "9" all_entries = []
  /\ BatchProcessor._parse_range_selection Sample.int "1,two" all_entries = []
  /\ BatchProcessor._parse_range_selection Sample.int "ALL" all_entries = all_entries.
Proof. repeat split; vm_compute; reflexivity. Qed.
(** ** Record Store: taking over a new official file *)

Section MergeFacts.
Context {codec : JsonCodec}.

Lemma only_touches_refl (P : string -> Prop) (w : world) : only_touches P w w.
Proof. unfold only_touches. repeat split; auto. Qed.



Lemma only_touches_weaken (P Q : string -> Prop) (w w' : world) :
  (forall q, P q -> Q q) -> only_touches P w w' -> only_touches Q w w'.
Proof.
  intros HPQ (Hin & Henv & Htick & Hkeep & Hframe).
  unfold only_touches. repeat split; auto.
Qed.














End MergeFacts.



(** A new official file with one more theme: the report, the backup of the
    official file, a first run without addon file, a current official file
    that holds an object, and no new file. *)
Example merge_official_updates_examples :
  let new_file := "downloads/community-css-themes.json" in
  let official_file := "community-css-themes.json" in
  let disk := <[ new_file := JsonText.dumps (JArr [JObj Sample.theme_b; JObj Sample.theme_d]) ]>
                (Sample.disk_of [JObj Sample.theme_b]
                   [JObj Sample.entry_b; JObj Sample.orphan]) in
  let merge (disk : gmap string string) :=
    FileManager.merge_official_updates Sample.file_manager new_file official_file
      Sample.addon_file (Sample.world_of disk []) in
  let summary (out : result FileManager.merge_outcome) :=
    match out with
    | Ok (FileManager.Merged report) =>
        Some (FileManager.themes_added report,
              elements (FileManager.added_repos report),
              elements (FileManager.removed_repos report),
              elements (FileManager.orphaned_addon_entries report),
              FileManager.backup_created report)
    | _ => None
    end in
  summary (fst (merge disk))
  = Some (1%nat, [Py.KStr "c/d"], [], [Py.KStr "x/y"], true)
  /\ fs (snd (merge disk)) !! "backups/community-css-themes_20250102_030405_pre_merge.json"
     = Some (JsonText.dumps (JArr [JObj Sample.theme_b]))
  /\ summary (fst (merge (delete Sample.addon_file disk)))
     = Some (1%nat, [Py.KStr "c/d"], [], [], false)
  /\ fst (merge (<[ official_file := JsonText.dumps (JObj Sample.theme_b) ]> disk))
     = Ok (FileManager.MergeError "'str' object has no attribute 'get'")
  /\ summary (fst (merge (delete new_file disk))) = None.
Proof. vm_compute. repeat split. Qed.
(** ** Synchronization summary and comparison *)

Section SyncMenuFacts.






Lemma percent_zero (a whole : nat) :
  (0 < whole)%nat ->
  Qeq (DataSynchronizer.percent a whole) (inject_Z 0) <-> a = 0%nat.
Proof.
  intros Hw. unfold DataSynchronizer.percent, Qdiv, Qmult, Qinv, Qeq, inject_Z.
  destruct whole as [|n]; [lia|]. simpl Z.of_nat. simpl. lia.
Qed.



End SyncMenuFacts.


